(** * Debate scheduler: reactivity, weighted memory, speaker selection, drift

    A shallow embedding of [agents/agent.py], [orchestrator/orchestrator.py]
    and the driver loop of [main.py].

    Modelling conventions.
    - Python floats are exact rationals ([Q]); comparisons are the ones the
      source writes ([>], [>=], [==]); rounding is not modelled.
    - Text is [string] (8-bit characters); [str.lower] folds the ASCII
      letters and [str.split] cuts at ASCII white space.
    - Agents are distinct objects held in the orchestrator's roster; an agent
      is referred to by its position in that roster.
    - The [random] module and the language model behind [generate_reply] are
      external: they are the operations of a class [Outside] on an abstract
      [World].  Printing to the console is not modelled.
    - Exceptions are explicit: a computation yields [Ok v] or [Raise e].

    The definitions come first, then a scripted instance of [Outside] to run
    them, then the properties, then worked examples. *)

From Stdlib Require Import QArith Qabs Qminmax ZArith String Ascii List Bool.
From Stdlib Require Import Lia Lqa Permutation ListSet DecimalString.
Import ListNotations.

Open Scope string_scope.
Open Scope Z_scope.
Open Scope Q_scope.

(* ================================================================== *)
(** ** Python primitives *)

Module Py.

(** [max(a, b)] and [min(a, b)] as the interpreter evaluates them: the first
    argument unless the second is strictly better. *)
Definition Qltb (x y : Q) : bool := negb (Qle_bool y x).

Definition max (a b : Q) : Q := if Qltb a b then b else a.

Definition min (a b : Q) : Q := if Qltb b a then b else a.

Definition is_upper (c : ascii) : bool :=
  let n := nat_of_ascii c in (Nat.leb 65 n && Nat.leb n 90)%bool.

Definition lower_char (c : ascii) : ascii :=
  if is_upper c then ascii_of_nat (nat_of_ascii c + 32) else c.

(** [s.lower()] *)
Fixpoint lower (s : string) : string :=
  match s with
  | EmptyString => EmptyString
  | String c s' => String (lower_char c) (lower s')
  end.

(** [needle in hay] on strings *)
Fixpoint contains (needle hay : string) : bool :=
  (prefix needle hay ||
   match hay with
   | EmptyString => false
   | String _ hay' => contains needle hay'
   end)%bool.

(** [s.startswith(p)] *)
Definition startswith (s p : string) : bool := prefix p s.

Definition is_space (c : ascii) : bool :=
  let n := nat_of_ascii c in
  ((Nat.leb 9 n && Nat.leb n 13) || (Nat.leb 28 n && Nat.leb n 32))%bool.

Definition is_empty (s : string) : bool :=
  match s with EmptyString => true | _ => false end.

Fixpoint split_from (s cur : string) : list string :=
  match s with
  | EmptyString => if is_empty cur then [] else [cur]
  | String c s' =>
      if is_space c
      then (if is_empty cur then split_from s' "" else cur :: split_from s' "")
      else split_from s' (cur ++ String c "")
  end.

(** [s.split()] *)
Definition split (s : string) : list string := split_from s "".

(** [sep.join(parts)] *)
Fixpoint join (sep : string) (parts : list string) : string :=
  match parts with
  | [] => ""
  | [p] => p
  | p :: rest => p ++ sep ++ join sep rest
  end.

(** [l[-n:]] for [n > 0] *)
Definition last_n {A : Type} (n : nat) (l : list A) : list A :=
  skipn (length l - n) l.

(** [s[-n:]] for [n > 0] *)
Definition str_last_n (n : nat) (s : string) : string :=
  substring (String.length s - n) n s.

(** [x in l] for a list of strings *)
Definition mem (x : string) (l : list string) : bool :=
  existsb (String.eqb x) l.

(** [any(p in content for p in patterns)]; also the shape of the loops
    [for p in patterns: if p in content: ...; break]. *)
Definition any_in (patterns : list string) (content : string) : bool :=
  existsb (fun p => contains p content) patterns.

(** [set(words)], [a.intersection(b)] and [a.update(b)] on sets of strings. *)
Definition to_set (words : list string) : set string :=
  fold_left (fun s w => set_add string_dec w s) words (empty_set string).

Definition update (s : set string) (words : list string) : set string :=
  fold_left (fun s w => set_add string_dec w s) words s.

Definition intersection (a b : set string) : set string :=
  set_inter string_dec a b.

(** [d.get(key, default)] on a dictionary kept as an association list. *)
Fixpoint get {V : Type} (d : list (string * V)) (key : string) (default : V) : V :=
  match d with
  | [] => default
  | (k, v) :: d' => if String.eqb key k then v else get d' key default
  end.

Definition keys {V : Type} (d : list (string * V)) : list string := map fst d.

Definition newline : string := String (ascii_of_nat 10) "".

Definition dquote : string := String (ascii_of_nat 34) "".

(** [str(n)] for an integer *)
Definition str_int (z : Z) : string := NilZero.string_of_int (Z.to_int z).

(** Rounding to the nearest integer, ties to even. *)
Definition round_half_even (q : Q) : Z :=
  let n := Qnum q in
  let d := Zpos (Qden q) in
  let f := (n / d)%Z in
  let r := (2 * (n - f * d))%Z in
  if (r <? d)%Z then f
  else if (d <? r)%Z then (f + 1)%Z
  else if Z.even f then f else (f + 1)%Z.

Definition two_digits (z : Z) : string :=
  if (z <? 10)%Z then "0" ++ str_int z else str_int z.

(** [f"{x:.2f}"] *)
Definition format_2f (x : Q) : string :=
  let h := round_half_even (Qabs x * 100) in
  (if Qltb x 0 then "-" else "") ++
  str_int (h / 100) ++ "." ++ two_digits (h mod 100).

End Py.

(* ================================================================== *)
(** ** Sorting as [sorted(..., key=..., reverse=True)] does it

    The sort is stable: among equal keys the original order is kept, also
    when reversed. *)

Section Sorting.
Context {A : Type}.
Variable key : A -> Q.

Fixpoint insert_desc (x : A) (l : list A) : list A :=
  match l with
  | [] => [x]
  | y :: l' =>
      if Qle_bool (key y) (key x) then x :: y :: l' else y :: insert_desc x l'
  end.

Definition sorted_desc (l : list A) : list A := fold_right insert_desc [] l.

(** Every element is at least as large as everything after it. *)
Fixpoint ranked (l : list A) : Prop :=
  match l with
  | [] => True
  | x :: l' => (forall y, In y l' -> key y <= key x) /\ ranked l'
  end.

End Sorting.

(* ================================================================== *)
(** ** Data model *)

(** A memory entry: the dictionary built in [update_memory]. *)
Record MemoryEntry := mkMemory {
  mem_content : string;
  importance : Q;
  opinion_weight : Q;
  timestamp : nat;
  decay_rounds : Z;
  speaker_philosophy : option string
}.

(** A transcript entry: the dictionaries appended to [chat_history]. *)
Record Message := mkMessage {
  speaker : string;
  content : string;
  round : Z;
  msg_philosophy : option string
}.

(** [PhilosopherAgent].  [has_chat_history] records whether the attribute
    [chat_history] has been set; when set it aliases the orchestrator's
    list. *)
Record PhilosopherAgent := mkAgent {
  name : string;
  philosophy : string;
  system_message : string;
  initial_system_message : string;
  goals : list string;
  cooldown : Z;
  memory : list MemoryEntry;
  reactivity_threshold : Q;
  belief_drift_threshold : Q;
  memory_decay_rate : Q;
  has_chat_history : bool
}.

(** [PhilosopherAgent.__init__] *)
Definition new_agent (nm phil sysmsg : string) (gs : list string) : PhilosopherAgent :=
  {| name := nm; philosophy := phil;
     system_message := sysmsg; initial_system_message := sysmsg;
     goals := gs; cooldown := 0%Z; memory := [];
     reactivity_threshold := 0.3;
     belief_drift_threshold := 0.7;
     memory_decay_rate := 0.05;
     has_chat_history := false |}.

Definition with_memory (a : PhilosopherAgent) (m : list MemoryEntry) : PhilosopherAgent :=
  {| name := name a; philosophy := philosophy a;
     system_message := system_message a;
     initial_system_message := initial_system_message a;
     goals := goals a; cooldown := cooldown a; memory := m;
     reactivity_threshold := reactivity_threshold a;
     belief_drift_threshold := belief_drift_threshold a;
     memory_decay_rate := memory_decay_rate a;
     has_chat_history := has_chat_history a |}.

Definition with_cooldown (a : PhilosopherAgent) (c : Z) : PhilosopherAgent :=
  {| name := name a; philosophy := philosophy a;
     system_message := system_message a;
     initial_system_message := initial_system_message a;
     goals := goals a; cooldown := c; memory := memory a;
     reactivity_threshold := reactivity_threshold a;
     belief_drift_threshold := belief_drift_threshold a;
     memory_decay_rate := memory_decay_rate a;
     has_chat_history := has_chat_history a |}.

Definition with_system_message (a : PhilosopherAgent) (s : string) : PhilosopherAgent :=
  {| name := name a; philosophy := philosophy a;
     system_message := s;
     initial_system_message := initial_system_message a;
     goals := goals a; cooldown := cooldown a; memory := memory a;
     reactivity_threshold := reactivity_threshold a;
     belief_drift_threshold := belief_drift_threshold a;
     memory_decay_rate := memory_decay_rate a;
     has_chat_history := has_chat_history a |}.

Definition with_chat_history (a : PhilosopherAgent) : PhilosopherAgent :=
  {| name := name a; philosophy := philosophy a;
     system_message := system_message a;
     initial_system_message := initial_system_message a;
     goals := goals a; cooldown := cooldown a; memory := memory a;
     reactivity_threshold := reactivity_threshold a;
     belief_drift_threshold := belief_drift_threshold a;
     memory_decay_rate := memory_decay_rate a;
     has_chat_history := true |}.

(* ================================================================== *)
(** ** Keyword tables of [agent.py] *)

Definition philosophy_keywords : list (string * list string) :=
  [ ("deontology", ["duty"; "moral law"; "categorical imperative"; "universal";
                    "principle"; "kant"; "obligation"]);
    ("consequentialism", ["outcome"; "consequence"; "utility"; "greatest good";
                          "result"; "mill"; "happiness"; "welfare"]);
    ("confucian", ["virtue"; "harmony"; "social"; "tradition"; "ritual";
                   "confucius"; "relationship"; "hierarchy"]);
    ("existentialism", ["freedom"; "authenticity"; "choice"; "existence";
                        "responsibility"; "sartre"; "nietzsche"; "meaning"]);
    ("buddhist", ["suffering"; "compassion"; "mindfulness"; "attachment";
                  "enlightenment"; "santideva"; "interdependence"]) ].

Definition disagreement_patterns : list string :=
  ["disagree"; "wrong"; "incorrect"; "however"; "but"; "reject"; "false"].

Definition challenge_patterns : list (string * list string) :=
  [ ("deontology", ["consequences matter"; "outcomes"; "flexible rules"]);
    ("consequentialism", ["regardless of outcome"; "duty"; "absolute rule"]);
    ("confucian", ["individual freedom"; "break tradition"; "social chaos"]);
    ("existentialist", ["universal truth"; "objective morality"; "predetermined"]);
    ("buddhist", ["permanent self"; "absolute truth"; "attachment necessary"]) ].

Definition agreement_patterns : list (string * list string) :=
  [ ("deontology", ["duty"; "universal law"; "categorical imperative"; "moral principle"]);
    ("consequentialism", ["maximize happiness"; "best outcome"; "utility"; "greater good"]);
    ("confucian", ["harmony"; "virtue"; "proper conduct"; "social order"]);
    ("existentialist", ["freedom"; "authentic"; "create meaning"; "individual choice"]);
    ("buddhist", ["reduce suffering"; "compassion"; "interdependence"; "middle way"]) ].

Definition opposing_philosophies : list (string * list string) :=
  [ ("deontology", ["consequentialism"; "existentialist"]);
    ("consequentialism", ["deontology"]);
    ("confucian", ["existentialist"]);
    ("existentialist", ["deontology"; "confucian"]);
    ("buddhist", []) ].

Definition compelling_phrases : list string :=
  ["excellent point"; "i see your point"; "that's true"; "compelling argument"].

(* ================================================================== *)
(** ** [PhilosopherAgent]: memory, reactivity, drift (the parts that need
       neither randomness nor the language model) *)

(** One turn of the loop over [recent_messages] in [compute_reactivity]. *)
Definition message_reactivity (a : PhilosopherAgent) (keywords : list string)
    (score : Q) (message : Message) : Q :=
  let content := Py.lower (content message) in
  if String.eqb (speaker message) (name a) then score
  else
    let score := if Py.contains (Py.lower (name a)) content then score + 0.5 else score in
    let score := if Py.any_in keywords content then score + 0.3 else score in
    let score := if Py.contains "?" content then score + 0.2 else score in
    let score := if Py.any_in disagreement_patterns content then score + 0.2 else score in
    let challenges := Py.get challenge_patterns (Py.lower (philosophy a)) [] in
    if Py.any_in challenges content then score + 0.4 else score.

(** [_get_relevant_memories] *)
Definition recent_keywords (recent_messages : list Message) : set string :=
  fold_left (fun keywords msg => Py.update keywords (Py.split (Py.lower (content msg))))
            (Py.last_n 3 recent_messages) (empty_set string).

Definition is_relevant (keywords : set string) (m : MemoryEntry) : bool :=
  let memory_words := Py.to_set (Py.split (Py.lower (mem_content m))) in
  Nat.ltb 3 (length (Py.intersection keywords memory_words)).

Definition _get_relevant_memories (a : PhilosopherAgent)
    (recent_messages : list Message) : list MemoryEntry :=
  filter (is_relevant (recent_keywords recent_messages)) (memory a).

(** The score of [compute_reactivity] before the jitter is added and the
    result is clamped; [chat_history] is not empty here. *)
Definition raw_reactivity (a : PhilosopherAgent) (chat_history : list Message) : Q :=
  let recent_messages := Py.last_n 3 chat_history in
  let keywords := Py.get philosophy_keywords (Py.lower (philosophy a)) [] in
  let score := fold_left (message_reactivity a keywords) recent_messages 0 in
  fold_left (fun score m => score + Qabs (opinion_weight m) * 0.2)
            (_get_relevant_memories a recent_messages) score.

(** The loop over [own_patterns] in [_calculate_opinion_weight]. *)
Definition agreement_score (own_patterns : list string) (message_lower : string)
    (opinion : Q) : Q :=
  fold_left (fun opinion pattern =>
               if Py.contains pattern message_lower then opinion + 0.3 else opinion)
            own_patterns opinion.

(** [_calculate_opinion_weight] *)
Definition _calculate_opinion_weight (a : PhilosopherAgent) (message : string)
    (speaker_phil : option string) : Q :=
  let message_lower := Py.lower message in
  let own_patterns := Py.get agreement_patterns (Py.lower (philosophy a)) [] in
  let opinion := agreement_score own_patterns message_lower 0 in
  let opposed :=
    match speaker_phil with
    | Some p => (negb (Py.is_empty p) &&
                 Py.mem (Py.lower p)
                        (Py.get opposing_philosophies (Py.lower (philosophy a)) []))%bool
    | None => false
    end in
  let opinion := if opposed then opinion - 0.2 else opinion in
  let opinion :=
    if (Py.contains "disagree" message_lower || Py.contains "wrong" message_lower
        || Py.contains "reject" message_lower)%bool
    then (if (Py.contains (Py.lower (name a)) message_lower
              || Py.contains (Py.lower (philosophy a)) message_lower)%bool
          then opinion - 0.4 else opinion)
    else opinion in
  let opinion := if Py.any_in compelling_phrases message_lower then opinion + 0.2 else opinion in
  Py.max (-1) (Py.min 1 opinion).

(** [_clean_decayed_memories] *)
Definition _clean_decayed_memories (a : PhilosopherAgent) : PhilosopherAgent :=
  with_memory a (filter (fun m => Py.Qltb 0.2 (importance m)) (memory a)).

Definition memory_rank (m : MemoryEntry) : Q := importance m + Qabs (opinion_weight m).

(** [update_memory] *)
Definition update_memory (a : PhilosopherAgent) (message : string)
    (importance_score : Q) (speaker_phil : option string) : PhilosopherAgent :=
  let opinion := _calculate_opinion_weight a message speaker_phil in
  let memory_entry :=
    {| mem_content := message; importance := importance_score;
       opinion_weight := opinion; timestamp := length (memory a);
       decay_rounds := 0%Z; speaker_philosophy := speaker_phil |} in
  let a := with_memory a (memory a ++ [memory_entry]) in
  let a := _clean_decayed_memories a in
  if Nat.ltb 15 (length (memory a))
  then with_memory a (firstn 15 (sorted_desc memory_rank (memory a)))
  else a.

(** The body of the loop of [_apply_belief_decay], for one entry. *)
Definition decay_entry (rate : Q) (m : MemoryEntry) : MemoryEntry :=
  let rounds := (decay_rounds m + 1)%Z in
  let decay_factor := 1 - rate * inject_Z rounds in
  {| mem_content := mem_content m;
     importance := importance m * Py.max 0.1 decay_factor;
     opinion_weight :=
       if Py.Qltb 0.1 (Qabs (opinion_weight m))
       then opinion_weight m * 0.95 else opinion_weight m;
     timestamp := timestamp m;
     decay_rounds := rounds;
     speaker_philosophy := speaker_philosophy m |}.

(** [_apply_belief_decay] *)
Definition _apply_belief_decay (a : PhilosopherAgent) : PhilosopherAgent :=
  with_memory a (map (decay_entry (memory_decay_rate a)) (memory a)).

(** The text appended by [_modify_system_prompt]. *)
Definition indent8 : string := "        ".

Definition modification_prompt (a : PhilosopherAgent) (influenced_philosophy : string)
    (influence_score : Q) : string :=
  Py.newline ++ indent8 ++ Py.newline ++ indent8 ++
  "[BELIEF EVOLUTION: Through extended dialogue and reflection, you have found merit in certain aspects of "
  ++ influenced_philosophy ++ " philosophy. " ++ Py.newline ++ indent8 ++
  "While maintaining your core " ++ philosophy a ++
  " framework, you now incorporate insights about " ++ influenced_philosophy ++
  " perspectives " ++ Py.newline ++ indent8 ++
  "with an openness score of " ++ Py.format_2f influence_score ++
  ". You may reference these complementary ideas when they strengthen your arguments.]"
  ++ Py.newline ++ indent8.

(** [_modify_system_prompt] *)
Definition _modify_system_prompt (a : PhilosopherAgent) (influenced_philosophy : string)
    (influence_score : Q) : PhilosopherAgent :=
  with_system_message a
    (initial_system_message a ++ modification_prompt a influenced_philosophy influence_score).

(** [philosophy_scores[phil] += v], creating the key with 0 first; keys
    keep their order of insertion. *)
Fixpoint add_score (phil : string) (v : Q) (scores : list (string * Q)) : list (string * Q) :=
  match scores with
  | [] => [(phil, 0 + v)]
  | (p, s) :: rest =>
      if String.eqb phil p then (p, s + v) :: rest else (p, s) :: add_score phil v rest
  end.

(** The body of the first loop of [_check_belief_drift], for one entry. *)
Definition score_step (scores : list (string * Q)) (m : MemoryEntry) : list (string * Q) :=
  match speaker_philosophy m with
  | Some p =>
      if Py.is_empty p then scores
      else add_score (Py.lower p) (opinion_weight m * importance m) scores
  | None => scores
  end.

Definition philosophy_scores (a : PhilosopherAgent) : list (string * Q) :=
  fold_left score_step (memory a) [].

(** The test of the last loop of [_check_belief_drift]. *)
Definition drifts (a : PhilosopherAgent) (entry : string * Q) : bool :=
  (negb (String.eqb (fst entry) (Py.lower (philosophy a)))
   && Py.Qltb (belief_drift_threshold a) (snd entry))%bool.

(** [_check_belief_drift] *)
Definition _check_belief_drift (a : PhilosopherAgent) : PhilosopherAgent :=
  match memory a with
  | [] => a
  | _ =>
      fold_left (fun a entry =>
                   if drifts a entry then _modify_system_prompt a (fst entry) (snd entry)
                   else a)
                (philosophy_scores a) a
  end.

(** [set_cooldown] and [reduce_cooldown] *)
Definition set_cooldown (a : PhilosopherAgent) (rounds : Z) : PhilosopherAgent :=
  with_cooldown a rounds.

Definition reduce_cooldown (a : PhilosopherAgent) : PhilosopherAgent :=
  if (0 <? cooldown a)%Z then with_cooldown a (cooldown a - 1)%Z else a.

(** [get_philosophical_stance]; [topic] is the rendering of the topic inside
    the format string. *)
Definition stance_templates (topic : string) : list (string * string) :=
  [ ("deontology", "From a deontological perspective on " ++ topic ++
       ", we must ask: could this action be universalized as a moral law? Our duty is clear regardless of consequences...");
    ("consequentialism", "Regarding " ++ topic ++
       ", we must focus on outcomes. What action produces the greatest happiness for the greatest number? The consequences determine the moral worth...");
    ("confucian", "When examining " ++ topic ++
       ", we must consider how this affects social harmony and relationships. What would the exemplary person do in this context?...");
    ("existentialist", "Concerning " ++ topic ++
       ", we must reject imposed moral systems. Each individual must authentically choose their own values. Who has the authority to dictate morality?...");
    ("buddhist", "From a Buddhist perspective on " ++ topic ++
       ", we should ask: how does this increase or decrease suffering? All phenomena are interdependent and empty of inherent existence...") ].

Definition get_philosophical_stance (a : PhilosopherAgent) (topic : string) : string :=
  Py.get (stance_templates topic) (Py.lower (philosophy a))
         ("My philosophical view on " ++ topic ++ " is...").

(** The memory part of [generate_memory_influenced_prompt]: the agent reads
    the last five entries of its [chat_history] attribute when it has one. *)
Definition memory_line (m : MemoryEntry) : string :=
  Py.newline ++ "- " ++ substring 0 200 (mem_content m) ++ "... (weight: " ++
  Py.format_2f (opinion_weight m) ++ ")".

Definition generate_memory_influenced_prompt (a : PhilosopherAgent)
    (shared_history : list Message) (base_prompt : string) : string :=
  let seen := if has_chat_history a then Py.last_n 5 shared_history else [] in
  let relevant_memories := _get_relevant_memories a seen in
  match relevant_memories with
  | [] => base_prompt
  | _ =>
      let positive_memories := filter (fun m => Py.Qltb 0.3 (opinion_weight m)) relevant_memories in
      let negative_memories := filter (fun m => Py.Qltb (opinion_weight m) (-0.3)) relevant_memories in
      let memory_context :=
        Py.newline ++ Py.newline ++ "Relevant considerations from your past reflections:" in
      let memory_context :=
        match positive_memories with
        | [] => memory_context
        | _ => fold_left (fun ctx m => ctx ++ memory_line m) (firstn 3 positive_memories)
                         (memory_context ++ Py.newline ++ Py.newline ++
                          "Arguments you found compelling:")
        end in
      let memory_context :=
        match negative_memories with
        | [] => memory_context
        | _ => fold_left (fun ctx m => ctx ++ memory_line m) (firstn 3 negative_memories)
                         (memory_context ++ Py.newline ++ Py.newline ++
                          "Arguments you disagreed with:")
        end in
      base_prompt ++ memory_context
  end.

(* ================================================================== *)
(** ** Exceptions and replies *)

Inductive exn : Type :=
| Exception (what : string)
| ValueError
| IndexError
| AttributeError.

Inductive Res (A : Type) : Type :=
| Ok (value : A)
| Raise (e : exn).

Arguments Ok {A} value.
Arguments Raise {A} e.

(** What [generate_reply] hands back when it returns: a dictionary with a
    ['content'] entry (whose value may be missing text), a string, or
    anything else, of which only [str(response)] is used. *)
Inductive Reply : Type :=
| ReplyDict (reply_content : option string)
| ReplyStr (text : string)
| ReplyOther (repr : string).

(** ** The orchestrator's state *)

Record DebateOrchestrator := mkOrchestrator {
  orch_name : string;
  agents : list PhilosopherAgent;
  chat_history : list Message;
  current_topic : option string;
  round_count : Z;
  max_rounds : Z;
  debate_active : bool;
  speakers_per_round : nat
}.

Definition with_agents (o : DebateOrchestrator) (l : list PhilosopherAgent) : DebateOrchestrator :=
  {| orch_name := orch_name o; agents := l; chat_history := chat_history o;
     current_topic := current_topic o; round_count := round_count o;
     max_rounds := max_rounds o; debate_active := debate_active o;
     speakers_per_round := speakers_per_round o |}.

Definition with_history (o : DebateOrchestrator) (h : list Message) : DebateOrchestrator :=
  {| orch_name := orch_name o; agents := agents o; chat_history := h;
     current_topic := current_topic o; round_count := round_count o;
     max_rounds := max_rounds o; debate_active := debate_active o;
     speakers_per_round := speakers_per_round o |}.

Definition with_round_count (o : DebateOrchestrator) (n : Z) : DebateOrchestrator :=
  {| orch_name := orch_name o; agents := agents o; chat_history := chat_history o;
     current_topic := current_topic o; round_count := n;
     max_rounds := max_rounds o; debate_active := debate_active o;
     speakers_per_round := speakers_per_round o |}.

Definition with_active (o : DebateOrchestrator) (b : bool) : DebateOrchestrator :=
  {| orch_name := orch_name o; agents := agents o; chat_history := chat_history o;
     current_topic := current_topic o; round_count := round_count o;
     max_rounds := max_rounds o; debate_active := b;
     speakers_per_round := speakers_per_round o |}.

(** [DebateOrchestrator.__init__] and [add_agent] *)
Definition new_orchestrator : DebateOrchestrator :=
  {| orch_name := "Moderator"; agents := []; chat_history := [];
     current_topic := None; round_count := 0%Z; max_rounds := 10%Z;
     debate_active := false; speakers_per_round := 2%nat |}.

Definition add_agent (o : DebateOrchestrator) (a : PhilosopherAgent) : DebateOrchestrator :=
  with_agents o (agents o ++ [a]).

(** The summary dictionary of [end_debate] and the two results of
    [run_debate_round]. *)
Record Summary := mkSummary {
  sum_topic : option string;
  sum_rounds : Z;
  sum_participants : list (string * string);
  sum_total_messages : nat;
  sum_chat_history : list Message;
  sum_reflections : list (string * string)
}.

Record RoundResult := mkRound {
  res_round : Z;
  res_speakers : list string;
  res_responses : list (nat * string);
  res_intent_scores : list (nat * Q);
  res_continue : bool
}.

Inductive RoundOutcome : Type :=
| Ended (summary : Summary)
| Played (result : RoundResult).

(** List helpers for a roster addressed by position. *)
Fixpoint map_at {A : Type} (i : nat) (f : A -> A) (l : list A) : list A :=
  match l, i with
  | [], _ => []
  | x :: l', O => f x :: l'
  | x :: l', S i' => x :: map_at i' f l'
  end.

Fixpoint map_except {A : Type} (i : nat) (f : A -> A) (l : list A) : list A :=
  match l, i with
  | [], _ => []
  | x :: l', O => x :: map f l'
  | x :: l', S i' => f x :: map_except i' f l'
  end.

(** [d[k] = v] on an association list. *)
Fixpoint dict_set {V : Type} (k : string) (v : V) (d : list (string * V)) : list (string * V) :=
  match d with
  | [] => [(k, v)]
  | (k', v') :: d' => if String.eqb k k' then (k', v) :: d' else (k', v') :: dict_set k v d'
  end.

(** The rendering of [current_topic] inside a format string. *)
Definition topic_text (topic : option string) : string :=
  match topic with
  | Some t => t
  | None => "None"
  end.

Definition transcript_line (msg : Message) : string := speaker msg ++ ": " ++ content msg.

(** [_calculate_message_importance] *)
Definition disagreement_words : list string :=
  ["wrong"; "disagree"; "incorrect"; "false"; "reject"].

Definition _calculate_message_importance (message : string) (a : PhilosopherAgent) : Q :=
  let importance := 0.5 in
  let importance :=
    if Py.contains (Py.lower (philosophy a)) (Py.lower message)
    then importance + 0.3 else importance in
  let importance := if Py.contains "?" message then importance + 0.2 else importance in
  let importance :=
    if Py.any_in disagreement_words (Py.lower message) then importance + 0.2 else importance in
  Py.min importance 1.

(* ================================================================== *)
(** ** The configuration step of [main.py] and [test_memory_system.py] *)

(** The dictionary [setup_llm_config] returns. *)
Record LlmConfig := mkLlmConfig {
  llm_model : string;
  llm_api_key : string;
  llm_temperature : Q;
  llm_max_tokens : Z;
  llm_timeout : Z
}.

(** [setup_llm_config]; [api_key] is [os.getenv("OPENAI_API_KEY")], [None]
    when the variable is not set. *)
Definition setup_llm_config (api_key : option string) : Res LlmConfig :=
  match api_key with
  | None => Raise ValueError
  | Some key =>
      if Py.is_empty key then Raise ValueError
      else Ok {| llm_model := "gpt-4"; llm_api_key := key; llm_temperature := 0.7;
                 llm_max_tokens := 800%Z; llm_timeout := 60%Z |}
  end.

(** [setup_test_llm_config] *)
Definition setup_test_llm_config (api_key : option string) : Res LlmConfig :=
  match api_key with
  | None => Raise ValueError
  | Some key =>
      if Py.is_empty key then Raise ValueError
      else Ok {| llm_model := "gpt-4"; llm_api_key := key; llm_temperature := 0.8;
                 llm_max_tokens := 600%Z; llm_timeout := 60%Z |}
  end.

(** [agent.belief_drift_threshold = t] *)
Definition with_belief_drift_threshold (a : PhilosopherAgent) (t : Q) : PhilosopherAgent :=
  {| name := name a; philosophy := philosophy a;
     system_message := system_message a;
     initial_system_message := initial_system_message a;
     goals := goals a; cooldown := cooldown a; memory := memory a;
     reactivity_threshold := reactivity_threshold a;
     belief_drift_threshold := t;
     memory_decay_rate := memory_decay_rate a;
     has_chat_history := has_chat_history a |}.

(* ================================================================== *)
(** ** Computations that use the outside world *)

(** The outside world: a state for the random generator and the language
    model, with the operations the program uses on it.

    - [random_uniform a b] is [random.uniform(a, b)], [random_random] is
      [random.random()], [random_sample population k] is
      [random.sample(population, k)] for [k <= len(population)],
      [random_choices population weights] the single element of
      [random.choices(population, weights)] for a non-empty population with
      a positive total weight, and [randbelow n] the index drawn by
      [random.choice] in a sequence of length [n].
    - [generate_reply agent prompt] is
      [agent.generate_reply(messages=[{"role": "user", "content": prompt}])]:
      a reply, or an exception.
    - [get_prompt] gives the prompt texts of [prompts/system_prompts.py]. *)
Class Outside : Type := {
  World : Type;
  random_uniform : Q -> Q -> World -> Q * World;
  random_random : World -> Q * World;
  random_sample : list nat -> nat -> World -> list nat * World;
  random_choices : list nat -> list Q -> World -> nat * World;
  randbelow : nat -> World -> nat * World;
  generate_reply : PhilosopherAgent -> string -> World -> Res Reply * World;
  get_prompt : string -> string
}.

Section Debate.

Context {outside : Outside}.

Definition M (A : Type) : Type := World -> Res A * World.

Definition ret {A : Type} (x : A) : M A := fun w => (Ok x, w).

Definition bind {A B : Type} (m : M A) (k : A -> M B) : M B :=
  fun w =>
    match m w with
    | (Ok x, w') => k x w'
    | (Raise e, w') => (Raise e, w')
    end.

Definition raise {A : Type} (e : exn) : M A := fun w => (Raise e, w).

(** [try: body  except Exception as e: handler(e)] *)
Definition try_except {A : Type} (body : M A) (handler : exn -> M A) : M A :=
  fun w =>
    match body w with
    | (Ok x, w') => (Ok x, w')
    | (Raise e, w') => handler e w'
    end.

(** An operation of the outside world that cannot fail. *)
Definition lift {A : Type} (f : World -> A * World) : M A :=
  fun w => let (x, w') := f w in (Ok x, w').

Notation "x <- c1 ;; c2" := (bind c1 (fun x => c2))
  (at level 61, c1 at next level, right associativity).

Notation "' pat <- c1 ;; c2" := (bind c1 (fun x => match x with pat => c2 end))
  (at level 61, pat pattern, c1 at next level, right associativity).

(** The [random] functions with the errors they raise. *)
Definition sample (population : list nat) (k : nat) : M (list nat) :=
  if Nat.ltb (length population) k then raise ValueError
  else lift (random_sample population k).

Definition sum_weights (weights : list Q) : Q := fold_left Qplus weights 0.

Definition choices (population : list nat) (weights : list Q) : M nat :=
  match population with
  | [] => raise IndexError
  | _ =>
      if Qle_bool (sum_weights weights) 0 then raise ValueError
      else lift (random_choices population weights)
  end.

Definition choice {A : Type} (l : list A) : M A :=
  match l with
  | [] => raise IndexError
  | d :: _ => i <- lift (randbelow (length l)) ;; ret (nth i l d)
  end.

(** *** [PhilosopherAgent.compute_reactivity] *)
Definition compute_reactivity (a : PhilosopherAgent) (history : list Message) : M Q :=
  match history with
  | [] => ret 0
  | _ =>
      jitter <- lift (random_uniform 0 0.15) ;;
      ret (Py.min (raw_reactivity a history + jitter) 1)
  end.

(** [should_respond] *)
Definition should_respond (a : PhilosopherAgent) (history : list Message) : M bool :=
  if (0 <? cooldown a)%Z then ret false
  else
    reactivity <- compute_reactivity a history ;;
    ret (Qle_bool (reactivity_threshold a) reactivity).

(** The text extracted from a reply in [reflect]. *)
Definition reflection_text (r : Reply) : string :=
  match r with
  | ReplyDict (Some s) => s
  | ReplyDict None => "None"
  | ReplyStr s => s
  | ReplyOther s => s
  end.

Definition reflection_prompt (a : PhilosopherAgent) (transcript : string) : string :=
  Py.newline ++ indent8 ++ "As " ++ name a ++ ", a " ++ philosophy a ++
  " philosopher, reflect on this debate transcript." ++ Py.newline ++ indent8 ++
  "Consider:" ++ Py.newline ++ indent8 ++
  "1. How well did your philosophical position hold up?" ++ Py.newline ++ indent8 ++
  "2. What new insights emerged from the discussion?" ++ Py.newline ++ indent8 ++
  "3. Where might you adjust or strengthen your arguments?" ++ Py.newline ++ indent8 ++
  "4. What did you learn from the other philosophical perspectives?" ++ Py.newline ++
  indent8 ++ Py.newline ++ indent8 ++
  "Recent debate transcript:" ++ Py.newline ++ indent8 ++
  Py.str_last_n 800 transcript ++ Py.newline ++ indent8 ++ Py.newline ++ indent8 ++
  "Provide a thoughtful reflection on the debate from your philosophical perspective."
  ++ Py.newline ++ indent8.

Definition fallback_reflection (a : PhilosopherAgent) : string :=
  name a ++ " reflects: This debate highlighted the importance of " ++ philosophy a ++
  " principles in addressing complex moral questions. The exchange of ideas has been valuable for understanding different ethical frameworks.".

(** *** [PhilosopherAgent.reflect]; [shared_history] is the list the
    agent's [chat_history] attribute aliases. *)
Definition reflect (a : PhilosopherAgent) (shared_history : list Message)
    (transcript : string) : M (string * PhilosopherAgent) :=
  let a := _apply_belief_decay a in
  let prompt :=
    generate_memory_influenced_prompt a shared_history (reflection_prompt a transcript) in
  try_except
    (response <- generate_reply a prompt ;;
     let text := reflection_text response in
     let a := _check_belief_drift a in
     ret (name a ++ " reflects: " ++ text, a))
    (fun _ => ret (fallback_reflection a, a)).

(** *** [DebateOrchestrator.start_debate] *)
Definition opening_message (o : DebateOrchestrator) (topic : string) : string :=
  Py.newline ++ indent8 ++ "Welcome to our philosophical debate on: " ++
  Py.dquote ++ topic ++ Py.dquote ++ Py.newline ++ indent8 ++ Py.newline ++ indent8 ++
  "We have " ++ Py.str_int (Z.of_nat (length (agents o))) ++
  " distinguished philosophers joining us today:" ++ Py.newline ++ indent8 ++
  Py.join ", " (map (fun a => name a ++ " (" ++ philosophy a ++ ")") (agents o)) ++
  Py.newline ++ indent8 ++ Py.newline ++ indent8 ++
  "Let us begin with opening statements." ++ Py.newline ++ indent8.

Definition start_debate (o : DebateOrchestrator) (topic : string)
    : string * DebateOrchestrator :=
  let o :=
    {| orch_name := orch_name o;
       agents := map (fun a => with_cooldown a 0%Z) (agents o);
       chat_history := [];
       current_topic := Some topic; round_count := 0%Z;
       max_rounds := max_rounds o; debate_active := true;
       speakers_per_round := speakers_per_round o |} in
  let text := opening_message o topic in
  (text,
   with_history o
     (chat_history o ++
      [ {| speaker := orch_name o; content := text; round := round_count o;
           msg_philosophy := None |} ])).

(** *** [collect_intent_to_speak]: the agents from position [i] on. *)
Fixpoint collect_from (history : list Message) (i : nat) (roster : list PhilosopherAgent)
    : M (list (nat * Q) * list PhilosopherAgent) :=
  match roster with
  | [] => ret ([], [])
  | a :: rest =>
      reactivity_score <- compute_reactivity a history ;;
      if (cooldown a =? 0)%Z then
        '(scores, rest') <- collect_from history (S i) rest ;;
        ret ((i, reactivity_score) :: scores, a :: rest')
      else
        '(scores, rest') <- collect_from history (S i) rest ;;
        ret (scores, reduce_cooldown a :: rest')
  end.

Definition collect_intent_to_speak (o : DebateOrchestrator)
    : M (list (nat * Q) * DebateOrchestrator) :=
  '(intent_scores, roster) <- collect_from (chat_history o) 0 (agents o) ;;
  ret (intent_scores, with_agents o roster).

(** *** [select_speakers]; the loop of weighted draws first. *)
Fixpoint weighted_draws (n : nat) (remaining_candidates : list (nat * Q))
    (selected : list nat) : M (list nat) :=
  match n with
  | O => ret selected
  | S n' =>
      match remaining_candidates with
      | [] => ret selected
      | _ =>
          let population := map fst remaining_candidates in
          let weights := map (fun c => snd c + 0.1) remaining_candidates in
          chosen_agent <- choices population weights ;;
          weighted_draws n'
            (filter (fun c => negb (Nat.eqb (fst c) chosen_agent)) remaining_candidates)
            (selected ++ [chosen_agent])
      end
  end.

(** The list [intent_scores] is sorted in place: the sorted list is returned
    next to the selection. *)
Definition select_speakers (o : DebateOrchestrator) (intent_scores : list (nat * Q))
    : M (list nat * list (nat * Q)) :=
  match intent_scores with
  | [] => ret ([], [])
  | _ =>
      let intent_scores := sorted_desc snd intent_scores in
      let num_speakers := Nat.min (speakers_per_round o) (length intent_scores) in
      if Nat.leb num_speakers (length intent_scores) then
        let top_candidates :=
          firstn (Nat.min (num_speakers * 2) (length intent_scores)) intent_scores in
        let weights := map snd top_candidates in
        if Qeq_bool (sum_weights weights) 0 then
          selected <- sample (map fst top_candidates) num_speakers ;;
          ret (selected, intent_scores)
        else
          selected <- weighted_draws num_speakers top_candidates [] ;;
          ret (selected, intent_scores)
      else ret (map fst intent_scores, intent_scores)
  end.

(** *** [generate_agent_responses] *)
Definition indent12 : string := "            ".

Definition base_prompt (o : DebateOrchestrator) (a : PhilosopherAgent) : string :=
  Py.newline ++ indent12 ++ "Current debate topic: " ++ topic_text (current_topic o) ++
  Py.newline ++ indent12 ++ Py.newline ++ indent12 ++
  "Recent conversation:" ++ Py.newline ++ indent12 ++
  Py.join Py.newline (map transcript_line (Py.last_n 3 (chat_history o))) ++
  Py.newline ++ indent12 ++ Py.newline ++ indent12 ++
  "As " ++ name a ++ ", representing " ++ philosophy a ++
  ", please provide your philosophical perspective on this discussion. " ++
  Py.newline ++ indent12 ++
  "Stay true to your philosophical framework and engage directly with the points raised."
  ++ Py.newline ++ indent12.

(** The text taken from a reply; [startswith] on a missing text raises. *)
Definition response_text (r : Reply) : M string :=
  match r with
  | ReplyDict (Some s) => ret s
  | ReplyDict None => raise AttributeError
  | ReplyStr s => ret s
  | ReplyOther s => ret s
  end.

Definition fallback_response (o : DebateOrchestrator) (a : PhilosopherAgent) : string :=
  name a ++ ": " ++ get_philosophical_stance a (topic_text (current_topic o)).

(** The body of the loop, for one speaker. *)
Definition respond (o : DebateOrchestrator) (a : PhilosopherAgent) : M string :=
  let prompt := generate_memory_influenced_prompt a (chat_history o) (base_prompt o a) in
  try_except
    (response <- generate_reply a prompt ;;
     text <- response_text response ;;
     ret (if Py.startswith text (name a) then text else name a ++ ": " ++ text))
    (fun _ => ret (fallback_response o a)).

(** A position outside the roster denotes no agent and is passed over. *)
Fixpoint generate_agent_responses (o : DebateOrchestrator) (speakers : list nat)
    : M (list (nat * string) * DebateOrchestrator) :=
  match speakers with
  | [] => ret ([], o)
  | i :: rest =>
      match nth_error (agents o) i with
      | None => generate_agent_responses o rest
      | Some a =>
          let a := with_chat_history a in
          let o := with_agents o (map_at i (fun _ => a) (agents o)) in
          text <- respond o a ;;
          '(responses, o') <- generate_agent_responses o rest ;;
          ret ((i, text) :: responses, o')
      end
  end.

(** *** [update_memory_and_reflection] *)
Definition append_response (o : DebateOrchestrator) (r : nat * string) : DebateOrchestrator :=
  match nth_error (agents o) (fst r) with
  | None => o
  | Some a =>
      let o :=
        with_history o
          (chat_history o ++
           [ {| speaker := name a; content := snd r; round := round_count o;
                msg_philosophy := Some (philosophy a) |} ]) in
      with_agents o (map_at (fst r) (fun a => set_cooldown a 2%Z) (agents o))
  end.

Definition remember_response (o : DebateOrchestrator) (r : nat * string) : DebateOrchestrator :=
  match nth_error (agents o) (fst r) with
  | None => o
  | Some speaking_agent =>
      with_agents o
        (map_except (fst r)
           (fun a => update_memory a (snd r) (_calculate_message_importance (snd r) a)
                                   (Some (philosophy speaking_agent)))
           (agents o))
  end.

Definition update_memory_and_reflection (o : DebateOrchestrator)
    (responses : list (nat * string)) : DebateOrchestrator :=
  let o := fold_left append_response responses o in
  fold_left remember_response responses o.

(** *** [should_continue_debate] *)
Definition should_continue_debate (o : DebateOrchestrator) : M (bool * DebateOrchestrator) :=
  if (max_rounds o <=? round_count o)%Z then ret (false, o)
  else if negb (debate_active o) then ret (false, o)
  else
    '(intent_scores, o) <- collect_intent_to_speak o ;;
    let engaged_agents := length (filter (fun c => Py.Qltb 0.1 (snd c)) intent_scores) in
    ret (Nat.ltb 0 engaged_agents, o).

(** *** [generate_moderator_intervention] *)
Definition generate_moderator_intervention (o : DebateOrchestrator) : M string :=
  a <- choice (agents o) ;;
  choice
    [ "Let's hear from a different philosophical perspective. How might " ++
        philosophy a ++ " approach this?";
      "Can someone provide a concrete example to illustrate this point?";
      "I notice we have some disagreement here. Can we identify the core issue?";
      "How might we find common ground between these positions?";
      "What are the practical implications of this philosophical stance?";
      "We're " ++ Py.str_int (round_count o) ++ " rounds into our discussion of '" ++
        topic_text (current_topic o) ++ "'. What new insights have emerged?" ].

(** *** [end_debate] *)
Fixpoint reflect_all (history : list Message) (transcript : string)
    (roster : list PhilosopherAgent) (reflections : list (string * string))
    : M (list (string * string) * list PhilosopherAgent) :=
  match roster with
  | [] => ret (reflections, [])
  | a :: rest =>
      '(text, a') <- reflect a history transcript ;;
      '(reflections, rest') <- reflect_all history transcript rest
                                 (dict_set (name a) text reflections) ;;
      ret (reflections, a' :: rest')
  end.

Definition end_debate (o : DebateOrchestrator) : M (Summary * DebateOrchestrator) :=
  let o := with_active o false in
  let transcript := Py.join Py.newline (map transcript_line (chat_history o)) in
  '(reflections, roster) <- reflect_all (chat_history o) transcript (agents o) [] ;;
  ret ({| sum_topic := current_topic o;
          sum_rounds := round_count o;
          sum_participants := map (fun a => (name a, philosophy a)) (agents o);
          sum_total_messages := length (chat_history o);
          sum_chat_history := chat_history o;
          sum_reflections := reflections |},
       with_agents o roster).

(** *** [run_debate_round] *)
Definition speaker_names (o : DebateOrchestrator) (selected : list nat) : list string :=
  flat_map (fun i => match nth_error (agents o) i with
                     | Some a => [name a]
                     | None => []
                     end) selected.

Definition conclude (o : DebateOrchestrator) : M (RoundOutcome * DebateOrchestrator) :=
  '(summary, o) <- end_debate o ;;
  ret (Ended summary, o).

Definition maybe_intervene (o : DebateOrchestrator) : M DebateOrchestrator :=
  r <- lift random_random ;;
  if Py.Qltb r 0.3 then
    moderator_comment <- generate_moderator_intervention o ;;
    ret (with_history o
           (chat_history o ++
            [ {| speaker := orch_name o; content := moderator_comment;
                 round := round_count o; msg_philosophy := None |} ]))
  else ret o.

Definition run_debate_round (o : DebateOrchestrator) : M (RoundOutcome * DebateOrchestrator) :=
  '(go, o) <- should_continue_debate o ;;
  if negb go then conclude o
  else
    let o := with_round_count o (round_count o + 1)%Z in
    '(intent_scores, o) <- collect_intent_to_speak o ;;
    match intent_scores with
    | [] => conclude o
    | _ =>
        '(selected_speakers, intent_scores) <- select_speakers o intent_scores ;;
        match selected_speakers with
        | [] => conclude o
        | _ =>
            '(responses, o) <- generate_agent_responses o selected_speakers ;;
            let o := update_memory_and_reflection o responses in
            o <- maybe_intervene o ;;
            '(continue, o') <- should_continue_debate o ;;
            ret (Played {| res_round := round_count o;
                           res_speakers := speaker_names o selected_speakers;
                           res_responses := responses;
                           res_intent_scores := intent_scores;
                           res_continue := continue |},
                 o')
        end
    end.

(** *** [main.py]: [create_philosophers] and the loop of [run_debate] *)
Definition create_philosophers : list PhilosopherAgent :=
  [ new_agent "Kant" "deontology" (get_prompt "kant")
      ["Defend universal moral principles"; "Emphasize duty over consequences"];
    new_agent "Mill" "consequentialism" (get_prompt "mill")
      ["Maximize overall happiness"; "Focus on practical outcomes"];
    new_agent "Confucian_Sage" "confucian" (get_prompt "confucian")
      ["Promote social harmony"; "Emphasize virtue and proper relationships"];
    new_agent "Existentialist" "existentialist" (get_prompt "existentialist")
      ["Defend radical freedom"; "Challenge imposed moral systems"];
    new_agent "Santideva" "buddhist" (get_prompt "santideva")
      ["Reduce suffering for all beings"; "Promote compassion and non-attachment"] ].

(** [while orchestrator.should_continue_debate() and round_count < max_rounds];
    the counter grows with every turn, so [max_rounds] turns of fuel reach
    the exit. *)
Fixpoint debate_loop (fuel : nat) (count limit : Z) (o : DebateOrchestrator)
    : M DebateOrchestrator :=
  '(go, o) <- should_continue_debate o ;;
  if (go && (count <? limit)%Z)%bool then
    match fuel with
    | O => ret o
    | S fuel' =>
        '(outcome, o) <- run_debate_round o ;;
        match outcome with
        | Played result =>
            if res_continue result then debate_loop fuel' (count + 1)%Z limit o
            else ret o
        | Ended _ => debate_loop fuel' (count + 1)%Z limit o
        end
    end
  else ret o.

Definition run_debate (topic : string) (limit : Z) : M (Summary * DebateOrchestrator) :=
  let o :=
    {| orch_name := "Moderator"; agents := create_philosophers; chat_history := [];
       current_topic := None; round_count := 0%Z; max_rounds := limit;
       debate_active := false; speakers_per_round := 2%nat |} in
  let o := snd (start_debate o topic) in
  o <- debate_loop (Z.to_nat limit) 0%Z limit o ;;
  end_debate o.

(** [run_debate] in full: the configuration is set up first, inside the
    [try] whose handler re-raises what it catches. *)
Definition run_debate_with_key (api_key : option string) (topic : string) (limit : Z)
    : M (Summary * DebateOrchestrator) :=
  try_except
    (match setup_llm_config api_key with
     | Raise e => raise e
     | Ok llm_config => run_debate topic limit
     end)
    (fun e => raise e).

(** *** [test_memory_system.py]: [create_test_philosophers] and
    [run_test_debate], which here hands back the summary it prints from and
    the final state. *)
Definition create_test_philosophers : list PhilosopherAgent :=
  [ with_belief_drift_threshold
      (new_agent "Kant" "deontology" (get_prompt "kant")
         ["Defend universal moral principles"; "Emphasize duty over consequences"]) 0.5;
    with_belief_drift_threshold
      (new_agent "Mill" "consequentialism" (get_prompt "mill")
         ["Maximize overall happiness"; "Focus on practical outcomes"]) 0.5;
    with_belief_drift_threshold
      (new_agent "Confucian_Sage" "confucian" (get_prompt "confucian")
         ["Promote social harmony"; "Emphasize virtue and proper relationships"]) 0.5 ].

(** [while orchestrator.should_continue_debate() and
    round_count < orchestrator.max_rounds]: the result of the round is only
    printed, and the counter grows with every turn. *)
Fixpoint test_loop (fuel : nat) (count : Z) (o : DebateOrchestrator)
    : M DebateOrchestrator :=
  '(go, o) <- should_continue_debate o ;;
  if (go && (count <? max_rounds o)%Z)%bool then
    match fuel with
    | O => ret o
    | S fuel' =>
        '(_, o) <- run_debate_round o ;;
        test_loop fuel' (count + 1)%Z o
    end
  else ret o.

Definition run_test_debate (api_key : option string) : M (Summary * DebateOrchestrator) :=
  match setup_test_llm_config api_key with
  | Raise e => raise e
  | Ok llm_config =>
      let o :=
        {| orch_name := "Moderator"; agents := create_test_philosophers;
           chat_history := []; current_topic := None; round_count := 0%Z;
           max_rounds := 6%Z; debate_active := false; speakers_per_round := 2%nat |} in
      let o :=
        snd (start_debate o
               "How should we balance individual rights with collective welfare during a crisis?") in
      o <- test_loop 6 0%Z o ;;
      end_debate o
  end.

(* ================================================================== *)
(** ** Notions used to state the properties *)

Definition Qsum (l : list Q) : Q := fold_right Qplus 0 l.

(** The lowercase white-space tokens of the last three transcript entries. *)
Definition recent_tokens (history : list Message) : list string :=
  flat_map (fun msg => Py.split (Py.lower (content msg))) (Py.last_n 3 history).

Definition memory_tokens (m : MemoryEntry) : list string :=
  Py.split (Py.lower (mem_content m)).


(** What the transcript entries alone add to the reactivity. *)
Definition transcript_score (a : PhilosopherAgent) (history : list Message) : Q :=
  fold_left (message_reactivity a (Py.get philosophy_keywords (Py.lower (philosophy a)) []))
            (Py.last_n 3 history) 0.


(** The bounds every stored entry is to respect, with the age kept
    non-negative, and the store with its capacity. *)
Definition entry_ok (m : MemoryEntry) : Prop :=
  0 < importance m /\ importance m <= 1 /\
  -1 <= opinion_weight m /\ opinion_weight m <= 1 /\ (0 <= decay_rounds m)%Z.

Definition store_ok (l : list MemoryEntry) : Prop :=
  Forall entry_ok l /\ (length l <= 15)%nat.

(** The entry [update_memory] appends, and the entries that pass
    [_clean_decayed_memories] right after. *)
Definition recorded_entry (a : PhilosopherAgent) (message : string)
    (importance_score : Q) (speaker_phil : option string) : MemoryEntry :=
  {| mem_content := message; importance := importance_score;
     opinion_weight := _calculate_opinion_weight a message speaker_phil;
     timestamp := length (memory a); decay_rounds := 0%Z;
     speaker_philosophy := speaker_phil |}.

Definition record_candidates (a : PhilosopherAgent) (message : string)
    (importance_score : Q) (speaker_phil : option string) : list MemoryEntry :=
  filter (fun m => Py.Qltb 0.2 (importance m))
         (memory a ++ [recorded_entry a message importance_score speaker_phil]).

(** The origin persona under which [_check_belief_drift] files an entry. *)
Definition origin_persona (m : MemoryEntry) : option string :=
  match speaker_philosophy m with
  | Some p => if Py.is_empty p then None else Some (Py.lower p)
  | None => None
  end.

Definition has_origin (persona : string) (m : MemoryEntry) : bool :=
  match origin_persona m with
  | Some p => String.eqb persona p
  | None => false
  end.

(** The sum of opinion weight * importance over the entries of one origin. *)
Definition persona_sum (l : list MemoryEntry) (persona : string) : Q :=
  Qsum (map (fun m => opinion_weight m * importance m) (filter (has_origin persona) l)).

(** The modifiers a drift check applies, in the order it applies them. *)
Definition applied_modifiers (a : PhilosopherAgent) : list (string * Q) :=
  filter (drifts a) (philosophy_scores a).

(** The origin personas of the entries of a store, entry by entry, and a
    list of personas reduced to the first occurrence of each. *)
Definition origins (l : list MemoryEntry) : list string :=
  flat_map (fun m => match origin_persona m with
                     | Some p => [p]
                     | None => []
                     end) l.

Fixpoint first_occurrences (l : list string) : list string :=
  match l with
  | [] => []
  | p :: rest => p :: filter (fun q => negb (String.eqb q p)) (first_occurrences rest)
  end.

(** What one pass of [collect_intent_to_speak] does to an agent, and the
    positions it reports, counted from [i]. *)
Definition cool_down (a : PhilosopherAgent) : PhilosopherAgent :=
  if (cooldown a =? 0)%Z then a else reduce_cooldown a.

Fixpoint eligible_from (i : nat) (roster : list PhilosopherAgent) : list nat :=
  match roster with
  | [] => []
  | a :: rest =>
      if (cooldown a =? 0)%Z then i :: eligible_from (S i) rest
      else eligible_from (S i) rest
  end.

(** Selection as the specification words it: sort the candidates by score,
    descending; the pool is the top [min(2k, n)]; if the pool weights sum to
    zero draw [k] participants from the pool uniformly without replacement;
    otherwise make [k] weighted draws, each with weight [score + 0.1] for
    every candidate still in the pool, removing the drawn candidate before
    the next draw; when the pool is exhausted first, fewer than [k] speakers
    come out.  Without candidates there is nothing to draw. *)
Fixpoint spec_weighted_draws (k : nat) (pool : list (nat * Q)) : M (list nat) :=
  match k with
  | O => ret []
  | S k' =>
      match pool with
      | [] => ret []
      | _ =>
          drawn <- choices (map fst pool) (map (fun c => snd c + 0.1) pool) ;;
          rest <- spec_weighted_draws k'
                    (filter (fun c => negb (Nat.eqb (fst c) drawn)) pool) ;;
          ret (drawn :: rest)
      end
  end.

Definition spec_uniform_draws (k : nat) (pool : list (nat * Q)) : M (list nat) :=
  sample (map fst pool) (Nat.min k (length pool)).

Definition spec_select (scores : list (nat * Q)) (k : nat) : M (list nat) :=
  match scores with
  | [] => ret []
  | _ =>
      let n := length scores in
      let pool := firstn (Nat.min (2 * k) n) (sorted_desc snd scores) in
      if Qeq_bool (sum_weights (map snd pool)) 0
      then spec_uniform_draws k pool
      else spec_weighted_draws k pool
  end.

(** The updates the orchestrator and [reflect] make to an agent, each named
    after the place that makes it; [evolves a b] when [b] comes from [a] by a
    sequence of them. *)
Inductive evolves (a : PhilosopherAgent) : PhilosopherAgent -> Prop :=
| evolves_refl : evolves a a
| evolves_start_debate b : evolves a b -> evolves a (with_cooldown b 0%Z)
| evolves_collect b : evolves a b -> evolves a (reduce_cooldown b)
| evolves_selected b : evolves a b -> evolves a (with_chat_history b)
| evolves_spoke b : evolves a b -> evolves a (set_cooldown b 2%Z)
| evolves_heard b message speaker_phil :
    evolves a b ->
    evolves a (update_memory b message (_calculate_message_importance message b)
                             speaker_phil)
| evolves_decay b : evolves a b -> evolves a (_apply_belief_decay b)
| evolves_drift b : evolves a b -> evolves a (_check_belief_drift b).

(** What [update_memory_and_reflection] appends to the transcript for one
    response, and what it makes the agent at position [j] of the roster
    remember of it; a response whose position is outside the roster has no
    effect. *)
Definition transcript_entry (o : DebateOrchestrator) (r : nat * string) : list Message :=
  match nth_error (agents o) (fst r) with
  | Some a => [ {| speaker := name a; content := snd r; round := round_count o;
                   msg_philosophy := Some (philosophy a) |} ]
  | None => []
  end.

Definition hears (o : DebateOrchestrator) (j : nat) (a : PhilosopherAgent)
    (r : nat * string) : PhilosopherAgent :=
  match nth_error (agents o) (fst r) with
  | Some speaking_agent =>
      if Nat.eqb (fst r) j then a
      else update_memory a (snd r) (_calculate_message_importance (snd r) a)
                         (Some (philosophy speaking_agent))
  | None => a
  end.

(** [follows o o']: the state [o'] comes after [o] in a debate.  The agents
    have changed by the updates above only, the settings are the same, the
    round counter has not gone down and has not passed [max_rounds] unless
    it had before, and the transcript has only grown, by at most
    [speakers_per_round + 1] entries for each round counted. *)
Definition follows (o o' : DebateOrchestrator) : Prop :=
  Forall2 evolves (agents o) (agents o')
  /\ max_rounds o' = max_rounds o
  /\ speakers_per_round o' = speakers_per_round o
  /\ current_topic o' = current_topic o
  /\ orch_name o' = orch_name o
  /\ (round_count o <= round_count o')%Z
  /\ (round_count o' <= Z.max (round_count o) (max_rounds o))%Z
  /\ exists said : list Message,
       chat_history o' = (chat_history o ++ said)%list
       /\ (length said
           <= (speakers_per_round o + 1) * Z.to_nat (round_count o' - round_count o))%nat.

End Debate.

(* ================================================================== *)
(** ** A scripted outside world, for running the model on examples

    The world counts the calls made to it.  The random generator is
    scripted: [uniform] returns the middle of its range, [random] returns
    1/2, [sample] the first [k] elements, [choices] the first element and
    [below] 0.  The language model is either down (every call raises) or
    answers with a fixed sentence. *)

Module Script.

Definition Calls : Type := nat.

Definition uniform (a b : Q) (w : Calls) : Q * Calls := ((a + b) * (1 # 2), S w).

Definition random (w : Calls) : Q * Calls := (1 # 2, S w).

Definition sample (population : list nat) (k : nat) (w : Calls) : list nat * Calls :=
  (firstn k population, S w).

Definition choices (population : list nat) (weights : list Q) (w : Calls) : nat * Calls :=
  (hd 0%nat population, S w).

Definition below (n : nat) (w : Calls) : nat * Calls := (0%nat, S w).

Definition model_down (a : PhilosopherAgent) (prompt : string) (w : Calls)
    : Res Reply * Calls :=
  (Raise (Exception "connection refused"), S w).

Definition model_up (a : PhilosopherAgent) (prompt : string) (w : Calls)
    : Res Reply * Calls :=
  (Ok (ReplyStr "I disagree: duty and virtue matter more than any outcome."), S w).

Definition prompts (philosopher_name : string) : string :=
  "You are a philosopher engaging in ethical debate.".

(** The outside world with the language model down, and with it up. *)
Definition down : Outside :=
  {| World := Calls;
     random_uniform := uniform;
     random_random := random;
     random_sample := sample;
     random_choices := choices;
     randbelow := below;
     generate_reply := model_down;
     get_prompt := prompts |}.

Definition up : Outside :=
  {| World := Calls;
     random_uniform := uniform;
     random_random := random;
     random_sample := sample;
     random_choices := choices;
     randbelow := below;
     generate_reply := model_up;
     get_prompt := prompts |}.

(** Three of the philosophers of [create_philosophers]. *)
Definition kant : PhilosopherAgent :=
  new_agent "Kant" "deontology" (prompts "kant")
    ["Defend universal moral principles"; "Emphasize duty over consequences"].

Definition mill : PhilosopherAgent :=
  new_agent "Mill" "consequentialism" (prompts "mill")
    ["Maximize overall happiness"; "Focus on practical outcomes"].

Definition existentialist : PhilosopherAgent :=
  new_agent "Existentialist" "existentialist" (prompts "existentialist")
    ["Defend radical freedom"; "Challenge imposed moral systems"].

Definition panel : DebateOrchestrator :=
  add_agent (add_agent (add_agent new_orchestrator kant) mill) existentialist.

Definition opened : DebateOrchestrator :=
  snd (start_debate panel "Is it ever morally permissible to lie?").

(** The opened debate after one round and after two, with the language
    model down. *)
Definition play (o : DebateOrchestrator) (w : Calls)
    : Res (RoundOutcome * DebateOrchestrator) * Calls :=
  run_debate_round (outside := down) o w.

Definition state_after (x : Res (RoundOutcome * DebateOrchestrator) * Calls)
    : DebateOrchestrator :=
  match fst x with
  | Ok (_, o) => o
  | Raise _ => new_orchestrator
  end.

Definition played (x : Res (RoundOutcome * DebateOrchestrator) * Calls)
    : option RoundResult :=
  match fst x with
  | Ok (Played r, _) => Some r
  | _ => None
  end.

Definition after_round_1 : DebateOrchestrator := state_after (play opened 0%nat).

Definition after_round_2 : DebateOrchestrator := state_after (play after_round_1 100%nat).

(** The ages of all memory entries, agent by agent. *)
Definition ages (o : DebateOrchestrator) : list (list Z) :=
  map (fun a => map decay_rounds (memory a)) (agents o).

(** Kant with one memory recorded at importance 0.21. *)
Definition kant_with_faded_memory : PhilosopherAgent :=
  update_memory kant "The outcome decides." 0.21 (Some "consequentialism").

(** Kant after hearing two statements he agrees with, one by Mill and one
    by Santideva, recorded as the orchestrator records them. *)
Definition praise_by_mill : string :=
  "Is duty under a universal law, the categorical imperative, not the moral principle of deontology?".

Definition praise_by_santideva : string :=
  "Is duty under the categorical imperative, a moral principle of deontology, not compassion?".

Definition kant_persuaded : PhilosopherAgent :=
  let a := update_memory kant praise_by_mill
             (_calculate_message_importance praise_by_mill kant)
             (Some "consequentialism") in
  update_memory a praise_by_santideva
    (_calculate_message_importance praise_by_santideva a) (Some "buddhist").

(** A transcript with one entry, by Mill, naming Kant. *)
Definition addressed_to_kant : list Message :=
  [ {| speaker := "Mill"; content := "Kant, your duty is clear."; round := 1%Z;
       msg_philosophy := Some "consequentialism" |} ].

(** Kant with a full store: fifteen memories of the same strong statement. *)
Definition kant_with_full_store : PhilosopherAgent :=
  Nat.iter 15 (fun a => update_memory a "Duty binds us all." 1 None) kant.

(** A debate between Kant and Mill alone, opened. *)
Definition duo : DebateOrchestrator :=
  snd (start_debate (add_agent (add_agent new_orchestrator kant) mill)
         "Is it ever morally permissible to lie?").

End Script.

(* ================================================================== *)
(** ** Properties *)

Section Properties.

Context {outside : Outside}.

Set Default Proof Using "Type".

(** *** Comparisons and clamping *)

Lemma Qltb_true (x y : Q) : Py.Qltb x y = true <-> x < y.
Proof.
  unfold Py.Qltb. rewrite negb_true_iff. split; intro H.
  - apply Qnot_le_lt. intro L. apply Qle_bool_iff in L. congruence.
  - destruct (Qle_bool y x) eqn:E; [|reflexivity].
    apply Qle_bool_iff in E. exfalso. apply (Qlt_not_le _ _ H E).
Qed.

Lemma Qltb_false (x y : Q) : Py.Qltb x y = false <-> y <= x.
Proof.
  unfold Py.Qltb. rewrite negb_false_iff. apply Qle_bool_iff.
Qed.

Lemma py_min_le_r (x y : Q) : Py.min x y <= y.
Proof.
  unfold Py.min. destruct (Py.Qltb y x) eqn:E.
  - apply Qle_refl.
  - apply Qltb_false in E. exact E.
Qed.

Lemma py_min_le_l (x y : Q) : Py.min x y <= x.
Proof.
  unfold Py.min. destruct (Py.Qltb y x) eqn:E.
  - apply Qltb_true in E. apply Qlt_le_weak. exact E.
  - apply Qle_refl.
Qed.

Lemma py_min_glb (x y z : Q) : z <= x -> z <= y -> z <= Py.min x y.
Proof.
  intros Hx Hy. unfold Py.min. destruct (Py.Qltb y x); assumption.
Qed.

Lemma py_max_le_l (x y : Q) : x <= Py.max x y.
Proof.
  unfold Py.max. destruct (Py.Qltb x y) eqn:E.
  - apply Qltb_true in E. apply Qlt_le_weak. exact E.
  - apply Qle_refl.
Qed.

Lemma py_max_lub (x y z : Q) : x <= z -> y <= z -> Py.max x y <= z.
Proof.
  intros Hx Hy. unfold Py.max. destruct (Py.Qltb x y); assumption.
Qed.

(** *** Reactivity is never negative before the jitter *)

Lemma message_reactivity_grows (a : PhilosopherAgent) (keywords : list string)
    (score : Q) (m : Message) :
  score <= message_reactivity a keywords score m.
Proof.
  unfold message_reactivity.
  destruct (String.eqb (speaker m) (name a)); [apply Qle_refl|].
  repeat match goal with
         | |- context [if ?b then _ else _] => destruct b
         end; lra.
Qed.

Lemma fold_message_reactivity_grows (a : PhilosopherAgent) (keywords : list string)
    (l : list Message) (score : Q) :
  score <= fold_left (message_reactivity a keywords) l score.
Proof.
  revert score. induction l as [|m l IH]; intro score; simpl.
  - apply Qle_refl.
  - eapply Qle_trans; [apply (message_reactivity_grows a keywords score m)|apply IH].
Qed.

Lemma fold_memory_grows (l : list MemoryEntry) (score : Q) :
  score <= fold_left (fun score m => score + Qabs (opinion_weight m) * 0.2) l score.
Proof.
  revert score. induction l as [|m l IH]; intro score; simpl.
  - apply Qle_refl.
  - eapply Qle_trans; [|apply IH].
    pose proof (Qabs_nonneg (opinion_weight m)). nra.
Qed.

Lemma raw_reactivity_nonneg (a : PhilosopherAgent) (history : list Message) :
  0 <= raw_reactivity a history.
Proof.
  unfold raw_reactivity.
  eapply Qle_trans; [|apply fold_memory_grows].
  apply fold_message_reactivity_grows.
Qed.

Section Uniform.

(** [random.uniform(a, b)] lies between its bounds. *)
Hypothesis random_uniform_range :
  forall (a b : Q) (w : World),
    a <= b -> a <= fst (random_uniform a b w) /\ fst (random_uniform a b w) <= b.

(** C3. The reactivity score of every participant on every transcript lies
    in [0,1]; on the empty transcript it is exactly 0; and scoring changes
    nothing but the random generator, from which it draws the jitter once
    (not at all on the empty transcript): it returns only a score, the agent
    and the transcript being read. *)
Theorem compute_reactivity_in_unit_interval
    (a : PhilosopherAgent) (history : list Message) (w : World) :
  (exists score : Q,
      compute_reactivity a history w =
        (Ok score,
         match history with
         | [] => w
         | _ => snd (random_uniform 0 0.15 w)
         end)
      /\ 0 <= score /\ score <= 1)
  /\ compute_reactivity a [] w = (Ok 0, w).
Proof using random_uniform_range.
  split; [|reflexivity].
  destruct history as [|m history].
  - exists 0. simpl. unfold ret. repeat split; lra.
  - unfold compute_reactivity, bind, lift, ret.
    destruct (random_uniform 0 0.15 w) as [jitter w'] eqn:E.
    eexists. split; [reflexivity|].
    destruct (random_uniform_range 0 0.15 w) as [Hlo _]; [lra|].
    rewrite E in Hlo. simpl in Hlo.
    pose proof (raw_reactivity_nonneg a (m :: history)) as Hraw.
    split.
    + apply py_min_glb; lra.
    + apply py_min_le_r.
Qed.

End Uniform.

(** *** The window of recent entries *)

Lemma last_n_length {A : Type} (n : nat) (l : list A) :
  length (Py.last_n n l) = Nat.min n (length l).
Proof. unfold Py.last_n. rewrite length_skipn. lia. Qed.

Lemma last_n_idem {A : Type} (n : nat) (l : list A) :
  Py.last_n n (Py.last_n n l) = Py.last_n n l.
Proof.
  unfold Py.last_n at 1. rewrite last_n_length.
  replace (Nat.min n (length l) - n)%nat with 0%nat by lia. reflexivity.
Qed.



(** *** Sets of tokens *)

Lemma update_In (words : list string) (s : set string) (w : string) :
  In w (Py.update s words) <-> In w s \/ In w words.
Proof.
  unfold Py.update. revert s. induction words as [|x words IH]; intro s; simpl.
  - tauto.
  - rewrite IH, set_add_iff. split.
    + intros [[H|H]|H]; [right; left; symmetry; exact H|left; exact H|right; right; exact H].
    + intros [H|[H|H]]; [left; right; exact H|left; left; symmetry; exact H|right; exact H].
Qed.

Lemma update_NoDup (words : list string) (s : set string) :
  NoDup s -> NoDup (Py.update s words).
Proof.
  unfold Py.update. revert s. induction words as [|x words IH]; intros s H; simpl.
  - exact H.
  - apply IH. apply set_add_nodup. exact H.
Qed.

Lemma to_set_In (words : list string) (w : string) :
  In w (Py.to_set words) <-> In w words.
Proof.
  change (Py.to_set words) with (Py.update (empty_set string) words).
  rewrite update_In. simpl. tauto.
Qed.

Lemma to_set_NoDup (words : list string) : NoDup (Py.to_set words).
Proof.
  change (Py.to_set words) with (Py.update (empty_set string) words).
  apply update_NoDup. constructor.
Qed.

Lemma fold_update_In (msgs : list Message) (s : set string) (w : string) :
  In w (fold_left (fun keywords msg =>
                     Py.update keywords (Py.split (Py.lower (content msg)))) msgs s)
  <-> In w s \/ In w (flat_map (fun msg => Py.split (Py.lower (content msg))) msgs).
Proof.
  revert s. induction msgs as [|x msgs IH]; intro s; simpl.
  - tauto.
  - rewrite IH, update_In, in_app_iff. tauto.
Qed.

Lemma fold_update_NoDup (msgs : list Message) (s : set string) :
  NoDup s ->
  NoDup (fold_left (fun keywords msg =>
                      Py.update keywords (Py.split (Py.lower (content msg)))) msgs s).
Proof.
  revert s. induction msgs as [|x msgs IH]; intros s H; simpl.
  - exact H.
  - apply IH. apply update_NoDup. exact H.
Qed.

Lemma recent_keywords_In (history : list Message) (w : string) :
  In w (recent_keywords (Py.last_n 3 history)) <-> In w (recent_tokens history).
Proof.
  unfold recent_keywords, recent_tokens. rewrite last_n_idem, fold_update_In.
  simpl. tauto.
Qed.

Lemma recent_keywords_NoDup (msgs : list Message) : NoDup (recent_keywords msgs).
Proof. unfold recent_keywords. apply fold_update_NoDup. constructor. Qed.




(** *** Lookups in the keyword tables *)

Lemma get_missing {V : Type} (table : list (string * V)) (tag : string) (default : V) :
  ~ In tag (Py.keys table) -> Py.get table tag default = default.
Proof.
  induction table as [|[k v] table IH]; simpl; intro H; [reflexivity|].
  destruct (String.eqb tag k) eqn:E.
  - apply String.eqb_eq in E. exfalso. apply H. left. symmetry. exact E.
  - apply IH. intro Hin. apply H. right. exact Hin.
Qed.

(** C10. A persona tag that is not a key of a keyword table silently gets
    the empty list: no trigger keyword, no challenge keyword and no agreement
    keyword is ever found for it, so they add nothing to the reactivity and
    to the opinion weight.  The trigger table has the key "existentialism"
    and not "existentialist", the challenge, agreement and opposing tables
    have "existentialist", and the agent is created with the tag
    "existentialist": for it the trigger keywords never add 0.3. *)
Theorem existentialist_trigger_keywords_never_fire :
  (forall (tag content : string) (opinion : Q),
      (~ In tag (Py.keys philosophy_keywords) ->
       Py.get philosophy_keywords tag [] = [] /\
       Py.any_in (Py.get philosophy_keywords tag []) content = false)
      /\ (~ In tag (Py.keys challenge_patterns) ->
          Py.get challenge_patterns tag [] = [] /\
          Py.any_in (Py.get challenge_patterns tag []) content = false)
      /\ (~ In tag (Py.keys agreement_patterns) ->
          Py.get agreement_patterns tag [] = [] /\
          agreement_score (Py.get agreement_patterns tag []) content opinion = opinion))
  /\ (In "existentialism" (Py.keys philosophy_keywords)
      /\ ~ In "existentialist" (Py.keys philosophy_keywords)
      /\ In "existentialist" (Py.keys challenge_patterns)
      /\ In "existentialist" (Py.keys agreement_patterns)
      /\ In "existentialist" (Py.keys opposing_philosophies))
  /\ (exists a, nth_error create_philosophers 3 = Some a
                /\ name a = "Existentialist" /\ philosophy a = "existentialist"
                /\ Py.lower (philosophy a) = "existentialist")
  /\ (forall (a : PhilosopherAgent),
         Py.lower (philosophy a) = "existentialist" ->
         forall (score : Q) (msg : Message) (history : list Message),
           Py.any_in (Py.get philosophy_keywords (Py.lower (philosophy a)) [])
                     (Py.lower (content msg)) = false
           /\ message_reactivity a (Py.get philosophy_keywords (Py.lower (philosophy a)) [])
                                 score msg
              = message_reactivity a [] score msg
           /\ transcript_score a history
              = fold_left (message_reactivity a []) (Py.last_n 3 history) 0).
Proof.
  split; [|split; [|split]].
  - intros tag content opinion. split; [|split]; intro H;
      rewrite (get_missing _ tag [] H); split; reflexivity.
  - repeat split; simpl; try tauto.
    intro H. repeat destruct H as [H|H]; try discriminate H; exact H.
  - eexists. split; [reflexivity|]. repeat split.
  - intros a Ha score msg history. rewrite Ha.
    change (Py.get philosophy_keywords "existentialist" []) with (@nil string).
    unfold transcript_score. rewrite Ha.
    change (Py.get philosophy_keywords "existentialist" []) with (@nil string).
    repeat split.
Qed.

(** *** Sorting *)

Lemma insert_desc_perm {A : Type} (key : A -> Q) (x : A) (l : list A) :
  Permutation (insert_desc key x l) (x :: l).
Proof.
  induction l as [|y l IH]; simpl; [apply Permutation_refl|].
  destruct (Qle_bool (key y) (key x)); [apply Permutation_refl|].
  eapply Permutation_trans; [apply perm_skip, IH|apply perm_swap].
Qed.

Lemma sorted_desc_perm {A : Type} (key : A -> Q) (l : list A) :
  Permutation (sorted_desc key l) l.
Proof.
  induction l as [|x l IH]; simpl; [apply Permutation_refl|].
  eapply Permutation_trans; [apply insert_desc_perm|apply perm_skip, IH].
Qed.

Lemma insert_desc_ranked {A : Type} (key : A -> Q) (x : A) (l : list A) :
  ranked key l -> ranked key (insert_desc key x l).
Proof.
  induction l as [|y l IH]; simpl; intro H.
  - split; [intros ? []|exact I].
  - destruct H as [Hy Hl].
    destruct (Qle_bool (key y) (key x)) eqn:E.
    + apply Qle_bool_iff in E. simpl. split; [|split; assumption].
      intros z [Hz|Hz]; [subst z; exact E|].
      eapply Qle_trans; [apply Hy, Hz|exact E].
    + simpl. split; [|apply IH, Hl].
      intros z Hz.
      apply (Permutation_in _ (insert_desc_perm key x l)) in Hz.
      destruct Hz as [Hz|Hz]; [subst z|apply Hy, Hz].
      destruct (Qlt_le_dec (key y) (key x)) as [Hlt|Hle]; [|exact Hle].
      apply Qlt_le_weak in Hlt. apply Qle_bool_iff in Hlt. congruence.
Qed.

Lemma sorted_desc_ranked {A : Type} (key : A -> Q) (l : list A) :
  ranked key (sorted_desc key l).
Proof.
  induction l as [|x l IH]; simpl; [exact I|].
  apply insert_desc_ranked, IH.
Qed.

Lemma ranked_split {A : Type} (key : A -> Q) (n : nat) (l : list A) :
  ranked key l ->
  forall k d, In k (firstn n l) -> In d (skipn n l) -> key d <= key k.
Proof.
  revert l. induction n as [|n IH]; intros l H k d Hk Hd; [destruct Hk|].
  destruct l as [|x l]; [destruct Hk|].
  simpl in *. destruct H as [Hx Hl]. destruct Hk as [Hk|Hk].
  - subst k. apply Hx. rewrite <- (firstn_skipn n l). apply in_or_app. right. exact Hd.
  - apply (IH l Hl k d Hk Hd).
Qed.

(** *** The memory store *)

Lemma opinion_weight_clamped (a : PhilosopherAgent) (message : string)
    (speaker_phil : option string) :
  -1 <= _calculate_opinion_weight a message speaker_phil /\
  _calculate_opinion_weight a message speaker_phil <= 1.
Proof.
  unfold _calculate_opinion_weight. cbv zeta. split.
  - apply py_max_le_l.
  - apply py_max_lub; [lra|apply py_min_le_l].
Qed.

Lemma message_importance_range (message : string) (a : PhilosopherAgent) :
  0.5 <= _calculate_message_importance message a /\
  _calculate_message_importance message a <= 1.
Proof.
  unfold _calculate_message_importance. cbv zeta. split.
  - apply py_min_glb; [|lra].
    repeat match goal with
           | |- context [if ?b then _ else _] => destruct b
           end; lra.
  - apply py_min_le_r.
Qed.

Lemma decay_entry_ok (rate : Q) (m : MemoryEntry) :
  0 <= rate -> entry_ok m -> entry_ok (decay_entry rate m).
Proof.
  intros Hrate (Hpos & Hle & Hlo & Hhi & Hage).
  unfold entry_ok, decay_entry. cbn [importance opinion_weight decay_rounds].
  assert (Hr : 0 <= inject_Z (decay_rounds m + 1)).
  { change 0 with (inject_Z 0). rewrite <- Zle_Qle. lia. }
  set (r := inject_Z (decay_rounds m + 1)) in *.
  assert (Hf1 : 0.1 <= Py.max 0.1 (1 - rate * r)) by apply py_max_le_l.
  assert (Hf2 : Py.max 0.1 (1 - rate * r) <= 1) by (apply py_max_lub; nra).
  set (f := Py.max 0.1 (1 - rate * r)) in *.
  repeat split.
  - nra.
  - nra.
  - destruct (Py.Qltb 0.1 (Qabs (opinion_weight m))); lra.
  - destruct (Py.Qltb 0.1 (Qabs (opinion_weight m))); lra.
  - lia.
Qed.

Lemma cleaned_entry_ok (l : list MemoryEntry) :
  Forall (fun m => importance m <= 1 /\ -1 <= opinion_weight m /\
                   opinion_weight m <= 1 /\ (0 <= decay_rounds m)%Z) l ->
  Forall entry_ok (filter (fun m => Py.Qltb 0.2 (importance m)) l).
Proof.
  intro H. apply Forall_forall. intros m Hm. apply filter_In in Hm.
  destruct Hm as [Hin Hkeep]. apply Qltb_true in Hkeep.
  rewrite Forall_forall in H. destruct (H m Hin) as (H1 & H2 & H3 & H4).
  unfold entry_ok. repeat split; try assumption. lra.
Qed.

Lemma update_memory_unfold (a : PhilosopherAgent) (message : string)
    (importance_score : Q) (speaker_phil : option string) :
  memory (update_memory a message importance_score speaker_phil) =
  let candidates := record_candidates a message importance_score speaker_phil in
  if Nat.ltb 15 (length candidates)
  then firstn 15 (sorted_desc memory_rank candidates)
  else candidates.
Proof.
  unfold update_memory, record_candidates, recorded_entry. cbv zeta.
  cbn [_clean_decayed_memories with_memory memory].
  match goal with |- context [if ?b then _ else _] => destruct b end; reflexivity.
Qed.

(** C4. After a [record] call the store holds at most 15 entries; when the
    entries left by the cleaning are more than 15 they are ranked by
    importance + |opinion weight|, descending, and exactly the first 15
    survive, none of them ranking below a dropped one.  The rank is written
    out in the statement.  A store whose entries have importance in (0,1] and
    opinion weight in [-1,1] and that holds at most 15 entries keeps these
    properties through a [record] call with an importance of at most 1 (as
    the orchestrator computes it) and through a decay step with a
    non-negative decay rate. *)
Theorem memory_store_invariant
    (a : PhilosopherAgent) (message : string) (importance_score : Q)
    (speaker_phil : option string) :
  let recorded := update_memory a message importance_score speaker_phil in
  let decayed := _apply_belief_decay a in
  let candidates := record_candidates a message importance_score speaker_phil in
  let rank := fun m : MemoryEntry => importance m + Qabs (opinion_weight m) in
  (length (memory recorded) <= 15)%nat
  /\ ((15 < length candidates)%nat ->
      memory recorded = firstn 15 (sorted_desc rank candidates)
      /\ length (memory recorded) = 15%nat
      /\ Permutation (memory recorded ++ skipn 15 (sorted_desc rank candidates))
                     candidates
      /\ ranked rank (sorted_desc rank candidates)
      /\ forall kept dropped,
           In kept (memory recorded) ->
           In dropped (skipn 15 (sorted_desc rank candidates)) ->
           importance dropped + Qabs (opinion_weight dropped)
           <= importance kept + Qabs (opinion_weight kept))
  /\ ((length candidates <= 15)%nat -> memory recorded = candidates)
  /\ (forall m, In m candidates <->
                (In m (memory a)
                 \/ m = recorded_entry a message importance_score speaker_phil)
                /\ 0.2 < importance m)
  /\ (forall observer,
        0.5 <= _calculate_message_importance message observer <= 1)
  /\ (store_ok (memory a) -> 0 <= memory_decay_rate a -> importance_score <= 1 ->
      store_ok (memory recorded)
      /\ store_ok (memory decayed)
      /\ length (memory decayed) = length (memory a)
      /\ memory_decay_rate recorded = memory_decay_rate a
      /\ memory_decay_rate decayed = memory_decay_rate a).
Proof.
  cbv zeta.
  change (fun m : MemoryEntry => importance m + Qabs (opinion_weight m))
    with memory_rank.
  pose proof (update_memory_unfold a message importance_score speaker_phil) as Hmem.
  cbv zeta in Hmem.
  set (candidates := record_candidates a message importance_score speaker_phil) in *.
  pose proof (sorted_desc_perm memory_rank candidates) as Hperm.
  assert (Hlen : length (sorted_desc memory_rank candidates) = length candidates)
    by (apply Permutation_length, Hperm).
  split; [|split; [|split; [|split; [|split]]]].
  - rewrite Hmem. destruct (Nat.ltb 15 (length candidates)) eqn:E.
    + rewrite length_firstn. lia.
    + apply Nat.ltb_ge in E. exact E.
  - intro Hbig. apply Nat.ltb_lt in Hbig. rewrite Hmem, Hbig.
    apply Nat.ltb_lt in Hbig.
    split; [reflexivity|]. split; [rewrite length_firstn; lia|].
    split; [rewrite firstn_skipn; exact Hperm|].
    split; [apply sorted_desc_ranked|].
    intros kept dropped Hk Hd.
    exact (ranked_split memory_rank 15 _ (sorted_desc_ranked memory_rank candidates)
             kept dropped Hk Hd).
  - intro Hsmall. rewrite Hmem.
    apply Nat.ltb_ge in Hsmall. rewrite Hsmall. reflexivity.
  - intro m. unfold candidates, record_candidates.
    rewrite filter_In, in_app_iff, Qltb_true. cbn [In].
    split; intros [H1 H2]; (split; [|exact H2]).
    + destruct H1 as [H1|[H1|[]]]; [left; exact H1|right; symmetry; exact H1].
    + destruct H1 as [H1|H1]; [left; exact H1|right; left; symmetry; exact H1].
  - intro observer. apply message_importance_range.
  - intros [Hall Hcap] Hrate Himp.
    assert (Hcand : Forall entry_ok candidates).
    { apply cleaned_entry_ok. apply Forall_app. split.
      - eapply Forall_impl; [|exact Hall].
        intros m (H1 & H2 & H3 & H4 & H5). repeat split; assumption.
      - constructor; [|constructor].
        cbn [recorded_entry importance opinion_weight decay_rounds].
        pose proof (opinion_weight_clamped a message speaker_phil) as [Hlo Hhi].
        repeat split; try assumption. lia. }
    split; [|split; [|split; [|split]]].
    + split.
      * rewrite Hmem. destruct (Nat.ltb 15 (length candidates)); [|exact Hcand].
        apply Forall_forall. intros m Hm.
        rewrite Forall_forall in Hcand. apply Hcand.
        apply (Permutation_in _ Hperm).
        rewrite <- (firstn_skipn 15 (sorted_desc memory_rank candidates)).
        apply in_or_app. left. exact Hm.
      * rewrite Hmem. destruct (Nat.ltb 15 (length candidates)) eqn:E.
        -- rewrite length_firstn. lia.
        -- apply Nat.ltb_ge in E. exact E.
    + unfold _apply_belief_decay. cbn [with_memory memory]. split.
      * apply Forall_forall. intros m Hm. apply in_map_iff in Hm.
        destruct Hm as [m0 [Heq Hm0]]. subst m.
        apply decay_entry_ok; [exact Hrate|].
        rewrite Forall_forall in Hall. apply Hall, Hm0.
      * rewrite length_map. exact Hcap.
    + unfold _apply_belief_decay. cbn [with_memory memory]. apply length_map.
    + unfold update_memory. cbv zeta.
      match goal with |- context [if ?b then _ else _] => destruct b end; reflexivity.
    + reflexivity.
Qed.

(** *** Decay *)

Lemma check_belief_drift_memory (a : PhilosopherAgent) :
  memory (_check_belief_drift a) = memory a.
Proof.
  unfold _check_belief_drift. destruct (memory a) as [|m l] eqn:E; [exact E|].
  rewrite <- E. clear E.
  generalize (philosophy_scores a) as scores. intro scores.
  assert (H : forall b, memory b = memory a ->
                memory (fold_left (fun a0 entry =>
                          if drifts a0 entry
                          then _modify_system_prompt a0 (fst entry) (snd entry)
                          else a0) scores b) = memory a).
  { induction scores as [|e scores IH]; intros b Hb; simpl; [exact Hb|].
    apply IH. destruct (drifts b e); [exact Hb|exact Hb]. }
  apply H. reflexivity.
Qed.

(** C1, as the code has it.  A decay step ([_apply_belief_decay]) increments
    the age of every entry by 1, multiplies its importance by
    max(0.1, 1 - decayRate * age) for the new age, multiplies its opinion
    weight by 0.95 when |opinion weight| > 0.1 and leaves it alone otherwise;
    it keeps every entry, in order, whatever its importance.  [reflect] makes
    exactly this step, once, before anything else it does: the prompt is
    built from the decayed agent, the language model is called once, for the
    decayed agent and with that prompt, and the agent [reflect] leaves behind
    is the decayed agent after the drift check, or the decayed agent itself
    when the call failed.  Either way its memory is the memory decayed once.
    Entries of importance <= 0.2 leave the store in [update_memory]: none of
    them is left after a [record] call. *)
Theorem decay_step_keeps_entries
    (a : PhilosopherAgent) (history : list Message) (transcript : string) (w : World) :
  let rate := memory_decay_rate a in
  let decayed := _apply_belief_decay a in
  let prompt :=
    generate_memory_influenced_prompt decayed history
      (reflection_prompt decayed transcript) in
  memory decayed = map (decay_entry rate) (memory a)
  /\ length (memory decayed) = length (memory a)
  /\ (forall m,
        decay_rounds (decay_entry rate m) = (decay_rounds m + 1)%Z
        /\ importance (decay_entry rate m) =
             importance m * Py.max 0.1 (1 - rate * inject_Z (decay_rounds m + 1))
        /\ (0.1 < Qabs (opinion_weight m) ->
            opinion_weight (decay_entry rate m) = opinion_weight m * 0.95)
        /\ (Qabs (opinion_weight m) <= 0.1 ->
            opinion_weight (decay_entry rate m) = opinion_weight m)
        /\ mem_content (decay_entry rate m) = mem_content m
        /\ speaker_philosophy (decay_entry rate m) = speaker_philosophy m)
  /\ (exists text a',
        reflect a history transcript w
        = (Ok (text, a'), snd (generate_reply decayed prompt w))
        /\ a' = match fst (generate_reply decayed prompt w) with
                | Ok _ => _check_belief_drift decayed
                | Raise _ => decayed
                end
        /\ text = match fst (generate_reply decayed prompt w) with
                  | Ok response => name a ++ " reflects: " ++ reflection_text response
                  | Raise _ => fallback_reflection a
                  end
        /\ memory a' = map (decay_entry rate) (memory a))
  /\ (forall message importance_score speaker_phil m,
        In m (memory (update_memory a message importance_score speaker_phil)) ->
        0.2 < importance m).
Proof.
  cbv zeta. split; [reflexivity|]. split; [apply length_map|].
  split; [|split].
  - intro m. unfold decay_entry. cbn [decay_rounds importance opinion_weight
                                       mem_content speaker_philosophy].
    repeat split.
    + intro H. apply Qltb_true in H. rewrite H. reflexivity.
    + intro H. apply Qltb_false in H. rewrite H. reflexivity.
  - assert (Hname : forall b, name (_check_belief_drift b) = name b).
    { intro b. unfold _check_belief_drift. destruct (memory b); [reflexivity|].
      generalize (philosophy_scores b) as scores. intro scores.
      assert (H : forall c, name c = name b ->
                name (fold_left (fun a0 entry =>
                        if drifts a0 entry
                        then _modify_system_prompt a0 (fst entry) (snd entry)
                        else a0) scores c) = name b).
      { induction scores as [|e scores IH]; intros c Hc; simpl; [exact Hc|].
        apply IH. destruct (drifts c e); exact Hc. }
      apply H. reflexivity. }
    unfold reflect, try_except, bind, ret. cbv zeta.
    destruct (generate_reply _ _ w) as [[response|e] w'] eqn:Hreply; cbn [fst snd].
    + do 2 eexists. split; [reflexivity|]. split; [reflexivity|].
      split; [rewrite Hname; reflexivity|].
      rewrite check_belief_drift_memory. reflexivity.
    + do 2 eexists. split; [reflexivity|]. split; [reflexivity|].
      split; reflexivity.
  - intros message importance_score speaker_phil m Hm.
    rewrite update_memory_unfold in Hm. cbv zeta in Hm.
    assert (Hc : In m (record_candidates a message importance_score speaker_phil)).
    { destruct (Nat.ltb 15 _); [|exact Hm].
      apply (Permutation_in _ (sorted_desc_perm memory_rank _)).
      rewrite <- (firstn_skipn 15 (sorted_desc memory_rank _)).
      apply in_or_app. left. exact Hm. }
    unfold record_candidates in Hc. apply filter_In in Hc.
    destruct Hc as [_ Hc]. apply Qltb_true in Hc. exact Hc.
Qed.

(** *** Drift *)

Lemma add_score_keys (p : string) (v : Q) (scores : list (string * Q)) :
  Py.keys (add_score p v scores) =
  if Py.mem p (Py.keys scores) then Py.keys scores else (Py.keys scores ++ [p])%list.
Proof.
  induction scores as [|[k s] scores IH]; simpl; [reflexivity|].
  destruct (String.eqb p k) eqn:E; simpl; [reflexivity|].
  rewrite IH. unfold Py.mem. destruct (existsb (String.eqb p) (Py.keys scores)); reflexivity.
Qed.

Lemma mem_In (p : string) (l : list string) : Py.mem p l = true <-> In p l.
Proof.
  unfold Py.mem. rewrite existsb_exists. split.
  - intros [x [Hx E]]. apply String.eqb_eq in E. subst x. exact Hx.
  - intro H. exists p. split; [exact H|apply String.eqb_refl].
Qed.

Lemma add_score_NoDup (p : string) (v : Q) (scores : list (string * Q)) :
  NoDup (Py.keys scores) -> NoDup (Py.keys (add_score p v scores)).
Proof.
  intro H. rewrite add_score_keys. destruct (Py.mem p (Py.keys scores)) eqn:E; [exact H|].
  apply NoDup_app; [exact H|repeat constructor; intros []|].
  intros x Hx [Hp|[]]. subst x. apply mem_In in Hx. congruence.
Qed.

Lemma add_score_get (p q : string) (v : Q) (scores : list (string * Q)) :
  Py.get (add_score p v scores) q 0 ==
  if String.eqb q p then Py.get scores q 0 + v else Py.get scores q 0.
Proof.
  induction scores as [|[k s] scores IH]; simpl.
  - destruct (String.eqb q p); lra.
  - destruct (String.eqb p k) eqn:E; simpl.
    + apply String.eqb_eq in E. subst k.
      destruct (String.eqb q p); lra.
    + destruct (String.eqb q k) eqn:E2.
      * apply String.eqb_eq in E2. subst k.
        rewrite String.eqb_sym in E. rewrite E. lra.
      * exact IH.
Qed.

Lemma get_In (scores : list (string * Q)) (p : string) (s : Q) :
  NoDup (Py.keys scores) -> In (p, s) scores -> Py.get scores p 0 = s.
Proof.
  induction scores as [|[k s'] scores IH]; simpl; intros Hnd Hin; [destruct Hin|].
  inversion Hnd as [|? ? Hk Hnd']; subst.
  destruct Hin as [Hin|Hin].
  - inversion Hin; subst. rewrite String.eqb_refl. reflexivity.
  - destruct (String.eqb p k) eqn:E.
    + apply String.eqb_eq in E. subst k. exfalso. apply Hk.
      apply (in_map fst) in Hin. exact Hin.
    + apply IH; assumption.
Qed.

Lemma score_step_spec (scores : list (string * Q)) (m : MemoryEntry) (q : string) :
  NoDup (Py.keys scores) ->
  NoDup (Py.keys (score_step scores m)) /\
  Py.get (score_step scores m) q 0 ==
    Py.get scores q 0 + persona_sum [m] q.
Proof.
  intro H. unfold score_step, persona_sum, has_origin, origin_persona. simpl.
  destruct (speaker_philosophy m) as [p|]; simpl.
  - destruct (Py.is_empty p); simpl.
    + split; [exact H|lra].
    + split; [apply add_score_NoDup, H|].
      rewrite add_score_get. destruct (String.eqb q (Py.lower p)); simpl; lra.
  - split; [exact H|lra].
Qed.

Lemma persona_sum_cons (m : MemoryEntry) (l : list MemoryEntry) (q : string) :
  persona_sum (m :: l) q == persona_sum [m] q + persona_sum l q.
Proof.
  unfold persona_sum. simpl. destruct (has_origin q m); simpl; lra.
Qed.

Lemma fold_score_step_spec (l : list MemoryEntry) (scores : list (string * Q)) (q : string) :
  NoDup (Py.keys scores) ->
  NoDup (Py.keys (fold_left score_step l scores)) /\
  Py.get (fold_left score_step l scores) q 0 == Py.get scores q 0 + persona_sum l q.
Proof.
  revert scores. induction l as [|m l IH]; intros scores H; simpl.
  - split; [exact H|]. unfold persona_sum. simpl. lra.
  - destruct (score_step_spec scores m q H) as [H1 H2].
    destruct (IH _ H1) as [H3 H4]. split; [exact H3|].
    rewrite H4, H2, (persona_sum_cons m l q). lra.
Qed.

Lemma philosophy_scores_sum (a : PhilosopherAgent) (p : string) (s : Q) :
  In (p, s) (philosophy_scores a) -> s == persona_sum (memory a) p.
Proof.
  intro Hin.
  unfold philosophy_scores in Hin.
  destruct (fold_score_step_spec (memory a) [] p) as [Hnd Hget]; [constructor|].
  rewrite (get_In _ p s Hnd Hin) in Hget. rewrite Hget. simpl. lra.
Qed.

Lemma modify_fold_message (a : PhilosopherAgent) (l : list (string * Q)) :
  forall b,
    philosophy b = philosophy a ->
    initial_system_message b = initial_system_message a ->
    system_message
      (fold_left (fun b e => _modify_system_prompt b (fst e) (snd e)) l b) =
    match rev l with
    | [] => system_message b
    | e :: _ => initial_system_message a ++ modification_prompt a (fst e) (snd e)
    end.
Proof.
  induction l as [|e l IH]; intros b Hp Hi; simpl; [reflexivity|].
  rewrite IH; [|exact Hp|exact Hi].
  destruct (rev l) as [|e' r]; simpl; [|reflexivity].
  unfold modification_prompt. rewrite Hp, Hi. reflexivity.
Qed.

Lemma drift_fold_filter (a : PhilosopherAgent) (l : list (string * Q)) :
  forall b,
    philosophy b = philosophy a ->
    belief_drift_threshold b = belief_drift_threshold a ->
    fold_left (fun b e => if drifts b e then _modify_system_prompt b (fst e) (snd e) else b)
              l b =
    fold_left (fun b e => _modify_system_prompt b (fst e) (snd e)) (filter (drifts a) l) b.
Proof.
  induction l as [|e l IH]; intros b Hp Ht; simpl; [reflexivity|].
  assert (Hd : drifts b e = drifts a e) by (unfold drifts; rewrite Hp, Ht; reflexivity).
  rewrite Hd. destruct (drifts a e); simpl; apply IH; assumption.
Qed.

(** The keys of [philosophy_scores] come in the order in which the first
    entry of each origin persona is met. *)
Lemma filter_twice {A : Type} (f g : A -> bool) (l : list A) :
  filter f (filter g l) = filter (fun x => g x && f x)%bool l.
Proof.
  induction l as [|x l IH]; [reflexivity|]. cbn [filter].
  destruct (g x); cbn [filter andb]; [destruct (f x)|]; rewrite IH; reflexivity.
Qed.

Lemma filter_nothing {A : Type} (f : A -> bool) (l : list A) :
  (forall x, f x = true) -> filter f l = l.
Proof.
  intro H. induction l as [|x l IH]; [reflexivity|].
  cbn [filter]. rewrite H, IH. reflexivity.
Qed.

Lemma keys_filter {V : Type} (f : string * V -> bool) (g : string -> bool)
    (d : list (string * V)) :
  (forall e, In e d -> f e = g (fst e)) ->
  Py.keys (filter f d) = filter g (Py.keys d).
Proof.
  unfold Py.keys. induction d as [|e d IH]; intro H; [reflexivity|].
  cbn [filter map]. rewrite <- (H e (or_introl eq_refl)).
  destruct (f e); cbn [map]; rewrite IH; auto using in_cons.
Qed.

Lemma first_seen_keys (personas : list string) :
  forall keys : list string,
    fold_left (fun ks p => if Py.mem p ks then ks else (ks ++ [p])%list) personas keys
    = (keys ++ filter (fun q => negb (Py.mem q keys)) (first_occurrences personas))%list.
Proof.
  induction personas as [|p rest IH]; intro keys.
  - cbn. rewrite app_nil_r. reflexivity.
  - cbn [fold_left first_occurrences filter]. rewrite IH.
    destruct (Py.mem p keys) eqn:E; cbn [negb].
    + f_equal. rewrite filter_twice. apply filter_ext. intro q.
      destruct (String.eqb q p) eqn:Eq; cbn [negb andb]; [|reflexivity].
      apply String.eqb_eq in Eq. subst q. rewrite E. reflexivity.
    + rewrite <- app_assoc. cbn [app]. do 2 f_equal.
      rewrite filter_twice. apply filter_ext. intro q.
      unfold Py.mem. rewrite existsb_app. cbn [existsb]. rewrite orb_false_r.
      rewrite negb_orb. apply andb_comm.
Qed.

Lemma philosophy_scores_keys (l : list MemoryEntry) :
  forall scores : list (string * Q),
    Py.keys (fold_left score_step l scores)
    = fold_left (fun ks p => if Py.mem p ks then ks else (ks ++ [p])%list)
                (origins l) (Py.keys scores).
Proof.
  induction l as [|m l IH]; intro scores; [reflexivity|].
  cbn [fold_left origins flat_map]. rewrite IH, fold_left_app. f_equal.
  unfold score_step, origin_persona.
  destruct (speaker_philosophy m) as [p|]; [|reflexivity].
  destruct (Py.is_empty p); [reflexivity|].
  cbn [fold_left]. apply add_score_keys.
Qed.

(** C2, as the code has it.  The score of an origin persona is the sum of
    opinion weight * importance over the memory entries of that origin; the
    origins whose score strictly exceeds the drift threshold and that differ
    from the participant's own persona are applied in turn, in the order of
    their first entry in the memory.  Each application sets the system
    message to the base text followed by that one modifier: no log of
    modifiers is kept, and after the check the effective text is the base
    text followed by the last applied modifier only (it is unchanged when
    none applies or the memory is empty).  The base text and the memory are
    left as they were. *)
Theorem drift_keeps_only_the_last_modifier (a : PhilosopherAgent) :
  let over_threshold := fun p : string =>
    (negb (String.eqb p (Py.lower (philosophy a)))
     && Py.Qltb (belief_drift_threshold a) (persona_sum (memory a) p))%bool in
  (forall p s, In (p, s) (philosophy_scores a) -> s == persona_sum (memory a) p)
  /\ Py.keys (philosophy_scores a) = first_occurrences (origins (memory a))
  /\ (forall p s,
        In (p, s) (applied_modifiers a) <->
        In (p, s) (philosophy_scores a)
        /\ p <> Py.lower (philosophy a) /\ belief_drift_threshold a < s)
  /\ Py.keys (applied_modifiers a)
     = filter over_threshold (first_occurrences (origins (memory a)))
  /\ (memory a <> [] ->
      _check_belief_drift a =
        fold_left (fun b e => _modify_system_prompt b (fst e) (snd e))
                  (applied_modifiers a) a)
  /\ (memory a = [] -> _check_belief_drift a = a)
  /\ system_message (_check_belief_drift a) =
       match memory a, rev (applied_modifiers a) with
       | [], _ => system_message a
       | _, [] => system_message a
       | _, (p, s) :: _ => initial_system_message a ++ modification_prompt a p s
       end
  /\ initial_system_message (_check_belief_drift a) = initial_system_message a
  /\ memory (_check_belief_drift a) = memory a.
Proof.
  cbv zeta.
  assert (Hfold : memory a <> [] ->
            _check_belief_drift a =
              fold_left (fun b e => _modify_system_prompt b (fst e) (snd e))
                        (applied_modifiers a) a).
  { intro Hne. unfold _check_belief_drift, applied_modifiers.
    destruct (memory a) as [|m l] eqn:E; [contradiction|].
    apply drift_fold_filter; reflexivity. }
  assert (Hkeys : Py.keys (philosophy_scores a) = first_occurrences (origins (memory a))).
  { unfold philosophy_scores. rewrite philosophy_scores_keys, first_seen_keys.
    cbn [Py.keys map app]. apply filter_nothing. reflexivity. }
  split; [apply philosophy_scores_sum|].
  split; [exact Hkeys|].
  split.
  { intros p s. unfold applied_modifiers. rewrite filter_In. unfold drifts. simpl.
    rewrite andb_true_iff, negb_true_iff, Qltb_true.
    split; intros [H1 [H2 H3]]; (split; [exact H1|split; [|exact H3]]).
    - intro Heq. subst p. rewrite String.eqb_refl in H2. discriminate.
    - apply String.eqb_neq. exact H2. }
  split.
  { rewrite <- Hkeys. unfold applied_modifiers. apply keys_filter.
    intros [p s] Hin. unfold drifts. cbn [fst snd]. f_equal.
    pose proof (philosophy_scores_sum a p s Hin) as Hsum.
    unfold Py.Qltb. f_equal.
    destruct (Qle_bool s (belief_drift_threshold a)) eqn:E1;
      destruct (Qle_bool (persona_sum (memory a) p) (belief_drift_threshold a)) eqn:E2;
      try reflexivity.
    - apply Qle_bool_iff in E1. rewrite Hsum in E1. apply Qle_bool_iff in E1. congruence.
    - apply Qle_bool_iff in E2. rewrite <- Hsum in E2. apply Qle_bool_iff in E2.
      congruence. }
  split; [exact Hfold|].
  split.
  { intro E. unfold _check_belief_drift. rewrite E. reflexivity. }
  split.
  { destruct (memory a) as [|m l] eqn:E.
    - unfold _check_belief_drift. rewrite E. reflexivity.
    - rewrite Hfold by (try rewrite E; discriminate).
      rewrite (modify_fold_message a); [|reflexivity|reflexivity].
      destruct (rev (applied_modifiers a)) as [|[p s] r]; reflexivity. }
  split.
  { destruct (memory a) as [|m l] eqn:E.
    - unfold _check_belief_drift. rewrite E. reflexivity.
    - rewrite Hfold by (try rewrite E; discriminate).
      generalize (applied_modifiers a) as mods. intro mods.
      assert (H : forall b, initial_system_message b = initial_system_message a ->
                 initial_system_message
                   (fold_left (fun b e => _modify_system_prompt b (fst e) (snd e)) mods b)
                 = initial_system_message a).
      { induction mods as [|e mods IH]; intros b Hb; simpl; [exact Hb|].
        apply IH. exact Hb. }
      apply H. reflexivity. }
  apply check_belief_drift_memory.
Qed.

(** *** The scoring phase *)

Lemma bind_ok {A B : Type} (m : M A) (k : A -> M B) (w w' : World) (x : A) :
  m w = (Ok x, w') -> bind m k w = k x w'.
Proof. intro H. unfold bind. rewrite H. reflexivity. Qed.

Lemma bind_raise {A B : Type} (m : M A) (k : A -> M B) (w w' : World) (e : exn) :
  m w = (Raise e, w') -> bind m k w = (Raise e, w').
Proof. intro H. unfold bind. rewrite H. reflexivity. Qed.

Lemma bind_inv {A B : Type} (m : M A) (k : A -> M B) (w w' : World) (y : B) :
  bind m k w = (Ok y, w') ->
  exists x w1, m w = (Ok x, w1) /\ k x w1 = (Ok y, w').
Proof.
  unfold bind. destruct (m w) as [[x|e] w1]; intro H.
  - exists x, w1. split; [reflexivity|exact H].
  - discriminate H.
Qed.

Lemma compute_reactivity_ok (a : PhilosopherAgent) (history : list Message) (w : World) :
  exists score w', compute_reactivity a history w = (Ok score, w').
Proof.
  destruct history as [|m history].
  - exists 0, w. reflexivity.
  - unfold compute_reactivity, bind, lift, ret.
    destruct (random_uniform 0 0.15 w) as [j w']. eauto.
Qed.

Lemma collect_from_spec (history : list Message) (roster : list PhilosopherAgent) :
  forall (i : nat) (w : World),
  exists scores w',
    collect_from history i roster w = (Ok (scores, map cool_down roster), w')
    /\ map fst scores = eligible_from i roster.
Proof.
  induction roster as [|a rest IH]; intros i w.
  - exists [], w. split; reflexivity.
  - destruct (compute_reactivity_ok a history w) as [score [w1 Hscore]].
    destruct (IH (S i) w1) as [scores [w2 [Hrest Hfst]]].
    cbn [collect_from]. rewrite (bind_ok _ _ _ _ _ Hscore).
    unfold cool_down at 1. cbn [eligible_from map].
    destruct (cooldown a =? 0)%Z.
    + rewrite (bind_ok _ _ _ _ _ Hrest). unfold ret.
      exists ((i, score) :: scores), w2. split; [reflexivity|].
      simpl. rewrite Hfst. reflexivity.
    + rewrite (bind_ok _ _ _ _ _ Hrest). unfold ret.
      exists scores, w2. split; [reflexivity|exact Hfst].
Qed.

Lemma collect_intent_spec (o : DebateOrchestrator) (w : World) :
  exists scores w',
    collect_intent_to_speak o w =
      (Ok (scores, with_agents o (map cool_down (agents o))), w')
    /\ map fst scores = eligible_from 0 (agents o).
Proof.
  destruct (collect_from_spec (chat_history o) (agents o) 0%nat w)
    as [scores [w' [H Hfst]]].
  exists scores, w'. split; [|exact Hfst].
  unfold collect_intent_to_speak. rewrite (bind_ok _ _ _ _ _ H). reflexivity.
Qed.

Lemma eligible_from_In (roster : list PhilosopherAgent) :
  forall (i j : nat),
    In j (eligible_from i roster) <->
    (i <= j)%nat /\ exists a, nth_error roster (j - i) = Some a /\ cooldown a = 0%Z.
Proof.
  induction roster as [|a rest IH]; intros i j; cbn [eligible_from].
  - split; [intros []|]. intros [_ [b [H _]]]. destruct (j - i)%nat; discriminate H.
  - destruct (cooldown a =? 0)%Z eqn:E.
    + cbn [In]. rewrite IH. split.
      * intros [Hij|[Hle [b [Hb Hc]]]].
        -- subst j. split; [lia|]. exists a. rewrite Nat.sub_diag.
           split; [reflexivity|lia].
        -- split; [lia|]. exists b. replace (j - i)%nat with (S (j - S i)) by lia.
           split; assumption.
      * intros [Hle [b [Hb Hc]]].
        destruct (Nat.eq_dec i j) as [Heq|Hne]; [left; exact Heq|right].
        split; [lia|]. exists b.
        replace (j - i)%nat with (S (j - S i)) in Hb by lia. split; assumption.
    + rewrite IH. split.
      * intros [Hle [b [Hb Hc]]]. split; [lia|]. exists b.
        replace (j - i)%nat with (S (j - S i)) by lia. split; assumption.
      * intros [Hle [b [Hb Hc]]].
        destruct (Nat.eq_dec i j) as [Heq|Hne].
        -- subst j. rewrite Nat.sub_diag in Hb. simpl in Hb. inversion Hb; subst b. lia.
        -- split; [lia|]. exists b.
           replace (j - i)%nat with (S (j - S i)) in Hb by lia. split; assumption.
Qed.

(** *** Selection draws among the candidates *)

Section Selection.

(** [random.sample] returns elements of the population, and
    [random.choices] one of them. *)
Hypothesis random_sample_subset :
  forall (population : list nat) (k : nat) (w : World),
    (k <= length population)%nat ->
    incl (fst (random_sample population k w)) population.

Hypothesis random_choices_member :
  forall (population : list nat) (weights : list Q) (w : World),
    population <> [] -> In (fst (random_choices population weights w)) population.

Lemma sample_incl (population : list nat) (k : nat) (w w' : World) (l : list nat) :
  sample population k w = (Ok l, w') -> incl l population.
Proof using random_sample_subset.
  unfold sample. destruct (Nat.ltb (length population) k) eqn:E; [discriminate|].
  apply Nat.ltb_ge in E. unfold lift.
  pose proof (random_sample_subset population k w E) as H.
  destruct (random_sample population k w) as [r w1]. intro Heq.
  inversion Heq; subst. exact H.
Qed.

Lemma choices_member (population : list nat) (weights : list Q) (w w' : World) (x : nat) :
  choices population weights w = (Ok x, w') -> In x population.
Proof using random_choices_member.
  unfold choices. destruct population as [|p rest]; [discriminate|].
  destruct (Qle_bool (sum_weights weights) 0); [discriminate|].
  unfold lift.
  assert (Hne : p :: rest <> []) by discriminate.
  pose proof (random_choices_member (p :: rest) weights w Hne) as H.
  destruct (random_choices (p :: rest) weights w) as [r w1]. intro Heq.
  inversion Heq; subst. exact H.
Qed.

Lemma weighted_draws_incl (n : nat) :
  forall (remaining : list (nat * Q)) (selected : list nat) (w w' : World) (l : list nat),
    weighted_draws n remaining selected w = (Ok l, w') ->
    incl l (selected ++ map fst remaining)%list.
Proof using random_choices_member.
  induction n as [|n IH]; intros remaining selected w w' l H.
  - inversion H; subst. apply incl_appl, incl_refl.
  - cbn [weighted_draws] in H. destruct remaining as [|c rest].
    + inversion H; subst. apply incl_appl, incl_refl.
    + apply bind_inv in H. destruct H as [chosen [w1 [Hc H]]].
      apply choices_member in Hc. apply IH in H.
      intros x Hx. apply H in Hx. apply in_app_or in Hx.
      apply in_or_app. destruct Hx as [Hx|Hx].
      * apply in_app_or in Hx. destruct Hx as [Hx|[Hx|[]]]; [left; exact Hx|].
        subst x. right. exact Hc.
      * right. apply in_map_iff in Hx. destruct Hx as [c' [Hfst Hin]].
        apply filter_In in Hin. destruct Hin as [Hin _].
        apply in_map_iff. exists c'. split; assumption.
Qed.

Lemma select_speakers_incl (o : DebateOrchestrator) (scores : list (nat * Q))
    (w w' : World) (selected : list nat) (sorted : list (nat * Q)) :
  select_speakers o scores w = (Ok (selected, sorted), w') ->
  incl selected (map fst scores) /\ Permutation sorted scores.
Proof using random_sample_subset random_choices_member.
  unfold select_speakers. destruct scores as [|c rest].
  - intro H. inversion H; subst. split; [apply incl_refl|apply Permutation_refl].
  - set (scores := c :: rest).
    pose proof (sorted_desc_perm snd scores) as Hperm.
    set (sorted0 := sorted_desc snd scores) in *.
    assert (Htop : forall n, incl (map fst (firstn n sorted0)) (map fst scores)).
    { intros n x Hx. apply in_map_iff in Hx. destruct Hx as [c' [Hfst Hin]].
      apply in_map_iff. exists c'. split; [exact Hfst|].
      apply (Permutation_in _ Hperm).
      rewrite <- (firstn_skipn n sorted0). apply in_or_app. left. exact Hin. }
    cbv zeta.
    destruct (Nat.leb _ _).
    + destruct (Qeq_bool _ 0).
      * intro H. apply bind_inv in H. destruct H as [l [w1 [Hs H]]].
        inversion H; subst. split; [|exact Hperm].
        apply sample_incl in Hs. eapply incl_tran; [exact Hs|apply Htop].
      * intro H. apply bind_inv in H. destruct H as [l [w1 [Hs H]]].
        inversion H; subst. split; [|exact Hperm].
        apply weighted_draws_incl in Hs. simpl in Hs.
        eapply incl_tran; [exact Hs|apply Htop].
    + intro H. inversion H; subst. split; [|exact Hperm].
      intros x Hx. apply in_map_iff in Hx. destruct Hx as [c' [Hfst Hin]].
      apply in_map_iff. exists c'. split; [exact Hfst|].
      apply (Permutation_in _ Hperm). exact Hin.
Qed.

(** C6. In the scoring phase of a round a participant whose cooldown is
    greater than 0 does not enter the score list: the list holds exactly the
    positions of the participants with cooldown 0.  In that phase its
    cooldown goes down by exactly 1, nothing else about it changing, and it
    is in nothing the selector returns for that score list, neither among
    the speakers nor in the sorted scores. *)
Theorem cooling_down_participant_is_skipped
    (o : DebateOrchestrator) (w : World) (i : nat) (a : PhilosopherAgent) :
  nth_error (agents o) i = Some a ->
  (0 < cooldown a)%Z ->
  exists scores o' w',
    collect_intent_to_speak o w = (Ok (scores, o'), w')
    /\ ~ In i (map fst scores)
    /\ (forall j, In j (map fst scores) <->
                  exists b, nth_error (agents o) j = Some b /\ cooldown b = 0%Z)
    /\ nth_error (agents o') i = Some (with_cooldown a (cooldown a - 1))
    /\ (forall selected sorted w'',
          select_speakers o' scores w' = (Ok (selected, sorted), w'') ->
          ~ In i selected /\ ~ In i (map fst sorted)).
Proof using random_sample_subset random_choices_member.
  intros Hi Hcool.
  destruct (collect_intent_spec o w) as [scores [w' [Hcollect Hfst]]].
  assert (Helig : forall j, In j (map fst scores) <->
                    exists b, nth_error (agents o) j = Some b /\ cooldown b = 0%Z).
  { intro j. rewrite Hfst, eligible_from_In, Nat.sub_0_r.
    split; [intros [_ H]; exact H|intro H; split; [lia|exact H]]. }
  assert (Hnot : ~ In i (map fst scores)).
  { intro Hin. apply Helig in Hin. destruct Hin as [b [Hb Hc]].
    rewrite Hi in Hb. inversion Hb; subst b. lia. }
  exists scores, (with_agents o (map cool_down (agents o))), w'.
  split; [exact Hcollect|]. split; [exact Hnot|]. split; [exact Helig|]. split.
  - cbn [with_agents agents]. rewrite nth_error_map, Hi. cbn [option_map].
    unfold cool_down, reduce_cooldown.
    destruct (cooldown a =? 0)%Z eqn:E; [apply Z.eqb_eq in E; lia|].
    destruct (0 <? cooldown a)%Z eqn:E2; [reflexivity|].
    apply Z.ltb_ge in E2. lia.
  - intros selected sorted w'' Hsel.
    apply select_speakers_incl in Hsel. destruct Hsel as [Hincl Hperm].
    split.
    + intro Hin. apply Hnot, Hincl, Hin.
    + intro Hin. apply Hnot.
      apply (Permutation_in _ (Permutation_map fst Hperm)). exact Hin.
Qed.

(** *** Selection against its specification *)

Lemma weighted_draws_spec (n : nat) :
  forall (pool : list (nat * Q)) (selected : list nat) (w : World),
    weighted_draws n pool selected w =
    match spec_weighted_draws n pool w with
    | (Ok l, w') => (Ok (selected ++ l)%list, w')
    | (Raise e, w') => (Raise e, w')
    end.
Proof.
  induction n as [|n IH]; intros pool selected w.
  - simpl. unfold ret. rewrite app_nil_r. reflexivity.
  - cbn [weighted_draws spec_weighted_draws]. destruct pool as [|c rest].
    + unfold ret. rewrite app_nil_r. reflexivity.
    + unfold bind at 1 2.
      destruct (choices _ _ w) as [[chosen|e] w1]; [|reflexivity].
      rewrite IH. unfold bind.
      destruct (spec_weighted_draws n _ w1) as [[l|e] w2]; [|reflexivity].
      unfold ret. rewrite <- app_assoc. reflexivity.
Qed.

Lemma spec_weighted_draws_exhausted (m : nat) :
  forall (k : nat) (pool : list (nat * Q)) (w : World),
    (length pool <= m)%nat -> (m <= k)%nat ->
    spec_weighted_draws k pool w = spec_weighted_draws m pool w.
Proof using random_choices_member.
  induction m as [|m IH]; intros k pool w Hlen Hk.
  - destruct pool; [|simpl in Hlen; lia]. destruct k; reflexivity.
  - destruct k as [|k]; [lia|].
    cbn [spec_weighted_draws]. destruct pool as [|c rest]; [reflexivity|].
    unfold bind.
    destruct (choices _ _ w) as [[drawn|e] w1] eqn:Hc; [|reflexivity].
    apply choices_member in Hc.
    assert (Hshrink : (length (filter (fun c0 => negb (Nat.eqb (fst c0) drawn)) (c :: rest))
                       <= m)%nat).
    { apply in_map_iff in Hc. destruct Hc as [c' [Hfst Hin]].
      assert (Hlt : (length (filter (fun c0 => negb (Nat.eqb (fst c0) drawn)) (c :: rest))
                     < length (c :: rest))%nat).
      { clear - Hfst Hin. induction (c :: rest) as [|x l IHl]; [destruct Hin|].
        simpl. destruct Hin as [Hin|Hin].
        - subst x. rewrite Hfst, Nat.eqb_refl. simpl.
          pose proof (filter_length_le (fun c0 => negb (Nat.eqb (fst c0) drawn)) l). lia.
        - specialize (IHl Hin).
          destruct (negb (Nat.eqb (fst x) drawn)); simpl; lia. }
      lia. }
    rewrite (IH k _ w1 Hshrink) by lia. reflexivity.
Qed.

Lemma spec_weighted_draws_length (k : nat) :
  forall (pool : list (nat * Q)) (w w' : World) (l : list nat),
    spec_weighted_draws k pool w = (Ok l, w') ->
    (length l <= Nat.min k (length pool))%nat.
Proof using random_choices_member.
  induction k as [|k IH]; intros pool w w' l H.
  - inversion H; subst. simpl. lia.
  - cbn [spec_weighted_draws] in H. destruct pool as [|c rest].
    + inversion H; subst. simpl. lia.
    + apply bind_inv in H. destruct H as [drawn [w1 [Hc H]]].
      apply bind_inv in H. destruct H as [tail [w2 [Hrest H]]].
      inversion H; subst. apply IH in Hrest.
      apply choices_member in Hc. apply in_map_iff in Hc.
      destruct Hc as [c' [Hfst Hin]].
      assert (Hlt : (length (filter (fun c0 => negb (Nat.eqb (fst c0) drawn)) (c :: rest))
                     < length (c :: rest))%nat).
      { clear - Hfst Hin. induction (c :: rest) as [|x l IHl]; [destruct Hin|].
        simpl. destruct Hin as [Hin|Hin].
        - subst x. rewrite Hfst, Nat.eqb_refl. simpl.
          pose proof (filter_length_le (fun c0 => negb (Nat.eqb (fst c0) drawn)) l). lia.
        - specialize (IHl Hin).
          destruct (negb (Nat.eqb (fst x) drawn)); simpl; lia. }
      cbn [length] in *. lia.
Qed.

(** C5. [select_speakers] with [k = speakers_per_round] is the selection of
    the specification: candidates sorted by score, descending (the sorted
    list is what it leaves in [intent_scores]); the pool is the top
    min(2k, n); a pool whose weights sum to zero is sampled uniformly without
    replacement, k participants or, from a smaller pool, all of it;
    otherwise k weighted draws are made with weight score + 0.1, each drawn
    candidate leaving the pool, and they stop when the pool is exhausted, so
    that the weighted draws return at most k speakers and no more than the
    pool holds. *)
Theorem select_speakers_refines_spec
    (o : DebateOrchestrator) (scores : list (nat * Q)) (w : World) :
  let k := speakers_per_round o in
  select_speakers o scores w =
    match spec_select scores k w with
    | (Ok selected, w') =>
        (Ok (selected, match scores with [] => [] | _ => sorted_desc snd scores end), w')
    | (Raise e, w') => (Raise e, w')
    end
  /\ (forall selected sorted w',
        select_speakers o scores w = (Ok (selected, sorted), w') ->
        ranked snd sorted /\ Permutation sorted scores)
  /\ (forall pool selected w0 w',
        spec_weighted_draws k pool w0 = (Ok selected, w') ->
        (length selected <= Nat.min k (length pool))%nat).
Proof using random_choices_member.
  cbv zeta.
  assert (Hrefine :
    select_speakers o scores w =
    match spec_select scores (speakers_per_round o) w with
    | (Ok selected, w') =>
        (Ok (selected, match scores with [] => [] | _ => sorted_desc snd scores end), w')
    | (Raise e, w') => (Raise e, w')
    end).
  { unfold select_speakers, spec_select. destruct scores as [|c rest]; [reflexivity|].
    set (scores := c :: rest).
    pose proof (Permutation_length (sorted_desc_perm snd scores)) as Hlen.
    set (sorted := sorted_desc snd scores) in *.
    set (k := speakers_per_round o).
    cbv zeta. rewrite Hlen.
    set (n := length scores).
    assert (Hle : Nat.leb (Nat.min k n) n = true) by (apply Nat.leb_le; lia).
    rewrite Hle.
    replace (Nat.min (Nat.min k n * 2) n) with (Nat.min (2 * k) n) by lia.
    set (pool := firstn (Nat.min (2 * k) n) sorted).
    assert (Hpool : length pool = Nat.min (2 * k) n).
    { unfold pool. rewrite length_firstn. lia. }
    destruct (Qeq_bool (sum_weights (map snd pool)) 0).
    + unfold spec_uniform_draws. rewrite Hpool.
      replace (Nat.min k (Nat.min (2 * k) n)) with (Nat.min k n) by lia.
      unfold bind. destruct (sample (map fst pool) (Nat.min k n) w) as [[l|e] w1];
        reflexivity.
    + unfold bind. rewrite weighted_draws_spec.
      assert (Hdraws : spec_weighted_draws k pool w =
                       spec_weighted_draws (Nat.min k n) pool w).
      { destruct (le_lt_dec k n) as [Hkn|Hkn].
        - replace (Nat.min k n) with k by lia. reflexivity.
        - apply spec_weighted_draws_exhausted; lia. }
      rewrite Hdraws.
      destruct (spec_weighted_draws (Nat.min k n) pool w) as [[l|e] w1]; reflexivity. }
  split; [exact Hrefine|].
  split; [|intros pool selected w0 w' H; apply (spec_weighted_draws_length _ _ _ _ _ H)].
  intros selected sorted w' H.
  rewrite Hrefine in H.
  destruct (spec_select scores (speakers_per_round o) w) as [[l|e] w1]; [|discriminate H].
  assert (Hsorted : sorted = match scores with [] => [] | _ => sorted_desc snd scores end)
    by congruence.
  rewrite Hsorted. destruct scores as [|c rest].
  - split; [exact I|apply Permutation_refl].
  - split; [apply sorted_desc_ranked|apply sorted_desc_perm].
Qed.

End Selection.

(** *** Generation and reflection never raise *)

Lemma respond_spec (o : DebateOrchestrator) (a : PhilosopherAgent) (w : World) :
  let prompt := generate_memory_influenced_prompt a (chat_history o) (base_prompt o a) in
  exists text w',
    respond o a w = (Ok text, w')
    /\ w' = snd (generate_reply a prompt w)
    /\ match fst (generate_reply a prompt w) with
       | Raise _ => text = fallback_response o a
       | Ok (ReplyDict None) => text = fallback_response o a
       | Ok (ReplyDict (Some s)) | Ok (ReplyStr s) | Ok (ReplyOther s) =>
           text = if Py.startswith s (name a) then s else name a ++ ": " ++ s
       end.
Proof.
  cbv zeta. unfold respond, try_except, bind.
  destruct (generate_reply a _ w) as [[response|e] w1]; cbn [fst snd].
  - destruct response as [[s|]|s|s]; cbn [response_text]; unfold ret, raise;
      eexists; eexists; repeat split.
  - unfold ret. eexists; eexists; repeat split.
Qed.

Lemma length_map_at {A : Type} (f : A -> A) (l : list A) :
  forall i, length (map_at i f l) = length l.
Proof.
  induction l as [|x l IH]; intros [|i]; simpl; try reflexivity.
  rewrite IH. reflexivity.
Qed.

Lemma length_map_except {A : Type} (f : A -> A) (l : list A) :
  forall i, length (map_except i f l) = length l.
Proof.
  induction l as [|x l IH]; intros [|i]; simpl; try reflexivity.
  - rewrite length_map. reflexivity.
  - rewrite IH. reflexivity.
Qed.

Lemma generate_agent_responses_spec (speakers : list nat) :
  forall (o : DebateOrchestrator) (w : World),
  exists responses o' w',
    generate_agent_responses o speakers w = (Ok (responses, o'), w')
    /\ map fst responses =
         filter (fun i => Nat.ltb i (length (agents o))) speakers
    /\ length (agents o') = length (agents o)
    /\ (forall i text, In (i, text) responses ->
          exists a, nth_error (agents o) i = Some a
            /\ (text = name a ++ ": " ++
                       get_philosophical_stance a (topic_text (current_topic o))
                \/ exists s, text = if Py.startswith s (name a) then s
                                    else name a ++ ": " ++ s)).
Proof.
  induction speakers as [|i rest IH]; intros o w.
  - exists [], o, w. repeat split. intros i text [].
  - cbn [generate_agent_responses filter].
    destruct (nth_error (agents o) i) as [a|] eqn:Ha.
    + assert (Hlt : Nat.ltb i (length (agents o)) = true).
      { apply Nat.ltb_lt. apply nth_error_Some. congruence. }
      rewrite Hlt.
      set (a1 := with_chat_history a).
      set (o1 := with_agents o (map_at i (fun _ => a1) (agents o))).
      pose proof (respond_spec o1 a1 w) as Hrs. cbv zeta in Hrs.
      destruct Hrs as [text [w1 [Hresp [_ Htext]]]].
      destruct (IH o1 w1) as [responses [o' [w' [Hgen [Hfst [Hlen Hall]]]]]].
      rewrite (bind_ok _ _ _ _ _ Hresp), (bind_ok _ _ _ _ _ Hgen). unfold ret.
      assert (Hlen1 : length (agents o1) = length (agents o)).
      { unfold o1. cbn [with_agents agents]. apply length_map_at. }
      exists ((i, text) :: responses), o', w'. split; [reflexivity|].
      split; [cbn [map fst]; rewrite Hfst, Hlen1; reflexivity|].
      split; [congruence|].
      intros j t [Hin|Hin].
      * inversion Hin; subst j t. exists a. split; [exact Ha|].
        destruct (fst (generate_reply a1 _ w)) as [[[s|]|s|s]|e];
          try (right; exists s; exact Htext); left; exact Htext.
      * destruct (Hall j t Hin) as [b [Hb Ht]].
        unfold o1 in Hb. cbn [with_agents agents] in Hb.
        destruct (Nat.eq_dec j i) as [Heq|Hne].
        -- subst j. exists a. split; [exact Ha|].
           assert (Hb1 : b = a1).
           { clear - Hb Ha. revert i Hb Ha.
             induction (agents o) as [|x l IHl]; intros [|i] Hb Ha;
               simpl in *; try discriminate.
             - congruence.
             - apply (IHl i); assumption. }
           subst b. exact Ht.
        -- exists b. split; [|exact Ht].
           clear - Hb Hne. revert i j Hb Hne.
           induction (agents o) as [|x l IHl]; intros [|i] [|j] Hb Hne;
             simpl in *; try discriminate; try congruence.
           apply (IHl i j); [exact Hb|congruence].
    + assert (Hge : Nat.ltb i (length (agents o)) = false).
      { apply Nat.ltb_ge. apply nth_error_None. exact Ha. }
      rewrite Hge. apply IH.
Qed.

Lemma reflect_spec (a : PhilosopherAgent) (history : list Message) (transcript : string)
    (w : World) :
  let decayed := _apply_belief_decay a in
  let prompt :=
    generate_memory_influenced_prompt decayed history (reflection_prompt decayed transcript) in
  exists text a' w',
    reflect a history transcript w = (Ok (text, a'), w')
    /\ name a' = name a
    /\ match fst (generate_reply decayed prompt w) with
       | Raise _ => text = fallback_reflection a /\ a' = decayed
       | Ok response =>
           text = name a ++ " reflects: " ++ reflection_text response
           /\ a' = _check_belief_drift decayed
       end.
Proof.
  cbv zeta. unfold reflect, try_except, bind, ret. cbv zeta.
  assert (Hname : forall b, name (_check_belief_drift b) = name b).
  { intro b. unfold _check_belief_drift. destruct (memory b); [reflexivity|].
    generalize (philosophy_scores b) as scores. intro scores.
    assert (H : forall c, name c = name b ->
              name (fold_left (fun a0 entry =>
                      if drifts a0 entry
                      then _modify_system_prompt a0 (fst entry) (snd entry)
                      else a0) scores c) = name b).
    { induction scores as [|e scores IH]; intros c Hc; simpl; [exact Hc|].
      apply IH. destruct (drifts c e); exact Hc. }
    apply H. reflexivity. }
  destruct (generate_reply (_apply_belief_decay a) _ w) as [[response|e] w1]; cbn [fst].
  - do 3 eexists. split; [reflexivity|]. split; [rewrite Hname; reflexivity|].
    split; [|reflexivity]. rewrite Hname. reflexivity.
  - do 3 eexists. split; [reflexivity|]. split; [reflexivity|]. split; reflexivity.
Qed.

Lemma reflect_all_ok (history : list Message) (transcript : string)
    (roster : list PhilosopherAgent) :
  forall (reflections : list (string * string)) (w : World),
  exists reflections' roster' w',
    reflect_all history transcript roster reflections w =
      (Ok (reflections', roster'), w')
    /\ length roster' = length roster.
Proof.
  induction roster as [|a rest IH]; intros reflections w.
  - exists reflections, [], w. split; reflexivity.
  - cbn [reflect_all].
    pose proof (reflect_spec a history transcript w) as Hrs. cbv zeta in Hrs.
    destruct Hrs as [text [a' [w1 [Hr _]]]].
    destruct (IH (dict_set (name a) text reflections) w1)
      as [reflections' [rest' [w2 [Hrest Hlen]]]].
    rewrite (bind_ok _ _ _ _ _ Hr), (bind_ok _ _ _ _ _ Hrest). unfold ret.
    do 3 eexists. split; [reflexivity|]. simpl. rewrite Hlen. reflexivity.
Qed.

Lemma end_debate_ok (o : DebateOrchestrator) (w : World) :
  exists summary o' w', end_debate o w = (Ok (summary, o'), w').
Proof.
  unfold end_debate. cbv zeta.
  destruct (reflect_all_ok (chat_history (with_active o false))
              (Py.join Py.newline (map transcript_line (chat_history (with_active o false))))
              (agents (with_active o false)) [] w)
    as [reflections [roster [w' [H _]]]].
  rewrite (bind_ok _ _ _ _ _ H). unfold ret. do 3 eexists. reflexivity.
Qed.

Lemma conclude_ok (o : DebateOrchestrator) (w : World) :
  exists summary o' w', conclude o w = (Ok (Ended summary, o'), w').
Proof.
  unfold conclude. destruct (end_debate_ok o w) as [summary [o' [w' H]]].
  rewrite (bind_ok _ _ _ _ _ H). unfold ret. do 3 eexists. reflexivity.
Qed.

Lemma should_continue_debate_spec (o : DebateOrchestrator) (w : World) :
  exists go o' w',
    should_continue_debate o w = (Ok (go, o'), w')
    /\ (((max_rounds o <=? round_count o)%Z || negb (debate_active o) = true
         /\ go = false /\ o' = o /\ w' = w)
        \/ ((max_rounds o <=? round_count o)%Z || negb (debate_active o) = false
            /\ o' = with_agents o (map cool_down (agents o)))).
Proof.
  unfold should_continue_debate.
  destruct (max_rounds o <=? round_count o)%Z.
  - exists false, o, w. split; [reflexivity|]. left. repeat split.
  - destruct (debate_active o); cbn [negb].
    + destruct (collect_intent_spec o w) as [scores [w' [H _]]].
      rewrite (bind_ok _ _ _ _ _ H). unfold ret. do 3 eexists.
      split; [reflexivity|]. right. split; reflexivity.
    + exists false, o, w. split; [reflexivity|]. left. repeat split.
Qed.

Lemma choice_ok {A : Type} (l : list A) (w : World) :
  l <> [] -> exists x w', choice l w = (Ok x, w').
Proof.
  intro H. destruct l as [|d l]; [contradiction|].
  unfold choice, bind, lift, ret. destruct (randbelow _ w) as [i w']. eauto.
Qed.

Lemma generate_moderator_intervention_ok (o : DebateOrchestrator) (w : World) :
  agents o <> [] ->
  exists text w', generate_moderator_intervention o w = (Ok text, w').
Proof.
  intro Hne. unfold generate_moderator_intervention.
  destruct (choice_ok (agents o) w Hne) as [a [w1 Ha]].
  rewrite (bind_ok _ _ _ _ _ Ha). apply choice_ok. discriminate.
Qed.

Lemma maybe_intervene_ok (o : DebateOrchestrator) (w : World) :
  agents o <> [] ->
  exists o' w', maybe_intervene o w = (Ok o', w')
                /\ agents o' = agents o /\ round_count o' = round_count o
                /\ max_rounds o' = max_rounds o /\ debate_active o' = debate_active o.
Proof.
  intro Hne. unfold maybe_intervene, bind, lift.
  destruct (random_random w) as [r w1].
  destruct (Py.Qltb r 0.3).
  - destruct (generate_moderator_intervention_ok o w1 Hne) as [text [w2 Ht]].
    rewrite Ht. unfold ret. do 2 eexists.
    split; [reflexivity|]. repeat split.
  - unfold ret. do 2 eexists. split; [reflexivity|]. repeat split.
Qed.

Lemma fold_Qplus_grows (l : list Q) (acc : Q) :
  Forall (fun x => 0 < x) l -> acc <= fold_left Qplus l acc.
Proof.
  revert acc. induction l as [|x l IH]; intros acc H; simpl; [apply Qle_refl|].
  inversion H; subst. eapply Qle_trans; [|apply IH; assumption]. lra.
Qed.

Lemma sum_weights_pos (l : list Q) :
  l <> [] -> Forall (fun x => 0 < x) l -> 0 < sum_weights l.
Proof.
  intros Hne H. destruct l as [|x l]; [contradiction|].
  unfold sum_weights. simpl. inversion H; subst.
  eapply Qlt_le_trans; [|apply fold_Qplus_grows; assumption]. lra.
Qed.

Lemma choices_ok (population : list nat) (weights : list Q) (w : World) :
  population <> [] -> 0 < sum_weights weights ->
  exists x w', choices population weights w = (Ok x, w').
Proof.
  intros Hne Hsum. unfold choices. destruct population as [|p rest]; [contradiction|].
  destruct (Qle_bool (sum_weights weights) 0) eqn:E.
  - apply Qle_bool_iff in E. exfalso. apply (Qlt_not_le _ _ Hsum E).
  - unfold lift. destruct (random_choices _ _ w) as [x w']. eauto.
Qed.

Lemma weighted_draws_ok (n : nat) :
  forall (remaining : list (nat * Q)) (selected : list nat) (w : World),
    Forall (fun c => 0 <= snd c) remaining ->
    exists l w', weighted_draws n remaining selected w = (Ok l, w').
Proof.
  induction n as [|n IH]; intros remaining selected w Hpos.
  - exists selected, w. reflexivity.
  - cbn [weighted_draws]. destruct remaining as [|c rest] eqn:Erem.
    + exists selected, w. reflexivity.
    + rewrite <- Erem in *.
      assert (Hsum : 0 < sum_weights (map (fun c0 => snd c0 + 0.1) remaining)).
      { apply sum_weights_pos; [rewrite Erem; discriminate|].
        apply Forall_map. eapply Forall_impl; [|exact Hpos].
        intros c0 H0. simpl in H0. lra. }
      assert (Hne : map fst remaining <> []) by (rewrite Erem; discriminate).
      destruct (choices_ok _ _ w Hne Hsum) as [chosen [w1 Hc]].
      rewrite (bind_ok _ _ _ _ _ Hc).
      apply IH. apply Forall_forall. intros x Hx. apply filter_In in Hx.
      rewrite Forall_forall in Hpos. apply Hpos. apply Hx.
Qed.

Lemma select_speakers_ok (o : DebateOrchestrator) (scores : list (nat * Q)) (w : World) :
  Forall (fun c => 0 <= snd c) scores ->
  exists selected sorted w',
    select_speakers o scores w = (Ok (selected, sorted), w').
Proof.
  intro Hpos. unfold select_speakers. destruct scores as [|c rest].
  - do 3 eexists. reflexivity.
  - set (scores := c :: rest) in *.
    pose proof (sorted_desc_perm snd scores) as Hperm.
    pose proof (Permutation_length Hperm) as Hlen.
    set (sorted := sorted_desc snd scores) in *.
    cbv zeta. destruct (Nat.leb _ _).
    + destruct (Qeq_bool _ 0).
      * unfold bind, sample. rewrite length_map, length_firstn.
        set (k := Nat.min (speakers_per_round o) (length sorted)).
        assert (E : Nat.ltb (Nat.min (Nat.min (k * 2) (length sorted)) (length sorted)) k
                    = false) by (apply Nat.ltb_ge; lia).
        rewrite E. unfold lift. destruct (random_sample _ _ w) as [l w1].
        unfold ret. do 3 eexists. reflexivity.
      * assert (Htop : Forall (fun c0 => 0 <= snd c0)
                         (firstn (Nat.min (Nat.min (speakers_per_round o) (length sorted) * 2)
                                          (length sorted)) sorted)).
        { apply Forall_forall. intros x Hx. rewrite Forall_forall in Hpos. apply Hpos.
          apply (Permutation_in _ Hperm).
          match type of Hx with
          | In _ (firstn ?n _) => rewrite <- (firstn_skipn n sorted)
          end.
          apply in_or_app. left. exact Hx. }
        destruct (weighted_draws_ok (Nat.min (speakers_per_round o) (length sorted))
                    _ [] w Htop) as [l [w1 Hl]].
        rewrite (bind_ok _ _ _ _ _ Hl). unfold ret. do 3 eexists. reflexivity.
    + unfold ret. do 3 eexists. reflexivity.
Qed.

Section Robustness.

(** [random.uniform(a, b)] lies between its bounds. *)
Hypothesis uniform_between :
  forall (a b : Q) (w : World),
    a <= b -> a <= fst (random_uniform a b w) /\ fst (random_uniform a b w) <= b.

Lemma compute_reactivity_nonneg (a : PhilosopherAgent) (history : list Message)
    (w w' : World) (score : Q) :
  compute_reactivity a history w = (Ok score, w') -> 0 <= score.
Proof using uniform_between.
  destruct history as [|m history].
  - intro H. inversion H; subst. lra.
  - unfold compute_reactivity, bind, lift, ret.
    destruct (uniform_between 0 0.15 w) as [Hlo _]; [lra|].
    destruct (random_uniform 0 0.15 w) as [jitter w1]. simpl in Hlo.
    intro H. inversion H; subst.
    pose proof (raw_reactivity_nonneg a (m :: history)).
    apply py_min_glb; lra.
Qed.

Lemma collect_from_nonneg (history : list Message) (roster : list PhilosopherAgent) :
  forall (i : nat) (w w' : World) scores roster',
    collect_from history i roster w = (Ok (scores, roster'), w') ->
    Forall (fun c => 0 <= snd c) scores.
Proof using uniform_between.
  induction roster as [|a rest IH]; intros i w w' scores roster' H.
  - inversion H; subst. constructor.
  - cbn [collect_from] in H. apply bind_inv in H.
    destruct H as [score [w1 [Hs H]]]. apply compute_reactivity_nonneg in Hs.
    destruct (cooldown a =? 0)%Z.
    + apply bind_inv in H. destruct H as [[scores0 rest'] [w2 [Hr H]]].
      inversion H; subst. constructor; [exact Hs|]. apply (IH _ _ _ _ _ Hr).
    + apply bind_inv in H. destruct H as [[scores0 rest'] [w2 [Hr H]]].
      inversion H; subst. apply (IH _ _ _ _ _ Hr).
Qed.

Lemma collect_intent_nonneg (o : DebateOrchestrator) (w w' : World) scores o' :
  collect_intent_to_speak o w = (Ok (scores, o'), w') ->
  Forall (fun c => 0 <= snd c) scores.
Proof using uniform_between.
  unfold collect_intent_to_speak. intro H. apply bind_inv in H.
  destruct H as [[scores0 roster] [w1 [Hc H]]]. inversion H; subst.
  apply (collect_from_nonneg _ _ _ _ _ _ _ Hc).
Qed.

Lemma length_update_memory_and_reflection (o : DebateOrchestrator)
    (responses : list (nat * string)) :
  length (agents (update_memory_and_reflection o responses)) = length (agents o).
Proof.
  unfold update_memory_and_reflection.
  assert (H1 : forall l o0, length (agents (fold_left remember_response l o0))
                            = length (agents o0)).
  { induction l as [|r l IH]; intro o0; simpl; [reflexivity|].
    rewrite IH. unfold remember_response.
    destruct (nth_error (agents o0) (fst r)); [|reflexivity].
    cbn [with_agents agents]. apply length_map_except. }
  assert (H2 : forall l o0, length (agents (fold_left append_response l o0))
                            = length (agents o0)).
  { induction l as [|r l IH]; intro o0; simpl; [reflexivity|].
    rewrite IH. unfold append_response.
    destruct (nth_error (agents o0) (fst r)); [|reflexivity].
    cbn [with_agents with_history agents]. apply length_map_at. }
  rewrite H1, H2. reflexivity.
Qed.

Lemma run_debate_round_ok (o : DebateOrchestrator) (w : World) :
  exists outcome o' w', run_debate_round o w = (Ok (outcome, o'), w').
Proof using uniform_between.
  unfold run_debate_round.
  destruct (should_continue_debate_spec o w) as [go [o1 [w1 [Hgo _]]]].
  rewrite (bind_ok _ _ _ _ _ Hgo).
  destruct go; cbn [negb].
  2:{ destruct (conclude_ok o1 w1) as [s [o' [w' H]]]. do 3 eexists. exact H. }
  set (o2 := with_round_count o1 (round_count o1 + 1)%Z).
  destruct (collect_intent_spec o2 w1) as [scores [w2 [Hcollect Hfst]]].
  rewrite (bind_ok _ _ _ _ _ Hcollect).
  set (o3 := with_agents o2 (map cool_down (agents o2))) in *.
  destruct scores as [|c rest] eqn:Escores.
  { destruct (conclude_ok o3 w2) as [s [o' [w' H]]]. do 3 eexists. exact H. }
  cbv iota.
  assert (Hagents : agents o3 <> []).
  { unfold o3. cbn [with_agents agents]. intro Hnil.
    apply map_eq_nil in Hnil. rewrite Hnil in Hfst. discriminate Hfst. }
  destruct (select_speakers_ok o3 (c :: rest) w2
              (collect_intent_nonneg _ _ _ _ _ Hcollect))
    as [selected [sorted [w3 Hsel]]].
  rewrite (bind_ok _ _ _ _ _ Hsel).
  destruct selected as [|s0 selected].
  { destruct (conclude_ok o3 w3) as [s [o' [w' H]]]. do 3 eexists. exact H. }
  destruct (generate_agent_responses_spec (s0 :: selected) o3 w3)
    as [responses [o4 [w4 [Hgen [_ [Hlen4 _]]]]]].
  rewrite (bind_ok _ _ _ _ _ Hgen).
  set (o5 := update_memory_and_reflection o4 responses).
  assert (Hagents5 : agents o5 <> []).
  { intro Hnil. pose proof (length_update_memory_and_reflection o4 responses) as Hl.
    fold o5 in Hl. rewrite Hnil, Hlen4 in Hl.
    destruct (agents o3); [contradiction|discriminate]. }
  destruct (maybe_intervene_ok o5 w4 Hagents5) as [o6 [w5 [Hint _]]].
  rewrite (bind_ok _ _ _ _ _ Hint).
  destruct (should_continue_debate_spec o6 w5) as [go' [o7 [w6 [Hgo' _]]]].
  rewrite (bind_ok _ _ _ _ _ Hgo'). unfold ret. do 3 eexists. reflexivity.
Qed.

Lemma debate_loop_ok (fuel : nat) :
  forall (count limit : Z) (o : DebateOrchestrator) (w : World),
  exists o' w', debate_loop fuel count limit o w = (Ok o', w').
Proof using uniform_between.
  induction fuel as [|fuel IH]; intros count limit o w.
  - cbn [debate_loop].
    destruct (should_continue_debate_spec o w) as [go [o1 [w1 [Hgo _]]]].
    rewrite (bind_ok _ _ _ _ _ Hgo).
    destruct (go && (count <? limit)%Z)%bool; unfold ret; eauto.
  - cbn [debate_loop].
    destruct (should_continue_debate_spec o w) as [go [o1 [w1 [Hgo _]]]].
    rewrite (bind_ok _ _ _ _ _ Hgo).
    destruct (go && (count <? limit)%Z)%bool; [|unfold ret; eauto].
    destruct (run_debate_round_ok o1 w1) as [outcome [o2 [w2 Hround]]].
    rewrite (bind_ok _ _ _ _ _ Hround).
    destruct outcome as [summary|result]; [apply IH|].
    destruct (res_continue result); [apply IH|unfold ret; eauto].
Qed.


End Robustness.

(** *** The continuation check mutates the cooldowns *)

Lemma should_continue_debate_inv (o : DebateOrchestrator) (w w' : World)
    (go : bool) (o' : DebateOrchestrator) :
  should_continue_debate o w = (Ok (go, o'), w') ->
  (go = false /\ o' = o /\ w' = w
   /\ ((max_rounds o <= round_count o)%Z \/ debate_active o = false))
  \/ ((round_count o < max_rounds o)%Z /\ debate_active o = true
      /\ o' = with_agents o (map cool_down (agents o))).
Proof.
  intro H. unfold should_continue_debate in H.
  destruct (max_rounds o <=? round_count o)%Z eqn:E.
  - apply Z.leb_le in E. inversion H; subst. left. repeat split. left. exact E.
  - apply Z.leb_gt in E. destruct (debate_active o) eqn:Ea; cbn [negb] in H.
    + destruct (collect_intent_spec o w) as [scores [w1 [Hc _]]].
      rewrite (bind_ok _ _ _ _ _ Hc) in H. inversion H; subst.
      right. repeat split. exact E.
    + inversion H; subst. left. repeat split. right. reflexivity.
Qed.

Lemma run_debate_round_played (o : DebateOrchestrator) (w w' : World)
    (r : RoundResult) (o' : DebateOrchestrator) :
  run_debate_round o w = (Ok (Played r, o'), w') ->
  exists o1 w1 scores w2 selected w3 before_flag w4,
    should_continue_debate o w = (Ok (true, o1), w1)
    /\ collect_intent_to_speak (with_round_count o1 (round_count o1 + 1)%Z) w1
       = (Ok (scores,
              with_agents (with_round_count o1 (round_count o1 + 1)%Z)
                          (map cool_down (agents o1))), w2)
    /\ select_speakers
         (with_agents (with_round_count o1 (round_count o1 + 1)%Z)
                      (map cool_down (agents o1))) scores w2
       = (Ok (selected, res_intent_scores r), w3)
    /\ should_continue_debate before_flag w4 = (Ok (res_continue r, o'), w').
Proof.
  intro H. unfold run_debate_round in H.
  apply bind_inv in H. destruct H as [[go o1] [w1 [Hgo H]]].
  destruct go; cbn [negb] in H.
  2:{ unfold conclude in H. apply bind_inv in H.
      destruct H as [[s o2] [w2 [_ H]]]. inversion H. }
  apply bind_inv in H. destruct H as [[scores o3] [w2 [Hcollect H]]].
  destruct (collect_intent_spec (with_round_count o1 (round_count o1 + 1)%Z) w1)
    as [scores' [w2' [Hc' _]]].
  rewrite Hc' in Hcollect. inversion Hcollect; subst scores' o3 w2'. clear Hcollect.
  destruct scores as [|c rest].
  { unfold conclude in H. apply bind_inv in H.
    destruct H as [[s o4] [w4 [_ H]]]. inversion H. }
  apply bind_inv in H. destruct H as [[selected sorted] [w3 [Hsel H]]].
  destruct selected as [|s0 selected].
  { unfold conclude in H. apply bind_inv in H.
    destruct H as [[s o4] [w4 [_ H]]]. inversion H. }
  apply bind_inv in H. destruct H as [[responses o4] [w4 [_ H]]].
  apply bind_inv in H. destruct H as [o5 [w5 [_ H]]].
  apply bind_inv in H. destruct H as [[continue o6] [w6 [Hflag H]]].
  inversion H; subst. cbn [res_intent_scores res_continue].
  do 8 eexists. split; [exact Hgo|]. split; [exact Hc'|]. split; [exact Hsel|].
  exact Hflag.
Qed.

Lemma cool_down_twice (a : PhilosopherAgent) :
  (0 <= cooldown a <= 2)%Z -> cooldown (cool_down (cool_down a)) = 0%Z.
Proof.
  intro H. unfold cool_down, reduce_cooldown.
  destruct (cooldown a =? 0)%Z eqn:E1.
  - rewrite E1. apply Z.eqb_eq in E1. exact E1.
  - apply Z.eqb_neq in E1.
    destruct (0 <? cooldown a)%Z eqn:E2; [|apply Z.ltb_ge in E2; lia].
    cbn [with_cooldown cooldown].
    destruct (cooldown a - 1 =? 0)%Z eqn:E3.
    + cbn [with_cooldown cooldown]. apply Z.eqb_eq in E3. exact E3.
    + apply Z.eqb_neq in E3.
      destruct (0 <? cooldown a - 1)%Z eqn:E4; [|apply Z.ltb_ge in E4; lia].
      cbn [with_cooldown cooldown]. lia.
Qed.

Lemma cool_down_positive (a : PhilosopherAgent) :
  (0 < cooldown a)%Z -> cool_down a = with_cooldown a (cooldown a - 1).
Proof.
  intro H. unfold cool_down, reduce_cooldown.
  destruct (cooldown a =? 0)%Z eqn:E; [apply Z.eqb_eq in E; lia|].
  destruct (0 <? cooldown a)%Z eqn:E2; [reflexivity|apply Z.ltb_ge in E2; lia].
Qed.

Lemma select_speakers_sorted (o : DebateOrchestrator) (scores : list (nat * Q))
    (w w' : World) (selected : list nat) (sorted : list (nat * Q)) :
  select_speakers o scores w = (Ok (selected, sorted), w') ->
  Permutation sorted scores.
Proof.
  unfold select_speakers. destruct scores as [|c rest].
  - intro H. inversion H; subst. apply Permutation_refl.
  - pose proof (sorted_desc_perm snd (c :: rest)) as Hperm.
    remember (sorted_desc snd (c :: rest)) as sorted0. cbv zeta.
    destruct (Nat.leb _ _); [destruct (Qeq_bool _ 0)|]; intro H.
    + apply bind_inv in H. destruct H as [l [w1 [_ H]]]. inversion H; subst. exact Hperm.
    + apply bind_inv in H. destruct H as [l [w1 [_ H]]]. inversion H; subst. exact Hperm.
    + inversion H; subst. exact Hperm.
Qed.

(* ================================================================== *)
(** ** Further properties of the code *)

(* ------------------------------------------------------------------ *)
(** *** Opinion weights *)

Lemma agreement_score_grows (own_patterns : list string) (message_lower : string) :
  forall opinion : Q,
    opinion <= agreement_score own_patterns message_lower opinion.
Proof.
  unfold agreement_score. induction own_patterns as [|p rest IH]; intro opinion.
  - cbn. lra.
  - cbn [fold_left]. destruct (Py.contains p message_lower).
    + specialize (IH (opinion + 0.3)). lra.
    + apply IH.
Qed.

(** X1. The lower clamp of [_calculate_opinion_weight] is never reached:
    the weight is always strictly above -1 (only two deductions exist, of
    0.2 and of 0.4, each made at most once; the margin to -1 is far larger
    than the rounding of the program's floating-point sums), and it is at
    most 1.  A negative weight has one of two causes: the speaker's philosophy is
    listed as opposed to the agent's, or the message holds a word of
    disagreement together with the agent's name or philosophy. *)
Theorem opinion_weight_never_reaches_the_lower_clamp
    (a : PhilosopherAgent) (message : string) (speaker_phil : option string) :
  let weight := _calculate_opinion_weight a message speaker_phil in
  let message_lower := Py.lower message in
  -1 < weight
  /\ weight <= 1
  /\ (weight < 0 ->
      (exists p, speaker_phil = Some p
                 /\ Py.mem (Py.lower p)
                      (Py.get opposing_philosophies (Py.lower (philosophy a)) []) = true)
      \/ ((Py.contains "disagree" message_lower || Py.contains "wrong" message_lower
           || Py.contains "reject" message_lower)%bool = true
          /\ (Py.contains (Py.lower (name a)) message_lower
              || Py.contains (Py.lower (philosophy a)) message_lower)%bool = true)).
Proof.
  cbv zeta. unfold _calculate_opinion_weight.
  pose proof (agreement_score_grows
                (Py.get agreement_patterns (Py.lower (philosophy a)) [])
                (Py.lower message) 0) as Hgrow.
  set (score := agreement_score _ _ 0) in *.
  set (opposed := match speaker_phil with Some p => _ | None => false end).
  set (words := (Py.contains "disagree" (Py.lower message)
                 || Py.contains "wrong" (Py.lower message)
                 || Py.contains "reject" (Py.lower message))%bool).
  set (named := (Py.contains (Py.lower (name a)) (Py.lower message)
                 || Py.contains (Py.lower (philosophy a)) (Py.lower message))%bool).
  set (opinion :=
         if Py.any_in compelling_phrases (Py.lower message)
         then (if words then if named then (if opposed then score - 0.2 else score) - 0.4
                             else if opposed then score - 0.2 else score
               else if opposed then score - 0.2 else score) + 0.2
         else (if words then if named then (if opposed then score - 0.2 else score) - 0.4
                             else if opposed then score - 0.2 else score
               else if opposed then score - 0.2 else score)).
  assert (Hlow : - (6 # 10) <= opinion).
  { unfold opinion.
    destruct (Py.any_in compelling_phrases (Py.lower message)), words, named, opposed; lra. }
  assert (Hcause : opinion < 0 -> opposed = true \/ (words = true /\ named = true)).
  { unfold opinion.
    destruct (Py.any_in compelling_phrases (Py.lower message)), words, named, opposed;
      intro H; try (left; reflexivity); try (right; split; reflexivity); lra. }
  assert (Hclamp : Py.max (-1) (Py.min 1 opinion) == Py.min 1 opinion).
  { unfold Py.max. destruct (Py.Qltb (-1) (Py.min 1 opinion)) eqn:E; [reflexivity|].
    apply Qltb_false in E. unfold Py.min in *.
    destruct (Py.Qltb opinion 1) eqn:E1; lra. }
  assert (Hmin : Py.min 1 opinion <= 1 /\ Py.min 1 opinion <= opinion
                 /\ (- (6 # 10) <= Py.min 1 opinion)).
  { unfold Py.min. destruct (Py.Qltb opinion 1) eqn:E1.
    - apply Qltb_true in E1. lra.
    - apply Qltb_false in E1. lra. }
  split; [rewrite Hclamp; lra|]. split; [rewrite Hclamp; tauto|].
  intro Hneg. rewrite Hclamp in Hneg.
  assert (Hop : opinion < 0).
  { unfold Py.min in Hneg. destruct (Py.Qltb opinion 1); lra. }
  destruct (Hcause Hop) as [Ho|[Hw Hn]].
  - left. unfold opposed in Ho. destruct speaker_phil as [p|]; [|discriminate].
    exists p. split; [reflexivity|]. apply andb_true_iff in Ho. tauto.
  - right. split; assumption.
Qed.

(* ------------------------------------------------------------------ *)
(** *** Recording a message *)

Lemma filter_all {A : Type} (f : A -> bool) (l : list A) :
  (forall x, In x l -> f x = true) -> filter f l = l.
Proof.
  induction l as [|x l IH]; intro H; [reflexivity|].
  cbn [filter]. rewrite (H x (or_introl eq_refl)). f_equal.
  apply IH. intros y Hy. apply H. right. exact Hy.
Qed.

(** X2. [update_memory] stores the message only when its importance exceeds
    0.2: at 0.2 or less the call just removes the faded entries, above 0.2
    the new entry goes to the end of the store as long as there is room.
    The importance the orchestrator computes always exceeds 0.2. *)
Theorem update_memory_stores_above_0_2
    (a : PhilosopherAgent) (message : string) (importance_score : Q)
    (speaker_phil : option string) :
  let kept := memory (_clean_decayed_memories a) in
  let entry := recorded_entry a message importance_score speaker_phil in
  let recorded := update_memory a message importance_score speaker_phil in
  (importance_score <= 0.2 -> (length kept <= 15)%nat -> memory recorded = kept)
  /\ (0.2 < importance_score -> (length kept < 15)%nat ->
      memory recorded = (kept ++ [entry])%list)
  /\ (forall observer, 0.2 < _calculate_message_importance message observer)
  /\ (forall m, In m kept <-> In m (memory a) /\ 0.2 < importance m).
Proof.
  cbv zeta. rewrite update_memory_unfold. cbv zeta.
  unfold record_candidates. rewrite filter_app.
  cbn [_clean_decayed_memories with_memory memory filter recorded_entry importance].
  split; [|split; [|split]].
  - intros Hlow Hlen.
    assert (E : Py.Qltb 0.2 importance_score = false) by (apply Qltb_false; exact Hlow).
    rewrite E, app_nil_r.
    destruct (Nat.ltb_spec 15 (length (filter (fun m => Py.Qltb 0.2 (importance m))
                                              (memory a)))); [lia|reflexivity].
  - intros Hhigh Hlen.
    assert (E : Py.Qltb 0.2 importance_score = true) by (apply Qltb_true; exact Hhigh).
    rewrite E.
    match goal with |- (if ?c then _ else _) = _ => destruct c eqn:Ec end; [|reflexivity].
    apply Nat.ltb_lt in Ec. rewrite length_app in Ec. cbn [length] in Ec. lia.
  - intro observer. pose proof (message_importance_range message observer). lra.
  - intro m. rewrite filter_In, Qltb_true. tauto.
Qed.

Lemma insert_desc_last {A : Type} (key : A -> Q) (x y : A) (l : list A) :
  key x <= key y ->
  insert_desc key y (l ++ [x]) = (insert_desc key y l ++ [x])%list.
Proof.
  intro H. induction l as [|z l IH].
  - cbn. apply Qle_bool_iff in H. rewrite H. reflexivity.
  - cbn [app insert_desc]. destruct (Qle_bool (key z) (key y)); [reflexivity|].
    rewrite IH. reflexivity.
Qed.

Lemma sorted_desc_last {A : Type} (key : A -> Q) (x : A) (l : list A) :
  (forall y, In y l -> key x <= key y) ->
  sorted_desc key (l ++ [x]) = (sorted_desc key l ++ [x])%list.
Proof.
  unfold sorted_desc. induction l as [|y l IH]; intro H; [reflexivity|].
  cbn [app fold_right]. rewrite IH by (intros z Hz; apply H; right; exact Hz).
  apply insert_desc_last. apply H. left. reflexivity.
Qed.

(** X3. A full store (15 entries, none faded) forgets a message at once
    when no stored entry ranks below it, ties included: the new entry is cut
    off, and the store is left sorted by rank, highest first. *)
Theorem full_store_drops_weakest_newcomer
    (a : PhilosopherAgent) (message : string) (importance_score : Q)
    (speaker_phil : option string) :
  length (memory a) = 15%nat ->
  (forall m, In m (memory a) ->
             0.2 < importance m
             /\ memory_rank (recorded_entry a message importance_score speaker_phil)
                <= memory_rank m) ->
  0.2 < importance_score ->
  memory (update_memory a message importance_score speaker_phil)
  = sorted_desc memory_rank (memory a).
Proof.
  intros Hlen Hall Himp. rewrite update_memory_unfold. cbv zeta.
  unfold record_candidates.
  rewrite filter_all.
  2:{ intros m Hm. apply Qltb_true. apply in_app_or in Hm. destruct Hm as [Hm|[<-|[]]].
      - apply Hall. exact Hm.
      - exact Himp. }
  rewrite length_app, Hlen. cbn [length Nat.add Nat.ltb Nat.leb].
  rewrite sorted_desc_last by (intros y Hy; apply Hall; exact Hy).
  rewrite firstn_app.
  assert (Hs : length (sorted_desc memory_rank (memory a)) = 15%nat).
  { rewrite (Permutation_length (sorted_desc_perm memory_rank (memory a))). exact Hlen. }
  rewrite Hs, Nat.sub_diag, firstn_O, app_nil_r.
  rewrite <- Hs. apply firstn_all.
Qed.

(* ------------------------------------------------------------------ *)
(** *** Repeated decay *)

Lemma iter_decay_memory (n : nat) (a : PhilosopherAgent) :
  memory (Nat.iter n _apply_belief_decay a)
  = map (Nat.iter n (decay_entry (memory_decay_rate a))) (memory a)
  /\ memory_decay_rate (Nat.iter n _apply_belief_decay a) = memory_decay_rate a.
Proof.
  induction n as [|n [IHm IHr]].
  - cbn [Nat.iter]. split; [|reflexivity]. symmetry. apply map_id.
  - change (Nat.iter (S n) _apply_belief_decay a)
      with (_apply_belief_decay (Nat.iter n _apply_belief_decay a)).
    remember (Nat.iter n _apply_belief_decay a) as b eqn:Hb. clear Hb.
    unfold _apply_belief_decay. cbn [with_memory memory memory_decay_rate].
    split; [|exact IHr].
    rewrite IHm, IHr, map_map. reflexivity.
Qed.

Lemma decay_entry_bound (rate : Q) (m : MemoryEntry) (B : Q) (k : Z) :
  (5 # 100) <= rate -> (0 <= k <= 17)%Z ->
  0 <= importance m /\ importance m <= B /\ (k <= decay_rounds m)%Z ->
  0 <= importance (decay_entry rate m)
  /\ importance (decay_entry rate m) <= B * (1 - (5 # 100) * inject_Z (k + 1))
  /\ (k + 1 <= decay_rounds (decay_entry rate m))%Z.
Proof.
  intros Hrate Hk [Hpos [Hle Hage]].
  unfold decay_entry. cbn [importance decay_rounds].
  set (f := Py.max 0.1 (1 - rate * inject_Z (decay_rounds m + 1))).
  assert (Hk1 : inject_Z 1 <= inject_Z (k + 1)) by (rewrite <- Zle_Qle; lia).
  assert (Hk2 : inject_Z (k + 1) <= inject_Z 18) by (rewrite <- Zle_Qle; lia).
  assert (Hk3 : inject_Z (k + 1) <= inject_Z (decay_rounds m + 1))
    by (rewrite <- Zle_Qle; lia).
  change (inject_Z 1) with 1 in Hk1. change (inject_Z 18) with 18 in Hk2.
  assert (Hf0 : 0.1 <= f) by apply py_max_le_l.
  assert (Hf1 : f <= 1 - (5 # 100) * inject_Z (k + 1)).
  { apply py_max_lub; [lra|].
    assert ((5 # 100) * inject_Z (k + 1) <= rate * inject_Z (decay_rounds m + 1)); [|lra].
    apply Qle_trans with ((5 # 100) * inject_Z (decay_rounds m + 1)).
    - apply Qmult_le_l; [reflexivity|exact Hk3].
    - apply Qmult_le_compat_r; [exact Hrate|lra]. }
  split; [|split; [|lia]].
  - apply Qmult_le_0_compat; lra.
  - apply Qle_trans with (B * f).
    + apply Qmult_le_compat_r; lra.
    + assert (HB : 0 <= B) by lra. clear - HB Hf1. nra.
Qed.

Lemma seven_decays_fade (rate : Q) (m : MemoryEntry) :
  (5 # 100) <= rate ->
  0 <= importance m -> importance m <= 1 -> (0 <= decay_rounds m)%Z ->
  importance (Nat.iter 7 (decay_entry rate) m) <= 0.2.
Proof.
  intros Hrate H0 H1 Hage.
  change (Nat.iter 7 (decay_entry rate) m)
    with (decay_entry rate (decay_entry rate (decay_entry rate (decay_entry rate
            (decay_entry rate (decay_entry rate (decay_entry rate m))))))).
  assert (S0 : 0 <= importance m /\ importance m <= 1 /\ (0 <= decay_rounds m)%Z) by tauto.
  pose proof (decay_entry_bound rate _ _ 0 Hrate ltac:(lia) S0) as S1.
  pose proof (decay_entry_bound rate _ _ 1 Hrate ltac:(lia) S1) as S2.
  pose proof (decay_entry_bound rate _ _ 2 Hrate ltac:(lia) S2) as S3.
  pose proof (decay_entry_bound rate _ _ 3 Hrate ltac:(lia) S3) as S4.
  pose proof (decay_entry_bound rate _ _ 4 Hrate ltac:(lia) S4) as S5.
  pose proof (decay_entry_bound rate _ _ 5 Hrate ltac:(lia) S5) as S6.
  pose proof (decay_entry_bound rate _ _ 6 Hrate ltac:(lia) S6) as S7.
  destruct S7 as [_ [S7 _]].
  eapply Qle_trans; [exact S7|]. vm_compute. discriminate.
Qed.

(** X4. Memories last at most seven reflections: with the decay rate at
    0.05 or more, seven decay steps bring every entry that started with
    importance at most 1 down to 0.2 or less, so the next [update_memory]
    removes all of them and keeps at most the message it records. *)
Theorem memories_fade_within_seven_decay_steps (a : PhilosopherAgent) :
  (5 # 100) <= memory_decay_rate a ->
  Forall (fun m => 0 <= importance m /\ importance m <= 1 /\ (0 <= decay_rounds m)%Z)
         (memory a) ->
  let faded := Nat.iter 7 _apply_belief_decay a in
  length (memory faded) = length (memory a)
  /\ Forall (fun m => importance m <= 0.2) (memory faded)
  /\ forall message importance_score speaker_phil,
       memory (update_memory faded message importance_score speaker_phil)
       = if Py.Qltb 0.2 importance_score
         then [recorded_entry faded message importance_score speaker_phil]
         else [].
Proof.
  intros Hrate Hall faded.
  destruct (iter_decay_memory 7 a) as [Hmem _]. fold faded in Hmem.
  assert (Hfaded : Forall (fun m => importance m <= 0.2) (memory faded)).
  { rewrite Hmem. apply Forall_map. eapply Forall_impl; [|exact Hall].
    intros m [H0 [H1 Hage]]. apply seven_decays_fade; assumption. }
  split; [rewrite Hmem; apply length_map|]. split; [exact Hfaded|].
  intros message importance_score speaker_phil.
  rewrite update_memory_unfold. cbv zeta. unfold record_candidates.
  rewrite filter_app.
  assert (Hnone : filter (fun m => Py.Qltb 0.2 (importance m)) (memory faded) = []).
  { clear Hmem. induction (memory faded) as [|m l IH]; [reflexivity|].
    inversion Hfaded as [|? ? Hm Hl]; subst. cbn [filter].
    apply Qltb_false in Hm. rewrite Hm. apply IH. exact Hl. }
  rewrite Hnone. cbn [app filter recorded_entry importance].
  destruct (Py.Qltb 0.2 importance_score); reflexivity.
Qed.

(** How one entry's opinion weight relates to its earlier value. *)
Lemma decay_entry_opinion (rate : Q) (m : MemoryEntry) :
  Qabs (opinion_weight (decay_entry rate m)) <= Qabs (opinion_weight m)
  /\ (0 <= opinion_weight m -> 0 <= opinion_weight (decay_entry rate m))
  /\ (opinion_weight m <= 0 -> opinion_weight (decay_entry rate m) <= 0)
  /\ ((95 # 1000) < Qabs (opinion_weight m) ->
      (95 # 1000) < Qabs (opinion_weight (decay_entry rate m)))
  /\ (Qabs (opinion_weight m) <= 0.1 ->
      opinion_weight (decay_entry rate m) = opinion_weight m).
Proof.
  unfold decay_entry. cbn [opinion_weight].
  destruct (Py.Qltb 0.1 (Qabs (opinion_weight m))) eqn:E.
  - apply Qltb_true in E.
    assert (Habs : Qabs (opinion_weight m * 0.95) == Qabs (opinion_weight m) * 0.95).
    { rewrite Qabs_Qmult. reflexivity. }
    pose proof (Qabs_nonneg (opinion_weight m)) as Hnn.
    split; [rewrite Habs; lra|]. split; [intro; nra|]. split; [intro; nra|].
    split; [intros _; rewrite Habs; lra|].
    intro H. lra.
  - split; [lra|]. split; [tauto|]. split; [tauto|]. split; [tauto|]. reflexivity.
Qed.

Lemma iter_decay_entry_opinion (rate : Q) (n : nat) (m : MemoryEntry) :
  Qabs (opinion_weight (Nat.iter n (decay_entry rate) m)) <= Qabs (opinion_weight m)
  /\ (0 <= opinion_weight m -> 0 <= opinion_weight (Nat.iter n (decay_entry rate) m))
  /\ (opinion_weight m <= 0 -> opinion_weight (Nat.iter n (decay_entry rate) m) <= 0)
  /\ ((95 # 1000) < Qabs (opinion_weight m) ->
      (95 # 1000) < Qabs (opinion_weight (Nat.iter n (decay_entry rate) m)))
  /\ (Qabs (opinion_weight m) <= 0.1 ->
      opinion_weight (Nat.iter n (decay_entry rate) m) = opinion_weight m)
  /\ mem_content (Nat.iter n (decay_entry rate) m) = mem_content m
  /\ decay_rounds (Nat.iter n (decay_entry rate) m) = (decay_rounds m + Z.of_nat n)%Z.
Proof.
  induction n as [|n IH].
  - change (Nat.iter 0 (decay_entry rate) m) with m.
    split; [apply Qle_refl|]. split; [tauto|]. split; [tauto|].
    split; [tauto|]. split; [reflexivity|]. split; [reflexivity|].
    rewrite Z.add_0_r. reflexivity.
  - change (Nat.iter (S n) (decay_entry rate) m)
      with (decay_entry rate (Nat.iter n (decay_entry rate) m)).
    destruct IH as [I1 [I2 [I3 [I4 [I5 [I6 I7]]]]]].
    destruct (decay_entry_opinion rate (Nat.iter n (decay_entry rate) m))
      as [D1 [D2 [D3 [D4 D5]]]].
    split; [eapply Qle_trans; [exact D1|exact I1]|].
    split; [tauto|]. split; [tauto|]. split; [tauto|].
    split; [|split].
    + intro H. rewrite D5; [apply I5; exact H|]. rewrite (I5 H). exact H.
    + exact I6.
    + cbn [decay_entry decay_rounds]. rewrite I7. lia.
Qed.

(** X5. Decay moves opinion weights towards neutral without reaching it:
    after any number of decay steps an opinion weight keeps its sign, its
    magnitude has not grown, a magnitude above 0.095 is still above 0.095,
    and a weight of magnitude 0.1 or less is unchanged.  The entries keep
    their order and text, and each has aged by the number of steps. *)
Theorem opinions_fade_but_never_vanish (a : PhilosopherAgent) (n : nat) :
  Forall2 (fun before after =>
             Qabs (opinion_weight after) <= Qabs (opinion_weight before)
             /\ (0 <= opinion_weight before -> 0 <= opinion_weight after)
             /\ (opinion_weight before <= 0 -> opinion_weight after <= 0)
             /\ ((95 # 1000) < Qabs (opinion_weight before) ->
                 (95 # 1000) < Qabs (opinion_weight after))
             /\ (Qabs (opinion_weight before) <= 0.1 ->
                 opinion_weight after = opinion_weight before)
             /\ mem_content after = mem_content before
             /\ decay_rounds after = (decay_rounds before + Z.of_nat n)%Z)
          (memory a) (memory (Nat.iter n _apply_belief_decay a)).
Proof.
  destruct (iter_decay_memory n a) as [Hmem _]. rewrite Hmem. clear Hmem.
  induction (memory a) as [|m l IH]; [constructor|].
  cbn [map]. constructor; [|exact IH].
  apply iter_decay_entry_opinion.
Qed.

(* ------------------------------------------------------------------ *)
(** *** Relevant memories and the prompt they are added to *)

Lemma last_n_last_n {A : Type} (n m : nat) (l : list A) :
  (n <= m)%nat -> Py.last_n n (Py.last_n m l) = Py.last_n n l.
Proof.
  intro H. unfold Py.last_n. rewrite skipn_skipn, length_skipn. f_equal. lia.
Qed.

Lemma recent_keywords_window (history : list Message) :
  recent_keywords (Py.last_n 5 history) = recent_keywords history.
Proof.
  unfold recent_keywords. rewrite last_n_last_n by lia. reflexivity.
Qed.

Lemma recent_keywords_tokens (recent_messages : list Message) (w : string) :
  In w (recent_keywords recent_messages) <-> In w (recent_tokens recent_messages).
Proof.
  rewrite <- recent_keywords_In. unfold recent_keywords.
  rewrite last_n_idem. reflexivity.
Qed.

Lemma prefix_app (p s : string) : prefix p (p ++ s) = true.
Proof.
  induction p as [|c p IH]; [destruct s; reflexivity|].
  cbn. destruct (ascii_dec c c) as [_|N]; [exact IH|contradiction].
Qed.

Lemma prefix_refl (p : string) : prefix p p = true.
Proof.
  induction p as [|c p IH]; [reflexivity|].
  cbn. destruct (ascii_dec c c) as [_|N]; [exact IH|contradiction].
Qed.

(** X8. [_get_relevant_memories] returns stored entries only, and since
    relevance takes more than three common words, short texts never match:
    an entry whose text has three distinct words or fewer is never returned,
    and nothing is returned while the last three messages hold three
    distinct words or fewer together. *)
Theorem relevance_needs_four_distinct_words
    (a : PhilosopherAgent) (recent_messages : list Message) (m : MemoryEntry) :
  In m (_get_relevant_memories a recent_messages) ->
  In m (memory a)
  /\ (4 <= length (nodup string_dec (memory_tokens m)))%nat
  /\ (4 <= length (nodup string_dec (recent_tokens recent_messages)))%nat.
Proof.
  unfold _get_relevant_memories. rewrite filter_In. intros [Hin Hrel].
  split; [exact Hin|].
  unfold is_relevant in Hrel. apply Nat.ltb_lt in Hrel.
  set (common := Py.intersection (recent_keywords recent_messages)
                   (Py.to_set (Py.split (Py.lower (mem_content m))))) in *.
  assert (Hnd : NoDup common).
  { apply set_inter_nodup; [apply recent_keywords_NoDup|apply to_set_NoDup]. }
  split.
  - apply Nat.le_trans with (length common); [lia|].
    apply NoDup_incl_length; [exact Hnd|].
    intros w Hw. apply nodup_In. apply set_inter_elim2 in Hw.
    apply (proj1 (to_set_In _ _)) in Hw. exact Hw.
  - apply Nat.le_trans with (length common); [lia|].
    apply NoDup_incl_length; [exact Hnd|].
    intros w Hw. apply nodup_In. apply set_inter_elim1 in Hw.
    apply (proj1 (recent_keywords_tokens _ _)). exact Hw.
Qed.

Lemma no_recent_message_no_relevant_memory (a : PhilosopherAgent) :
  _get_relevant_memories a [] = [].
Proof.
  unfold _get_relevant_memories.
  induction (memory a) as [|m l IH]; [reflexivity|].
  cbn [filter]. rewrite IH.
  replace (is_relevant (recent_keywords []) m) with false; [reflexivity|].
  symmetry. unfold is_relevant, recent_keywords, Py.intersection. cbn. reflexivity.
Qed.

(** X7. [generate_memory_influenced_prompt] only ever appends to the base
    prompt.  It hands the base prompt back untouched for an agent that has
    never been selected to speak (it has no [chat_history] attribute yet)
    and for an agent without memories; and although it passes the last five
    messages on, only the last three decide which memories are quoted. *)
Theorem memory_context_is_only_appended
    (a : PhilosopherAgent) (history : list Message) (base_prompt : string) :
  Py.startswith (generate_memory_influenced_prompt a history base_prompt) base_prompt
    = true
  /\ (has_chat_history a = false ->
      generate_memory_influenced_prompt a history base_prompt = base_prompt)
  /\ (memory a = [] ->
      generate_memory_influenced_prompt a history base_prompt = base_prompt)
  /\ (forall other : list Message,
        Py.last_n 3 other = Py.last_n 3 history ->
        generate_memory_influenced_prompt a other base_prompt
        = generate_memory_influenced_prompt a history base_prompt).
Proof.
  split; [|split; [|split]].
  - unfold Py.startswith, generate_memory_influenced_prompt. cbv zeta.
    destruct (_get_relevant_memories a _) as [|m l]; [apply prefix_refl|].
    apply prefix_app.
  - intro H. unfold generate_memory_influenced_prompt. rewrite H. cbv zeta.
    rewrite no_recent_message_no_relevant_memory. reflexivity.
  - intro H. unfold generate_memory_influenced_prompt, _get_relevant_memories.
    rewrite H. reflexivity.
  - intros other H. unfold generate_memory_influenced_prompt. cbv zeta.
    assert (E : forall h, _get_relevant_memories a (Py.last_n 5 h)
                          = filter (is_relevant
                                      (fold_left (fun keywords msg =>
                                         Py.update keywords
                                           (Py.split (Py.lower (content msg))))
                                         (Py.last_n 3 h) (empty_set string)))
                                   (memory a)).
    { intro h. unfold _get_relevant_memories. rewrite recent_keywords_window.
      reflexivity. }
    destruct (has_chat_history a); [|reflexivity].
    rewrite (E other), (E history), H. reflexivity.
Qed.

(* ------------------------------------------------------------------ *)
(** *** What is assumed of the [random] module from here on *)

Section Rounds.

Hypothesis uniform_between :
  forall (a b : Q) (w : World),
    a <= b -> a <= fst (random_uniform a b w) /\ fst (random_uniform a b w) <= b.

Hypothesis random_sample_subset :
  forall (population : list nat) (k : nat) (w : World),
    (k <= length population)%nat ->
    incl (fst (random_sample population k w)) population.

Hypothesis random_sample_length :
  forall (population : list nat) (k : nat) (w : World),
    (k <= length population)%nat ->
    length (fst (random_sample population k w)) = k.

Hypothesis random_sample_distinct :
  forall (population : list nat) (k : nat) (w : World),
    (k <= length population)%nat -> NoDup population ->
    NoDup (fst (random_sample population k w)).

Hypothesis random_choices_member :
  forall (population : list nat) (weights : list Q) (w : World),
    population <> [] -> In (fst (random_choices population weights w)) population.

(** *** [should_respond] *)

Lemma message_reactivity_named (a : PhilosopherAgent) (keywords : list string)
    (score : Q) (msg : Message) :
  speaker msg <> name a ->
  Py.contains (Py.lower (name a)) (Py.lower (content msg)) = true ->
  score + 0.5 <= message_reactivity a keywords score msg.
Proof.
  intros Hother Hnamed. unfold message_reactivity. cbv zeta.
  apply String.eqb_neq in Hother. rewrite Hother, Hnamed.
  destruct (Py.any_in keywords _), (Py.contains "?" _),
    (Py.any_in disagreement_patterns _), (Py.any_in _ _); lra.
Qed.

Lemma fold_message_reactivity_named (a : PhilosopherAgent) (keywords : list string)
    (l : list Message) (msg : Message) :
  In msg l -> speaker msg <> name a ->
  Py.contains (Py.lower (name a)) (Py.lower (content msg)) = true ->
  forall score, score + 0.5 <= fold_left (message_reactivity a keywords) l score.
Proof.
  intros Hin Hother Hnamed. induction l as [|m l IH]; [destruct Hin|].
  intro score. cbn [fold_left]. destruct Hin as [->|Hin].
  - eapply Qle_trans; [apply (message_reactivity_named a keywords score msg Hother Hnamed)|].
    apply fold_message_reactivity_grows.
  - eapply Qle_trans; [|apply (IH Hin)].
    pose proof (message_reactivity_grows a keywords score m). lra.
Qed.

Lemma fold_message_reactivity_own (a : PhilosopherAgent) (keywords : list string)
    (l : list Message) :
  (forall msg, In msg l -> speaker msg = name a) ->
  forall score, fold_left (message_reactivity a keywords) l score = score.
Proof.
  induction l as [|m l IH]; intros Hown score; [reflexivity|].
  cbn [fold_left]. unfold message_reactivity at 2. cbv zeta.
  rewrite (Hown m (or_introl eq_refl)), String.eqb_refl.
  apply IH. intros msg Hm. apply Hown. right. exact Hm.
Qed.

(** X6. [should_respond]: an agent that is cooling down declines without a
    score being computed (no random number is drawn), and on an empty
    transcript every agent with a positive threshold declines.  An agent
    that is not cooling down accepts whenever one of the last three messages,
    by someone else, contains its name (threshold at most 0.5), and declines
    when the last three messages are all its own and it has no relevant
    memory (threshold above 0.15). *)
Theorem should_respond_cases
    (a : PhilosopherAgent) (history : list Message) (w : World) :
  ((0 < cooldown a)%Z -> should_respond a history w = (Ok false, w))
  /\ (0 < reactivity_threshold a -> should_respond a [] w = (Ok false, w))
  /\ ((cooldown a <= 0)%Z -> reactivity_threshold a <= 0.5 ->
      (exists msg, In msg (Py.last_n 3 history) /\ speaker msg <> name a
                   /\ Py.contains (Py.lower (name a)) (Py.lower (content msg)) = true) ->
      fst (should_respond a history w) = Ok true)
  /\ ((cooldown a <= 0)%Z -> 0.15 < reactivity_threshold a ->
      (forall msg, In msg (Py.last_n 3 history) -> speaker msg = name a) ->
      _get_relevant_memories a (Py.last_n 3 history) = [] ->
      fst (should_respond a history w) = Ok false).
Proof using uniform_between.
  split; [|split; [|split]].
  - intro H. unfold should_respond. apply Z.ltb_lt in H. rewrite H. reflexivity.
  - intro H. unfold should_respond.
    destruct (0 <? cooldown a)%Z; [reflexivity|].
    unfold compute_reactivity, bind, ret.
    replace (Qle_bool (reactivity_threshold a) 0) with false; [reflexivity|].
    symmetry. apply not_true_is_false. intro E. apply Qle_bool_iff in E. lra.
  - intros Hcool Hthr [msg [Hin [Hother Hnamed]]].
    unfold should_respond.
    destruct (0 <? cooldown a)%Z eqn:E; [apply Z.ltb_lt in E; lia|].
    destruct history as [|m0 history]; [destruct Hin|].
    unfold compute_reactivity, bind, lift, ret.
    pose proof (uniform_between 0 0.15 w ltac:(lra)) as [Hj _].
    destruct (random_uniform 0 0.15 w) as [jitter w']. cbn [fst] in *.
    f_equal. apply Qle_bool_iff.
    assert (Hraw : 0.5 <= raw_reactivity a (m0 :: history)).
    { unfold raw_reactivity. cbv zeta.
      eapply Qle_trans; [|apply fold_memory_grows].
      pose proof (fold_message_reactivity_named a
                    (Py.get philosophy_keywords (Py.lower (philosophy a)) [])
                    _ msg Hin Hother Hnamed 0). lra. }
    apply Qle_trans with 0.5; [exact Hthr|].
    apply py_min_glb; lra.
  - intros Hcool Hthr Hown Hnone.
    unfold should_respond.
    destruct (0 <? cooldown a)%Z eqn:E; [apply Z.ltb_lt in E; lia|].
    destruct history as [|m0 history].
    + unfold compute_reactivity, bind, ret. cbn [fst]. f_equal.
      apply not_true_is_false. intro L. apply Qle_bool_iff in L. lra.
    + unfold compute_reactivity, bind, lift, ret.
      pose proof (uniform_between 0 0.15 w ltac:(lra)) as [_ Hj].
      destruct (random_uniform 0 0.15 w) as [jitter w']. cbn [fst] in *.
      f_equal. apply not_true_is_false. intro L. apply Qle_bool_iff in L.
      assert (Hraw : raw_reactivity a (m0 :: history) = 0).
      { unfold raw_reactivity. cbv zeta. rewrite Hnone. cbn [fold_left].
        apply fold_message_reactivity_own. exact Hown. }
      rewrite Hraw in L.
      pose proof (py_min_le_l (0 + jitter) 1). lra.
Qed.

(** *** [start_debate] *)

Lemma cool_down_idle (a : PhilosopherAgent) : cooldown a = 0%Z -> cool_down a = a.
Proof. intro H. unfold cool_down. rewrite H. reflexivity. Qed.

Lemma map_cool_down_idle (l : list PhilosopherAgent) :
  Forall (fun a => cooldown a = 0%Z) l -> map cool_down l = l.
Proof.
  induction 1 as [|a l Ha _ IH]; [reflexivity|].
  cbn [map]. rewrite (cool_down_idle a Ha), IH. reflexivity.
Qed.

Lemma eligible_from_idle (l : list PhilosopherAgent) :
  Forall (fun a => cooldown a = 0%Z) l ->
  forall i, eligible_from i l = seq i (length l).
Proof.
  induction 1 as [|a l Ha _ IH]; intro i; [reflexivity|].
  cbn [eligible_from length seq]. rewrite Ha. cbn. rewrite IH. reflexivity.
Qed.

(** X9. [start_debate] leaves a transcript of exactly one entry, the
    opening message by the moderator in round 0, with the round counter at 0
    and the debate active.  Of each participant it changes the cooldown
    only, which becomes 0: memories and a modified system message carry over
    from an earlier debate.  In the scoring pass that follows every
    participant is scored, in roster order, and none is changed. *)
Theorem start_debate_resets_the_floor
    (o : DebateOrchestrator) (topic : string) (w : World) :
  let text := fst (start_debate o topic) in
  let o' := snd (start_debate o topic) in
  chat_history o'
  = [ {| speaker := orch_name o; content := text; round := 0%Z;
         msg_philosophy := None |} ]
  /\ round_count o' = 0%Z /\ debate_active o' = true
  /\ current_topic o' = Some topic
  /\ max_rounds o' = max_rounds o
  /\ speakers_per_round o' = speakers_per_round o
  /\ agents o' = map (fun a => with_cooldown a 0%Z) (agents o)
  /\ exists scores w',
       collect_intent_to_speak o' w = (Ok (scores, o'), w')
       /\ map fst scores = seq 0 (length (agents o)).
Proof.
  cbv zeta.
  repeat (split; [reflexivity|]).
  set (o' := snd (start_debate o topic)).
  assert (Hidle : Forall (fun a => cooldown a = 0%Z) (agents o')).
  { unfold o', start_debate. cbn [snd with_history agents].
    apply Forall_map. apply Forall_forall. intros a _. reflexivity. }
  destruct (collect_intent_spec o' w) as [scores [w' [Hc Hfst]]].
  exists scores, w'. rewrite Hc, Hfst.
  rewrite (map_cool_down_idle _ Hidle), (eligible_from_idle _ Hidle).
  split.
  - reflexivity.
  - unfold o', start_debate. cbn [snd with_history agents]. rewrite length_map.
    reflexivity.
Qed.

(** *** [select_speakers]: who is selected, and how many *)

Lemma filter_drops_chosen (pool : list (nat * Q)) (x : nat) :
  NoDup (map fst pool) -> In x (map fst pool) ->
  S (length (filter (fun c => negb (Nat.eqb (fst c) x)) pool)) = length pool.
Proof.
  induction pool as [|[i s] pool IH]; intros Hnd Hin; [destruct Hin|].
  cbn [map fst] in Hnd, Hin. inversion Hnd as [|? ? Hnotin Hnd']; subst.
  cbn [filter fst length]. destruct (Nat.eqb_spec i x) as [->|Hne].
  - cbn [negb]. f_equal. rewrite filter_all; [reflexivity|].
    intros [j t] Hj. cbn [fst]. apply negb_true_iff. apply Nat.eqb_neq.
    intros ->. apply Hnotin. apply (in_map fst) in Hj. exact Hj.
  - cbn [negb length]. f_equal. apply IH; [exact Hnd'|].
    destruct Hin as [Hin|Hin]; [contradiction|exact Hin].
Qed.

Lemma filter_keeps_distinct (pool : list (nat * Q)) (f : nat * Q -> bool) :
  NoDup (map fst pool) -> NoDup (map fst (filter f pool)).
Proof.
  induction pool as [|c pool IH]; intro Hnd; [constructor|].
  cbn [map] in Hnd. inversion Hnd as [|? ? Hnotin Hnd']; subst.
  cbn [filter]. destruct (f c); [|apply IH; exact Hnd'].
  cbn [map]. constructor; [|apply IH; exact Hnd'].
  intro Hin. apply Hnotin. apply in_map_iff in Hin. destruct Hin as [d [Hd Hin]].
  apply filter_In in Hin. rewrite <- Hd. apply in_map. tauto.
Qed.

Lemma weighted_draws_count (n : nat) :
  forall (pool : list (nat * Q)) (selected : list nat) (w w' : World) (l : list nat),
    NoDup (map fst pool) -> NoDup selected ->
    (forall x, In x selected -> ~ In x (map fst pool)) ->
    weighted_draws n pool selected w = (Ok l, w') ->
    NoDup l /\ length l = (length selected + Nat.min n (length pool))%nat.
Proof using random_choices_member.
  induction n as [|n IH]; intros pool selected w w' l Hpool Hsel Hfresh H.
  - cbn in H. inversion H; subst. split; [exact Hsel|]. cbn. lia.
  - cbn [weighted_draws] in H. destruct pool as [|c pool].
    + inversion H; subst. split; [exact Hsel|]. cbn. lia.
    + cbv zeta in H. apply bind_inv in H. destruct H as [chosen [w1 [Hch H]]].
      pose proof (choices_member random_choices_member _ _ _ _ _ Hch) as Hin.
      apply IH in H.
      * destruct H as [Hnd Hlen]. split; [exact Hnd|].
        rewrite Hlen, length_app. cbn [length].
        pose proof (filter_drops_chosen (c :: pool) chosen Hpool Hin) as Hdrop.
        cbn [length] in Hdrop. lia.
      * apply filter_keeps_distinct. exact Hpool.
      * apply NoDup_app; [exact Hsel|repeat constructor; intros []|].
        intros x Hx [<-|[]]. exact (Hfresh _ Hx Hin).
      * intros x Hx Hx'. apply in_app_or in Hx.
        apply in_map_iff in Hx'. destruct Hx' as [d [Hd Hx']].
        apply filter_In in Hx'. destruct Hx' as [Hdin Hneq].
        destruct Hx as [Hx|[<-|[]]].
        -- apply (Hfresh _ Hx). rewrite <- Hd. apply in_map. exact Hdin.
        -- apply negb_true_iff in Hneq. apply Nat.eqb_neq in Hneq. congruence.
Qed.

Lemma NoDup_firstn {A : Type} (n : nat) (l : list A) : NoDup l -> NoDup (firstn n l).
Proof.
  intro H. rewrite <- (firstn_skipn n l) in H. apply NoDup_app_remove_r in H. exact H.
Qed.

Lemma select_speakers_count
    (o : DebateOrchestrator) (scores : list (nat * Q)) (w w' : World)
    (selected : list nat) (sorted : list (nat * Q)) :
  NoDup (map fst scores) ->
  select_speakers o scores w = (Ok (selected, sorted), w') ->
  NoDup selected
  /\ length selected = Nat.min (speakers_per_round o) (length scores)
  /\ incl selected (map fst scores).
Proof using random_sample_subset random_sample_length random_sample_distinct
            random_choices_member.
  intros Hnd H.
  split; [|split;
    [|exact (proj1 (select_speakers_incl random_sample_subset random_choices_member
                      _ _ _ _ _ _ H))]];
  revert H; unfold select_speakers;
  (destruct scores as [|c rest];
   [intro H; inversion H; subst; [constructor || (cbn; lia)]|]);
  pose proof (sorted_desc_perm snd (c :: rest)) as Hperm;
  remember (sorted_desc snd (c :: rest)) as ranked_scores eqn:Hr; clear Hr;
  pose proof (Permutation_length Hperm) as Hlen;
  assert (Hnd' : NoDup (map fst ranked_scores))
    by (apply (Permutation_NoDup (Permutation_sym (Permutation_map fst Hperm))); exact Hnd);
  cbv zeta;
  set (k := Nat.min (speakers_per_round o) (length ranked_scores));
  assert (Hk : (k <= length ranked_scores)%nat) by (unfold k; lia);
  (destruct (Nat.leb_spec k (length ranked_scores)) as [_|Hbad]; [|lia]);
  set (top := firstn (Nat.min (k * 2) (length ranked_scores)) ranked_scores);
  assert (Htop : (k <= length top)%nat) by (unfold top; rewrite length_firstn; lia);
  assert (Hndtop : NoDup (map fst top))
    by (unfold top; rewrite <- firstn_map; apply NoDup_firstn; exact Hnd');
  (destruct (Qeq_bool (sum_weights (map snd top)) 0); intro H;
   apply bind_inv in H; destruct H as [l [w1 [Hdraw H]]]; inversion H; subst l w1).
  - unfold sample in Hdraw. rewrite length_map in Hdraw.
    destruct (Nat.ltb_spec (length top) k); [lia|].
    unfold lift in Hdraw.
    pose proof (random_sample_distinct (map fst top) k w) as Hd.
    destruct (random_sample (map fst top) k w) as [l w1].
    inversion Hdraw; subst. apply Hd; [rewrite length_map; exact Htop|exact Hndtop].
  - apply (weighted_draws_count _ _ _ _ _ _ Hndtop (NoDup_nil nat)) in Hdraw;
      [tauto|intros x []].
  - unfold sample in Hdraw. rewrite length_map in Hdraw.
    destruct (Nat.ltb_spec (length top) k); [lia|].
    unfold lift in Hdraw.
    pose proof (random_sample_length (map fst top) k w) as Hd.
    destruct (random_sample (map fst top) k w) as [l w1].
    inversion Hdraw; subst. cbn [fst] in Hd. rewrite Hd by (rewrite length_map; exact Htop).
    unfold k. cbn [length] in *. lia.
  - apply (weighted_draws_count _ _ _ _ _ _ Hndtop (NoDup_nil nat)) in Hdraw;
      [|intros x []].
    destruct Hdraw as [_ Hdraw]. rewrite Hdraw. cbn [length] in *. unfold k in *. lia.
Qed.

Lemma select_speakers_ranked (o : DebateOrchestrator) (scores : list (nat * Q))
    (w w' : World) (selected : list nat) (sorted : list (nat * Q)) :
  select_speakers o scores w = (Ok (selected, sorted), w') ->
  ranked snd sorted.
Proof.
  unfold select_speakers. destruct scores as [|c rest].
  - intro H. inversion H; subst. exact I.
  - pose proof (sorted_desc_ranked snd (c :: rest)) as Hr.
    remember (sorted_desc snd (c :: rest)) as sorted0. cbv zeta.
    destruct (Nat.leb _ _); [destruct (Qeq_bool _ 0)|]; intro H.
    + apply bind_inv in H. destruct H as [l [w1 [_ H]]]. inversion H; subst. exact Hr.
    + apply bind_inv in H. destruct H as [l [w1 [_ H]]]. inversion H; subst. exact Hr.
    + inversion H; subst. exact Hr.
Qed.

(** X10. Nobody is selected twice in a round: given a score list in which
    every participant occurs once, [select_speakers] returns distinct
    participants of that list, and exactly
    [min(speakers_per_round, len(intent_scores))] of them. *)
Theorem select_speakers_picks_distinct_speakers
    (o : DebateOrchestrator) (scores : list (nat * Q)) (w w' : World)
    (selected : list nat) (sorted : list (nat * Q)) :
  NoDup (map fst scores) ->
  select_speakers o scores w = (Ok (selected, sorted), w') ->
  NoDup selected
  /\ length selected = Nat.min (speakers_per_round o) (length scores)
  /\ incl selected (map fst scores).
Proof using random_sample_subset random_sample_length random_sample_distinct
            random_choices_member.
  apply select_speakers_count.
Qed.

(** *** The roster, position by position *)

Lemma nth_error_map_at {A : Type} (f : A -> A) (l : list A) :
  forall i j,
    nth_error (map_at i f l) j
    = if Nat.eqb j i then option_map f (nth_error l j) else nth_error l j.
Proof.
  induction l as [|x l IH]; intros [|i] [|j]; cbn; try reflexivity.
  - destruct (Nat.eqb j i); reflexivity.
  - apply IH.
Qed.

Lemma nth_error_map_except {A : Type} (f : A -> A) (l : list A) :
  forall i j,
    nth_error (map_except i f l) j
    = if Nat.eqb j i then nth_error l j else option_map f (nth_error l j).
Proof.
  induction l as [|x l IH]; intros [|i] [|j]; cbn; try reflexivity.
  - destruct (Nat.eqb j i); reflexivity.
  - apply nth_error_map.
  - apply IH.
Qed.

Lemma map_at_const {A : Type} (f : A -> A) (l : list A) :
  forall i a, nth_error l i = Some a -> map_at i (fun _ => f a) l = map_at i f l.
Proof.
  induction l as [|x l IH]; intros [|i] a H; cbn in *; try discriminate.
  - congruence.
  - f_equal. apply IH. exact H.
Qed.

Lemma map_at_outside {A : Type} (f : A -> A) (l : list A) :
  forall i, nth_error l i = None -> map_at i f l = l.
Proof.
  induction l as [|x l IH]; intros [|i] H; cbn in *; try reflexivity; try discriminate.
  f_equal. apply IH. exact H.
Qed.

(** Two lists related position by position. *)
Lemma Forall2_positions {A : Type} (R : A -> A -> Prop) :
  forall (l l' : list A) (g : nat -> A -> A),
    (forall i, nth_error l' i = option_map (g i) (nth_error l i)) ->
    (forall i a, nth_error l i = Some a -> R a (g i a)) ->
    Forall2 R l l'.
Proof.
  induction l as [|x l IH]; intros l' g Hnth HR.
  - destruct l' as [|y l']; [constructor|]. specialize (Hnth 0%nat). discriminate Hnth.
  - destruct l' as [|y l']; [specialize (Hnth 0%nat); discriminate Hnth|].
    constructor.
    + pose proof (Hnth 0%nat) as H0. cbn in H0. inversion H0; subst.
      apply (HR 0%nat). reflexivity.
    + apply (IH l' (fun i => g (S i))).
      * intro i. apply (Hnth (S i)).
      * intros i a Ha. apply (HR (S i)). exact Ha.
Qed.

(** *** [generate_agent_responses]: the state it leaves *)

Lemma marked_positions (speakers : list nat) :
  forall (l : list PhilosopherAgent) (j : nat),
    nth_error (fold_left (fun l i => map_at i with_chat_history l) speakers l) j
    = option_map (fun a => if existsb (Nat.eqb j) speakers then with_chat_history a else a)
                 (nth_error l j).
Proof.
  induction speakers as [|i rest IH]; intros l j.
  - cbn. destruct (nth_error l j); reflexivity.
  - cbn [fold_left existsb]. rewrite IH, nth_error_map_at.
    destruct (Nat.eqb j i); cbn [orb]; [|reflexivity].
    destruct (nth_error l j) as [a|]; [|reflexivity]. cbn [option_map].
    destruct (existsb (Nat.eqb j) rest); reflexivity.
Qed.

Lemma generate_agent_responses_state (speakers : list nat) :
  forall (o : DebateOrchestrator) (w w' : World) responses o',
    generate_agent_responses o speakers w = (Ok (responses, o'), w') ->
    o' = with_agents o
           (fold_left (fun l i => map_at i with_chat_history l) speakers (agents o)).
Proof.
  induction speakers as [|i rest IH]; intros o w w' responses o' H.
  - cbn in H. inversion H; subst. destruct o'. reflexivity.
  - cbn [generate_agent_responses] in H. cbn [fold_left].
    destruct (nth_error (agents o) i) as [a|] eqn:Ha.
    + cbv zeta in H. apply bind_inv in H. destruct H as [text [w1 [_ H]]].
      apply bind_inv in H. destruct H as [[responses' o1] [w2 [Hrec H]]].
      inversion H; subst. apply IH in Hrec. rewrite Hrec.
      cbn [with_agents agents]. rewrite (map_at_const with_chat_history _ _ _ Ha).
      reflexivity.
    + apply IH in H. rewrite H, (map_at_outside _ _ _ Ha). reflexivity.
Qed.

(** X11. Every response that [generate_agent_responses] returns begins
    with the name of the agent it is attributed to, whatever the language
    model answered.  The call leaves the transcript alone, and of the roster
    it changes one thing: each selected agent now has its [chat_history]
    attribute, so from then on its prompts can quote its memories. *)
Theorem responses_begin_with_the_speaker_name
    (o : DebateOrchestrator) (speakers : list nat) (w : World) :
  exists responses o' w',
    generate_agent_responses o speakers w = (Ok (responses, o'), w')
    /\ (forall i text, In (i, text) responses ->
          exists a, nth_error (agents o) i = Some a
                    /\ Py.startswith text (name a) = true)
    /\ chat_history o' = chat_history o
    /\ round_count o' = round_count o
    /\ forall j, nth_error (agents o') j
                 = option_map (fun a => if existsb (Nat.eqb j) speakers
                                        then with_chat_history a else a)
                              (nth_error (agents o) j).
Proof.
  destruct (generate_agent_responses_spec speakers o w)
    as [responses [o' [w' [Hgen [_ [_ Hall]]]]]].
  exists responses, o', w'. split; [exact Hgen|].
  pose proof (generate_agent_responses_state _ _ _ _ _ _ Hgen) as Ho'.
  split; [|rewrite Ho'; split; [reflexivity|split; [reflexivity|]]].
  - intros i text Hin. destruct (Hall i text Hin) as [a [Ha Htext]].
    exists a. split; [exact Ha|]. unfold Py.startswith.
    destruct Htext as [->|[s ->]]; [apply prefix_app|].
    destruct (Py.startswith s (name a)) eqn:E; [exact E|apply prefix_app].
  - intro j. cbn [with_agents agents]. apply marked_positions.
Qed.

(** *** [update_memory_and_reflection] *)

Lemma transcript_entry_ext (o o' : DebateOrchestrator) (r : nat * string) :
  round_count o' = round_count o ->
  (forall i, option_map name (nth_error (agents o') i)
             = option_map name (nth_error (agents o) i)) ->
  (forall i, option_map philosophy (nth_error (agents o') i)
             = option_map philosophy (nth_error (agents o) i)) ->
  transcript_entry o' r = transcript_entry o r.
Proof.
  intros Hr Hn Hp. unfold transcript_entry.
  specialize (Hn (fst r)). specialize (Hp (fst r)).
  destruct (nth_error (agents o') (fst r)) as [a'|],
           (nth_error (agents o) (fst r)) as [a|]; cbn in Hn, Hp; try discriminate;
    [|reflexivity].
  inversion Hn. inversion Hp. rewrite Hr. congruence.
Qed.

Lemma hears_ext (o o' : DebateOrchestrator) (j : nat) (a : PhilosopherAgent)
    (r : nat * string) :
  (forall i, option_map philosophy (nth_error (agents o') i)
             = option_map philosophy (nth_error (agents o) i)) ->
  hears o' j a r = hears o j a r.
Proof.
  intro Hp. unfold hears. specialize (Hp (fst r)).
  destruct (nth_error (agents o') (fst r)) as [a'|],
           (nth_error (agents o) (fst r)) as [b|]; cbn in Hp; try discriminate;
    [|reflexivity].
  inversion Hp. congruence.
Qed.

Lemma fold_hears_ext (o o' : DebateOrchestrator) (j : nat)
    (responses : list (nat * string)) :
  (forall a r, hears o' j a r = hears o j a r) ->
  forall a, fold_left (hears o' j) responses a = fold_left (hears o j) responses a.
Proof.
  intro Hext. induction responses as [|r rest IH]; intro a; [reflexivity|].
  cbn [fold_left]. rewrite Hext. apply IH.
Qed.

Lemma append_responses_spec (responses : list (nat * string)) :
  forall o : DebateOrchestrator,
    let o1 := fold_left append_response responses o in
    chat_history o1 = (chat_history o ++ flat_map (transcript_entry o) responses)%list
    /\ (forall j, nth_error (agents o1) j
                  = option_map (fun a => if existsb (Nat.eqb j) (map fst responses)
                                         then set_cooldown a 2%Z else a)
                               (nth_error (agents o) j))
    /\ round_count o1 = round_count o /\ current_topic o1 = current_topic o
    /\ max_rounds o1 = max_rounds o /\ debate_active o1 = debate_active o
    /\ speakers_per_round o1 = speakers_per_round o /\ orch_name o1 = orch_name o.
Proof.
  induction responses as [|r rest IH]; intro o; cbv zeta.
  - cbn [fold_left flat_map map existsb]. rewrite app_nil_r.
    repeat (split; [try reflexivity|]); try reflexivity.
    intro j. destruct (nth_error (agents o) j); reflexivity.
  - cbn [fold_left flat_map map existsb].
    specialize (IH (append_response o r)). cbv zeta in IH.
    destruct IH as [Hh [Ha [Hr [Ht [Hm [Hd [Hs Hn]]]]]]].
    assert (Hstep :
      chat_history (append_response o r)
        = (chat_history o ++ transcript_entry o r)%list
      /\ (forall j, nth_error (agents (append_response o r)) j
                    = option_map (fun a => if Nat.eqb j (fst r)
                                           then set_cooldown a 2%Z else a)
                                 (nth_error (agents o) j))
      /\ round_count (append_response o r) = round_count o
      /\ current_topic (append_response o r) = current_topic o
      /\ max_rounds (append_response o r) = max_rounds o
      /\ debate_active (append_response o r) = debate_active o
      /\ speakers_per_round (append_response o r) = speakers_per_round o
      /\ orch_name (append_response o r) = orch_name o).
    { unfold append_response, transcript_entry.
      destruct (nth_error (agents o) (fst r)) as [a|] eqn:Ea.
      - cbn [with_agents with_history chat_history agents round_count current_topic
             max_rounds debate_active speakers_per_round orch_name].
        repeat (split; [try reflexivity|]); try reflexivity.
        intro j. rewrite nth_error_map_at.
        destruct (Nat.eqb j (fst r)); [reflexivity|].
        destruct (nth_error (agents o) j); reflexivity.
      - rewrite app_nil_r. repeat (split; [try reflexivity|]); try reflexivity.
        intro j. destruct (Nat.eqb_spec j (fst r)) as [->|_].
        + rewrite Ea. reflexivity.
        + destruct (nth_error (agents o) j); reflexivity. }
    destruct Hstep as [Sh [Sa [Sr [St [Sm [Sd [Ss Sn]]]]]]].
    assert (Hext : forall r', transcript_entry (append_response o r) r'
                              = transcript_entry o r').
    { intro r'. apply transcript_entry_ext; [exact Sr| |];
        intro i; rewrite Sa; destruct (nth_error (agents o) i) as [a|]; try reflexivity;
        cbn [option_map]; destruct (Nat.eqb i (fst r)); reflexivity. }
    split; [|split; [|repeat split; congruence]].
    + rewrite Hh, Sh, <- app_assoc. f_equal. f_equal.
      apply flat_map_ext. exact Hext.
    + intro j. rewrite Ha, Sa.
      destruct (nth_error (agents o) j) as [a|]; [|reflexivity]. cbn [option_map].
      destruct (Nat.eqb j (fst r)); cbn [orb]; [|reflexivity].
      destruct (existsb (Nat.eqb j) (map fst rest)); reflexivity.
Qed.

Lemma update_memory_philosophy (a : PhilosopherAgent) (message : string)
    (importance_score : Q) (speaker_phil : option string) :
  philosophy (update_memory a message importance_score speaker_phil) = philosophy a
  /\ name (update_memory a message importance_score speaker_phil) = name a
  /\ cooldown (update_memory a message importance_score speaker_phil) = cooldown a.
Proof.
  unfold update_memory. cbv zeta.
  destruct (Nat.ltb 15 _); repeat split; reflexivity.
Qed.

Lemma remember_responses_spec (responses : list (nat * string)) :
  forall o : DebateOrchestrator,
    let o2 := fold_left remember_response responses o in
    chat_history o2 = chat_history o
    /\ (forall j, nth_error (agents o2) j
                  = option_map (fun a => fold_left (hears o j) responses a)
                               (nth_error (agents o) j))
    /\ round_count o2 = round_count o /\ current_topic o2 = current_topic o
    /\ max_rounds o2 = max_rounds o /\ debate_active o2 = debate_active o
    /\ speakers_per_round o2 = speakers_per_round o /\ orch_name o2 = orch_name o.
Proof.
  induction responses as [|r rest IH]; intro o; cbv zeta.
  - cbn [fold_left]. repeat (split; [try reflexivity|]); try reflexivity.
    intro j. destruct (nth_error (agents o) j); reflexivity.
  - cbn [fold_left].
    specialize (IH (remember_response o r)). cbv zeta in IH.
    destruct IH as [Hh [Ha [Hr [Ht [Hm [Hd [Hs Hn]]]]]]].
    assert (Hstep :
      chat_history (remember_response o r) = chat_history o
      /\ (forall j, nth_error (agents (remember_response o r)) j
                    = option_map (fun a => hears o j a r) (nth_error (agents o) j))
      /\ round_count (remember_response o r) = round_count o
      /\ current_topic (remember_response o r) = current_topic o
      /\ max_rounds (remember_response o r) = max_rounds o
      /\ debate_active (remember_response o r) = debate_active o
      /\ speakers_per_round (remember_response o r) = speakers_per_round o
      /\ orch_name (remember_response o r) = orch_name o).
    { unfold remember_response, hears.
      destruct (nth_error (agents o) (fst r)) as [b|] eqn:Eb.
      - cbn [with_agents chat_history agents round_count current_topic
             max_rounds debate_active speakers_per_round orch_name].
        repeat (split; [try reflexivity|]); try reflexivity.
        intro j. rewrite nth_error_map_except. rewrite (Nat.eqb_sym (fst r) j).
        destruct (Nat.eqb j (fst r)); [|reflexivity].
        destruct (nth_error (agents o) j); reflexivity.
      - repeat (split; [try reflexivity|]); try reflexivity.
        intro j. destruct (nth_error (agents o) j); reflexivity. }
    destruct Hstep as [Sh [Sa [Sr [St [Sm [Sd [Ss Sn]]]]]]].
    assert (Hext : forall j a r', hears (remember_response o r) j a r' = hears o j a r').
    { intros j a r'. apply hears_ext. intro i. rewrite Sa.
      destruct (nth_error (agents o) i) as [b|]; [|reflexivity]. cbn [option_map].
      f_equal. unfold hears. destruct (nth_error (agents o) (fst r)); [|reflexivity].
      destruct (Nat.eqb (fst r) i); [reflexivity|].
      apply update_memory_philosophy. }
    split; [congruence|]. split; [|repeat split; congruence].
    intro j. rewrite Ha, Sa.
    destruct (nth_error (agents o) j) as [a|]; [|reflexivity]. cbn [option_map].
    f_equal. apply fold_hears_ext. intros b r'. apply Hext.
Qed.

Lemma own_responses_leave_memory (o : DebateOrchestrator) (j : nat)
    (responses : list (nat * string)) :
  (forall r, In r responses -> fst r = j) ->
  forall b, memory (fold_left (hears o j) responses b) = memory b.
Proof.
  induction responses as [|r rest IH]; intros Hall b; [reflexivity|].
  cbn [fold_left]. rewrite IH by (intros r' Hr'; apply Hall; right; exact Hr').
  unfold hears. destruct (nth_error (agents o) (fst r)); [|reflexivity].
  rewrite (Hall r (or_introl eq_refl)), Nat.eqb_refl. reflexivity.
Qed.

(** What [update_memory_and_reflection] does, position by position. *)
Lemma update_memory_and_reflection_spec
    (o : DebateOrchestrator) (responses : list (nat * string)) :
  let o' := update_memory_and_reflection o responses in
  chat_history o' = (chat_history o ++ flat_map (transcript_entry o) responses)%list
  /\ (forall j, nth_error (agents o') j
                = option_map
                    (fun a => fold_left (hears o j) responses
                                (if existsb (Nat.eqb j) (map fst responses)
                                 then set_cooldown a 2%Z else a))
                    (nth_error (agents o) j))
  /\ round_count o' = round_count o /\ current_topic o' = current_topic o
  /\ max_rounds o' = max_rounds o /\ debate_active o' = debate_active o
  /\ speakers_per_round o' = speakers_per_round o /\ orch_name o' = orch_name o.
Proof.
  cbv zeta. unfold update_memory_and_reflection.
  pose proof (append_responses_spec responses o) as H1. cbv zeta in H1.
  set (o1 := fold_left append_response responses o) in *.
  pose proof (remember_responses_spec responses o1) as H2. cbv zeta in H2.
  set (o2 := fold_left remember_response responses o1) in *.
  destruct H1 as [Hh1 [Ha1 [Hr1 [Ht1 [Hm1 [Hd1 [Hs1 Hn1]]]]]]].
  destruct H2 as [Hh2 [Ha2 [Hr2 [Ht2 [Hm2 [Hd2 [Hs2 Hn2]]]]]]].
  assert (Hext : forall j a r, hears o1 j a r = hears o j a r).
  { intros j a r. apply hears_ext. intro i. rewrite Ha1.
    destruct (nth_error (agents o) i) as [b|]; [|reflexivity]. cbn [option_map].
    destruct (existsb (Nat.eqb i) (map fst responses)); reflexivity. }
  split; [congruence|]. split; [|repeat split; congruence].
  intro j. rewrite Ha2, Ha1.
  destruct (nth_error (agents o) j) as [a|]; [|reflexivity]. cbn [option_map].
  f_equal. apply fold_hears_ext. intros b r. apply Hext.
Qed.

(** X12. [update_memory_and_reflection] adds one transcript entry per
    response, in order, under the speaker's name and philosophy and the
    current round; every speaker ends with cooldown 2; and each agent goes
    through the responses in order and records those of the others, never
    its own, with the importance computed for that agent and the speaker's
    philosophy.  A speaker therefore keeps its memory unchanged when it is
    the only one to speak. *)
Theorem speakers_do_not_record_themselves
    (o : DebateOrchestrator) (responses : list (nat * string)) :
  let o' := update_memory_and_reflection o responses in
  chat_history o' = (chat_history o ++ flat_map (transcript_entry o) responses)%list
  /\ (forall j, nth_error (agents o') j
                = option_map
                    (fun a => fold_left (hears o j) responses
                                (if existsb (Nat.eqb j) (map fst responses)
                                 then set_cooldown a 2%Z else a))
                    (nth_error (agents o) j))
  /\ (forall j a, nth_error (agents o) j = Some a ->
        (forall r, In r responses -> fst r = j) ->
        option_map memory (nth_error (agents o') j) = Some (memory a))
  /\ round_count o' = round_count o /\ current_topic o' = current_topic o
  /\ max_rounds o' = max_rounds o /\ debate_active o' = debate_active o
  /\ speakers_per_round o' = speakers_per_round o.
Proof.
  pose proof (update_memory_and_reflection_spec o responses) as H. cbv zeta in H.
  destruct H as [Hh [Ha [Hr [Ht [Hm [Hd [Hs _]]]]]]]. cbv zeta.
  split; [exact Hh|]. split; [exact Ha|].
  split; [|repeat split; assumption].
  intros j a Hj Hall. rewrite Ha, Hj. cbn [option_map]. f_equal.
  rewrite (own_responses_leave_memory o j responses Hall).
  destruct (existsb (Nat.eqb j) (map fst responses)); reflexivity.
Qed.

(** *** One round, step by step *)

Lemma eligible_from_after_cool_down (l : list PhilosopherAgent) :
  forall i, incl (eligible_from i l) (eligible_from i (map cool_down l)).
Proof.
  induction l as [|a l IH]; intros i j Hj; [exact Hj|].
  cbn [map eligible_from] in *. destruct (cooldown a =? 0)%Z eqn:E.
  - rewrite (cool_down_idle a) by (apply Z.eqb_eq; exact E). rewrite E.
    destruct Hj as [Hj|Hj]; [left; exact Hj|right; apply IH; exact Hj].
  - destruct (cooldown (cool_down a) =? 0)%Z; [right|]; apply IH; exact Hj.
Qed.

Lemma eligible_from_bounds (l : list PhilosopherAgent) :
  forall i j, In j (eligible_from i l) -> (i <= j < i + length l)%nat.
Proof.
  induction l as [|a l IH]; intros i j Hj; [destruct Hj|].
  cbn [eligible_from length] in *. destruct (cooldown a =? 0)%Z.
  - destruct Hj as [<-|Hj]; [lia|]. apply IH in Hj. lia.
  - apply IH in Hj. lia.
Qed.

Lemma eligible_from_distinct (l : list PhilosopherAgent) :
  forall i, NoDup (eligible_from i l).
Proof.
  induction l as [|a l IH]; intro i; [constructor|].
  cbn [eligible_from]. destruct (cooldown a =? 0)%Z; [|apply IH].
  constructor; [|apply IH]. intro H. apply eligible_from_bounds in H. lia.
Qed.

Lemma should_continue_debate_true (o : DebateOrchestrator) (w w1 : World)
    (o1 : DebateOrchestrator) :
  should_continue_debate o w = (Ok (true, o1), w1) ->
  (round_count o < max_rounds o)%Z /\ debate_active o = true
  /\ o1 = with_agents o (map cool_down (agents o))
  /\ eligible_from 0 (agents o) <> [].
Proof.
  intro H.
  destruct (should_continue_debate_inv _ _ _ _ _ H) as [[Hf _]|[Hr [Ha Ho]]];
    [discriminate|].
  split; [exact Hr|]. split; [exact Ha|]. split; [exact Ho|].
  unfold should_continue_debate in H.
  apply Z.leb_gt in Hr. rewrite Hr, Ha in H. cbn [negb] in H.
  destruct (collect_intent_spec o w) as [scores [w' [Hc Hfst]]].
  rewrite (bind_ok _ _ _ _ _ Hc) in H. unfold ret in H.
  rewrite <- Hfst. intro Hnil. apply map_eq_nil in Hnil. subst scores.
  cbn in H. discriminate H.
Qed.

Lemma should_continue_debate_frame (o : DebateOrchestrator) (w w1 : World)
    (go : bool) (o1 : DebateOrchestrator) :
  should_continue_debate o w = (Ok (go, o1), w1) ->
  chat_history o1 = chat_history o /\ round_count o1 = round_count o
  /\ max_rounds o1 = max_rounds o /\ debate_active o1 = debate_active o
  /\ speakers_per_round o1 = speakers_per_round o
  /\ current_topic o1 = current_topic o /\ orch_name o1 = orch_name o
  /\ (agents o1 = agents o \/ agents o1 = map cool_down (agents o)).
Proof.
  intro H.
  destruct (should_continue_debate_inv _ _ _ _ _ H) as [[_ [-> _]]|[_ [_ ->]]].
  - repeat split; try reflexivity. left. reflexivity.
  - repeat split; try reflexivity. right. reflexivity.
Qed.

Lemma maybe_intervene_spec (o : DebateOrchestrator) (w : World) :
  agents o <> [] ->
  exists o' w',
    maybe_intervene o w = (Ok o', w')
    /\ agents o' = agents o /\ round_count o' = round_count o
    /\ max_rounds o' = max_rounds o /\ debate_active o' = debate_active o
    /\ speakers_per_round o' = speakers_per_round o
    /\ current_topic o' = current_topic o /\ orch_name o' = orch_name o
    /\ (chat_history o' = chat_history o
        \/ exists comment,
             chat_history o'
             = (chat_history o
                ++ [ {| speaker := orch_name o; content := comment;
                        round := round_count o; msg_philosophy := None |} ])%list).
Proof.
  intro Hne. unfold maybe_intervene, bind, lift.
  destruct (random_random w) as [r w1].
  destruct (Py.Qltb r 0.3).
  - destruct (generate_moderator_intervention_ok o w1 Hne) as [text [w2 Hgen]].
    rewrite Hgen. unfold ret. eexists. exists w2. split; [reflexivity|].
    repeat (split; [reflexivity|]). right. exists text. reflexivity.
  - unfold ret. exists o, w1. split; [reflexivity|].
    repeat (split; [reflexivity|]). left. reflexivity.
Qed.

(** The steps of [run_debate_round], each with what it returns. *)
Lemma run_debate_round_trace (o : DebateOrchestrator) (w : World) :
  exists go o1 w1,
    should_continue_debate o w = (Ok (go, o1), w1)
    /\ (go = false -> run_debate_round o w = conclude o1 w1)
    /\ (go = true ->
        let o2 := with_round_count o1 (round_count o1 + 1)%Z in
        let o3 := with_agents o2 (map cool_down (agents o2)) in
        exists scores w2 selected sorted w3,
          collect_intent_to_speak o2 w1 = (Ok (scores, o3), w2)
          /\ map fst scores = eligible_from 0 (agents o2)
          /\ scores <> []
          /\ select_speakers o3 scores w2 = (Ok (selected, sorted), w3)
          /\ (selected = [] -> run_debate_round o w = conclude o3 w3)
          /\ (selected <> [] ->
              exists responses o4 w4 o6 w5 flag o7 w6,
                generate_agent_responses o3 selected w3 = (Ok (responses, o4), w4)
                /\ maybe_intervene (update_memory_and_reflection o4 responses) w4
                   = (Ok o6, w5)
                /\ should_continue_debate o6 w5 = (Ok (flag, o7), w6)
                /\ run_debate_round o w
                   = (Ok (Played {| res_round := round_count o6;
                                    res_speakers := speaker_names o6 selected;
                                    res_responses := responses;
                                    res_intent_scores := sorted;
                                    res_continue := flag |}, o7), w6))).
Proof using uniform_between.
  destruct (should_continue_debate_spec o w) as [go [o1 [w1 [Hgo _]]]].
  exists go, o1, w1. split; [exact Hgo|].
  unfold run_debate_round. rewrite (bind_ok _ _ _ _ _ Hgo).
  split; [intros ->; reflexivity|]. intros ->. cbn [negb]. cbv zeta.
  destruct (should_continue_debate_true _ _ _ _ Hgo) as [_ [_ [Ho1 Hsome]]].
  set (o2 := with_round_count o1 (round_count o1 + 1)%Z).
  destruct (collect_intent_spec o2 w1) as [scores [w2 [Hcollect Hfst]]].
  set (o3 := with_agents o2 (map cool_down (agents o2))) in *.
  assert (Hscores : scores <> []).
  { intro Hnil. subst scores. cbn [map] in Hfst.
    unfold o2 in Hfst. cbn [with_round_count agents] in Hfst. rewrite Ho1 in Hfst.
    cbn [with_agents agents] in Hfst.
    destruct (eligible_from 0 (agents o)) as [|j l] eqn:E; [contradiction|].
    assert (Hj : In j (eligible_from 0 (map cool_down (agents o)))).
    { apply eligible_from_after_cool_down. rewrite E. left. reflexivity. }
    rewrite <- Hfst in Hj. destruct Hj. }
  destruct (select_speakers_ok o3 scores w2
              (collect_intent_nonneg uniform_between _ _ _ _ _ Hcollect))
    as [selected [sorted [w3 Hsel]]].
  exists scores, w2, selected, sorted, w3.
  split; [exact Hcollect|]. split; [exact Hfst|]. split; [exact Hscores|].
  split; [exact Hsel|].
  rewrite (bind_ok _ _ _ _ _ Hcollect).
  destruct scores as [|c rest]; [contradiction|]. cbv iota.
  rewrite (bind_ok _ _ _ _ _ Hsel).
  split; [intros ->; reflexivity|]. intro Hselected.
  destruct selected as [|s0 selected]; [contradiction|].
  assert (Hagents : agents o3 <> []).
  { unfold o3. cbn [with_agents agents]. intro Hnil.
    apply map_eq_nil in Hnil. rewrite Hnil in Hfst. discriminate Hfst. }
  destruct (generate_agent_responses_spec (s0 :: selected) o3 w3)
    as [responses [o4 [w4 [Hgen [_ [Hlen4 _]]]]]].
  set (o5 := update_memory_and_reflection o4 responses).
  assert (Hagents5 : agents o5 <> []).
  { intro Hnil. pose proof (length_update_memory_and_reflection o4 responses) as Hl.
    fold o5 in Hl. rewrite Hnil, Hlen4 in Hl.
    destruct (agents o3); [contradiction|discriminate]. }
  destruct (maybe_intervene_ok o5 w4 Hagents5) as [o6 [w5 [Hint _]]].
  destruct (should_continue_debate_spec o6 w5) as [flag [o7 [w6 [Hflag _]]]].
  exists responses, o4, w4, o6, w5, flag, o7, w6.
  split; [exact Hgen|]. split; [exact Hint|]. split; [exact Hflag|].
  rewrite (bind_ok _ _ _ _ _ Hgen). fold o5.
  rewrite (bind_ok _ _ _ _ _ Hint), (bind_ok _ _ _ _ _ Hflag). reflexivity.
Qed.

(** *** How the agents of the roster change *)

Lemma evolves_trans (a b c : PhilosopherAgent) :
  evolves a b -> evolves b c -> evolves a c.
Proof.
  intros Hab Hbc. induction Hbc.
  - exact Hab.
  - apply evolves_start_debate. exact IHHbc.
  - apply evolves_collect. exact IHHbc.
  - apply evolves_selected. exact IHHbc.
  - apply evolves_spoke. exact IHHbc.
  - apply evolves_heard. exact IHHbc.
  - apply evolves_decay. exact IHHbc.
  - apply evolves_drift. exact IHHbc.
Qed.

Lemma evolves_cool_down (a : PhilosopherAgent) : evolves a (cool_down a).
Proof.
  unfold cool_down. destruct (cooldown a =? 0)%Z.
  - apply evolves_refl.
  - apply evolves_collect. apply evolves_refl.
Qed.

Lemma evolves_hears (o : DebateOrchestrator) (j : nat) (responses : list (nat * string)) :
  forall a, evolves a (fold_left (hears o j) responses a).
Proof.
  induction responses as [|r rest IH]; intro a; [apply evolves_refl|].
  cbn [fold_left]. eapply evolves_trans; [|apply IH].
  unfold hears. destruct (nth_error (agents o) (fst r)); [|apply evolves_refl].
  destruct (Nat.eqb (fst r) j); [apply evolves_refl|].
  apply evolves_heard. apply evolves_refl.
Qed.

Lemma Forall2_evolves_refl (l : list PhilosopherAgent) : Forall2 evolves l l.
Proof. induction l; constructor; [apply evolves_refl|assumption]. Qed.

Lemma Forall2_evolves_trans (l1 l2 l3 : list PhilosopherAgent) :
  Forall2 evolves l1 l2 -> Forall2 evolves l2 l3 -> Forall2 evolves l1 l3.
Proof.
  intro H12. revert l3. induction H12 as [|a b l1 l2 Hab _ IH]; intros l3 H23.
  - inversion H23; subst. constructor.
  - inversion H23 as [|? c ? l3' Hbc H23']; subst. constructor.
    + eapply evolves_trans; eassumption.
    + apply IH. exact H23'.
Qed.

Lemma Forall2_evolves_map (f : PhilosopherAgent -> PhilosopherAgent)
    (l : list PhilosopherAgent) :
  (forall a, evolves a (f a)) -> Forall2 evolves l (map f l).
Proof.
  intro H. induction l as [|a l IH]; constructor; [apply H|exact IH].
Qed.

Lemma should_continue_debate_evolves (o : DebateOrchestrator) (w w1 : World)
    (go : bool) (o1 : DebateOrchestrator) :
  should_continue_debate o w = (Ok (go, o1), w1) ->
  Forall2 evolves (agents o) (agents o1).
Proof.
  intro H.
  destruct (should_continue_debate_frame _ _ _ _ _ H)
    as [_ [_ [_ [_ [_ [_ [_ [->| ->]]]]]]]].
  - apply Forall2_evolves_refl.
  - apply Forall2_evolves_map. apply evolves_cool_down.
Qed.

Lemma generate_agent_responses_evolves (o : DebateOrchestrator) (speakers : list nat)
    (w w' : World) responses o' :
  generate_agent_responses o speakers w = (Ok (responses, o'), w') ->
  Forall2 evolves (agents o) (agents o')
  /\ chat_history o' = chat_history o /\ round_count o' = round_count o
  /\ max_rounds o' = max_rounds o /\ debate_active o' = debate_active o
  /\ speakers_per_round o' = speakers_per_round o
  /\ current_topic o' = current_topic o /\ orch_name o' = orch_name o.
Proof.
  intro H. rewrite (generate_agent_responses_state _ _ _ _ _ _ H).
  cbn [with_agents agents chat_history round_count max_rounds debate_active
       speakers_per_round current_topic orch_name].
  split; [|repeat split; reflexivity].
  apply (Forall2_positions evolves _ _
           (fun j a => if existsb (Nat.eqb j) speakers then with_chat_history a else a)).
  - intro j. apply marked_positions.
  - intros j a _. destruct (existsb (Nat.eqb j) speakers).
    + apply evolves_selected. apply evolves_refl.
    + apply evolves_refl.
Qed.

Lemma update_memory_and_reflection_evolves
    (o : DebateOrchestrator) (responses : list (nat * string)) :
  Forall2 evolves (agents o) (agents (update_memory_and_reflection o responses)).
Proof.
  pose proof (update_memory_and_reflection_spec o responses) as H. cbv zeta in H.
  destruct H as [_ [Ha _]].
  apply (Forall2_positions evolves _ _
           (fun j a => fold_left (hears o j) responses
                         (if existsb (Nat.eqb j) (map fst responses)
                          then set_cooldown a 2%Z else a)) Ha).
  intros j a _. eapply evolves_trans; [|apply evolves_hears].
  destruct (existsb (Nat.eqb j) (map fst responses)).
  - apply evolves_spoke. apply evolves_refl.
  - apply evolves_refl.
Qed.

Lemma dict_set_keys {V : Type} (k : string) (v : V) (d : list (string * V)) :
  Py.keys (dict_set k v d)
  = if Py.mem k (Py.keys d) then Py.keys d else (Py.keys d ++ [k])%list.
Proof.
  induction d as [|[k' v'] d IH]; simpl; [reflexivity|].
  destruct (String.eqb k k') eqn:E; simpl; [reflexivity|].
  rewrite IH. unfold Py.mem.
  destruct (existsb (String.eqb k) (Py.keys d)); reflexivity.
Qed.

Lemma dict_set_NoDup {V : Type} (k : string) (v : V) (d : list (string * V)) :
  NoDup (Py.keys d) -> NoDup (Py.keys (dict_set k v d)).
Proof.
  intro H. rewrite dict_set_keys. destruct (Py.mem k (Py.keys d)) eqn:E; [exact H|].
  apply NoDup_app; [exact H|repeat constructor; intros []|].
  intros x Hx [Hp|[]]. subst x. apply mem_In in Hx. congruence.
Qed.

(** [end_debate]: every agent reflects once. *)
Lemma reflect_all_spec (history : list Message) (transcript : string)
    (roster : list PhilosopherAgent) :
  forall (reflections : list (string * string)) (w w' : World) reflections' roster',
    reflect_all history transcript roster reflections w
      = (Ok (reflections', roster'), w') ->
    Forall2 (fun a a' => a' = _apply_belief_decay a
                         \/ a' = _check_belief_drift (_apply_belief_decay a))
            roster roster'
    /\ (forall nm, In nm (Py.keys reflections') <->
                   In nm (Py.keys reflections) \/ In nm (map name roster))
    /\ (NoDup (Py.keys reflections) -> NoDup (Py.keys reflections')).
Proof.
  induction roster as [|a rest IH]; intros reflections w w' reflections' roster' H.
  - cbn in H. inversion H; subst. split; [constructor|]. split; [|tauto].
    intro nm. cbn. tauto.
  - cbn [reflect_all] in H.
    pose proof (reflect_spec a history transcript w) as Hr. cbv zeta in Hr.
    destruct Hr as [text [a' [w1 [Hrefl [_ Hcase]]]]].
    rewrite (bind_ok _ _ _ _ _ Hrefl) in H.
    apply bind_inv in H. destruct H as [[refl1 rest'] [w2 [Hrec H]]].
    inversion H; subst. apply IH in Hrec. destruct Hrec as [Hall [Hkeys Hnd]].
    pose proof (dict_set_keys (name a) text reflections) as Hset.
    split; [|split].
    + constructor; [|exact Hall].
      destruct (fst (generate_reply _ _ w)); destruct Hcase as [_ ->]; [right|left];
        reflexivity.
    + intro nm. rewrite Hkeys, Hset. cbn [map].
      destruct (Py.mem (name a) (Py.keys reflections)) eqn:E.
      * apply mem_In in E. split.
        -- intros [G|G]; [left; exact G|right; right; exact G].
        -- intros [G|[G|G]]; [left; exact G|left; rewrite <- G; exact E|right; exact G].
      * rewrite in_app_iff. cbn [In]. split.
        -- intros [[G|[G|[]]]|G];
             [left; exact G|right; left; exact G|right; right; exact G].
        -- intros [G|[G|G]];
             [left; left; exact G|left; right; left; exact G|right; exact G].
    + intro Hnd0. apply Hnd. apply dict_set_NoDup. exact Hnd0.
Qed.

Lemma end_debate_spec (o : DebateOrchestrator) (w w' : World)
    (summary : Summary) (o' : DebateOrchestrator) :
  end_debate o w = (Ok (summary, o'), w') ->
  Forall2 (fun a a' => a' = _apply_belief_decay a
                       \/ a' = _check_belief_drift (_apply_belief_decay a))
          (agents o) (agents o')
  /\ chat_history o' = chat_history o /\ round_count o' = round_count o
  /\ max_rounds o' = max_rounds o /\ debate_active o' = false
  /\ speakers_per_round o' = speakers_per_round o
  /\ current_topic o' = current_topic o /\ orch_name o' = orch_name o
  /\ sum_topic summary = current_topic o
  /\ sum_rounds summary = round_count o
  /\ sum_participants summary = map (fun a => (name a, philosophy a)) (agents o)
  /\ sum_total_messages summary = length (chat_history o)
  /\ sum_chat_history summary = chat_history o
  /\ NoDup (Py.keys (sum_reflections summary))
  /\ (forall nm, In nm (Py.keys (sum_reflections summary)) <-> In nm (map name (agents o))).
Proof.
  intro H. unfold end_debate in H. cbv zeta in H.
  apply bind_inv in H. destruct H as [[reflections roster] [w1 [Hall H]]].
  inversion H; subst. clear H.
  apply reflect_all_spec in Hall. destruct Hall as [Hall [Hkeys Hnd]].
  cbn [with_active with_agents agents chat_history round_count max_rounds debate_active
       speakers_per_round current_topic orch_name sum_topic sum_rounds sum_participants
       sum_total_messages sum_chat_history sum_reflections] in *.
  split; [exact Hall|]. repeat (split; [reflexivity|]).
  split; [apply Hnd; constructor|].
  intro nm. rewrite Hkeys. cbn. tauto.
Qed.

Lemma end_debate_evolves (o : DebateOrchestrator) (w w' : World)
    (summary : Summary) (o' : DebateOrchestrator) :
  end_debate o w = (Ok (summary, o'), w') ->
  Forall2 evolves (agents o) (agents o').
Proof.
  intro H. apply end_debate_spec in H. destruct H as [H _].
  eapply Forall2_impl; [|exact H].
  intros a a' [-> | ->].
  - apply evolves_decay. apply evolves_refl.
  - apply evolves_drift. apply evolves_decay. apply evolves_refl.
Qed.

Lemma conclude_inv (o : DebateOrchestrator) (w w' : World)
    (outcome : RoundOutcome) (o' : DebateOrchestrator) :
  conclude o w = (Ok (outcome, o'), w') ->
  exists summary, outcome = Ended summary /\ end_debate o w = (Ok (summary, o'), w').
Proof.
  intro H. unfold conclude in H. apply bind_inv in H.
  destruct H as [[summary o1] [w1 [Hend H]]]. inversion H; subst.
  exists summary. split; [reflexivity|exact Hend].
Qed.

(** *** What a round keeps and what it changes *)

Lemma evolves_identity (a b : PhilosopherAgent) :
  evolves a b ->
  name b = name a /\ philosophy b = philosophy a
  /\ initial_system_message b = initial_system_message a
  /\ goals b = goals a
  /\ reactivity_threshold b = reactivity_threshold a
  /\ belief_drift_threshold b = belief_drift_threshold a
  /\ memory_decay_rate b = memory_decay_rate a.
Proof.
  assert (Hdrift : forall c,
    name (_check_belief_drift c) = name c
    /\ philosophy (_check_belief_drift c) = philosophy c
    /\ initial_system_message (_check_belief_drift c) = initial_system_message c
    /\ goals (_check_belief_drift c) = goals c
    /\ reactivity_threshold (_check_belief_drift c) = reactivity_threshold c
    /\ belief_drift_threshold (_check_belief_drift c) = belief_drift_threshold c
    /\ memory_decay_rate (_check_belief_drift c) = memory_decay_rate c).
  { intro c. unfold _check_belief_drift. destruct (memory c) as [|m0 l0]; [tauto|].
    generalize (philosophy_scores c). intro l.
    assert (G : forall l d,
      name (fold_left (fun a0 entry => if drifts a0 entry
                                       then _modify_system_prompt a0 (fst entry) (snd entry)
                                       else a0) l d) = name d
      /\ philosophy (fold_left (fun a0 entry => if drifts a0 entry
                                       then _modify_system_prompt a0 (fst entry) (snd entry)
                                       else a0) l d) = philosophy d
      /\ initial_system_message (fold_left (fun a0 entry => if drifts a0 entry
                                       then _modify_system_prompt a0 (fst entry) (snd entry)
                                       else a0) l d) = initial_system_message d
      /\ goals (fold_left (fun a0 entry => if drifts a0 entry
                                       then _modify_system_prompt a0 (fst entry) (snd entry)
                                       else a0) l d) = goals d
      /\ reactivity_threshold (fold_left (fun a0 entry => if drifts a0 entry
                                       then _modify_system_prompt a0 (fst entry) (snd entry)
                                       else a0) l d) = reactivity_threshold d
      /\ belief_drift_threshold (fold_left (fun a0 entry => if drifts a0 entry
                                       then _modify_system_prompt a0 (fst entry) (snd entry)
                                       else a0) l d) = belief_drift_threshold d
      /\ memory_decay_rate (fold_left (fun a0 entry => if drifts a0 entry
                                       then _modify_system_prompt a0 (fst entry) (snd entry)
                                       else a0) l d) = memory_decay_rate d).
    { clear. induction l as [|e l IH]; intro d; [cbn; tauto|].
      cbn [fold_left]. destruct (IH (if drifts d e
                                     then _modify_system_prompt d (fst e) (snd e)
                                     else d)) as [I1 [I2 [I3 [I4 [I5 [I6 I7]]]]]].
      rewrite I1, I2, I3, I4, I5, I6, I7.
      destruct (drifts d e); repeat split; reflexivity. }
    apply G. }
  induction 1 as [|b _ IH|b _ IH|b _ IH|b _ IH|b message sp _ IH|b _ IH|b _ IH].
  - tauto.
  - exact IH.
  - unfold reduce_cooldown. destruct (0 <? cooldown b)%Z; exact IH.
  - exact IH.
  - exact IH.
  - unfold update_memory. cbv zeta. destruct (Nat.ltb 15 _); exact IH.
  - exact IH.
  - destruct (Hdrift b) as [D1 [D2 [D3 [D4 [D5 [D6 D7]]]]]].
    rewrite D1, D2, D3, D4, D5, D6, D7. exact IH.
Qed.

Lemma Forall2_nth_error {A : Type} (R : A -> A -> Prop) (l l' : list A) :
  Forall2 R l l' ->
  forall i, match nth_error l i, nth_error l' i with
            | Some a, Some b => R a b
            | None, None => True
            | _, _ => False
            end.
Proof.
  induction 1 as [|a b l l' Hab _ IH]; intros [|i]; cbn; try exact I; try exact Hab.
  apply IH.
Qed.

Lemma Forall2_evolves_cast (l l' : list PhilosopherAgent) :
  Forall2 evolves l l' ->
  length l' = length l
  /\ (forall i, option_map name (nth_error l' i) = option_map name (nth_error l i))
  /\ (forall i, option_map philosophy (nth_error l' i)
                = option_map philosophy (nth_error l i)).
Proof.
  intro H. split; [symmetry; eapply Forall2_length; exact H|].
  split; intro i; pose proof (Forall2_nth_error _ _ _ H i) as Hi;
    destruct (nth_error l i), (nth_error l' i); try contradiction; try reflexivity;
    cbn; f_equal; apply evolves_identity in Hi; tauto.
Qed.

Lemma speaker_names_ext (o o' : DebateOrchestrator) (selected : list nat) :
  (forall i, option_map name (nth_error (agents o') i)
             = option_map name (nth_error (agents o) i)) ->
  speaker_names o' selected = speaker_names o selected.
Proof.
  intro H. unfold speaker_names. apply flat_map_ext. intro i. specialize (H i).
  destruct (nth_error (agents o') i), (nth_error (agents o) i); cbn in H;
    try discriminate; [|reflexivity].
  inversion H. reflexivity.
Qed.

Lemma generate_agent_responses_fst (o : DebateOrchestrator) (speakers : list nat)
    (w w' : World) responses o' :
  generate_agent_responses o speakers w = (Ok (responses, o'), w') ->
  map fst responses = filter (fun i => Nat.ltb i (length (agents o))) speakers.
Proof.
  intro H. destruct (generate_agent_responses_spec speakers o w)
    as [responses0 [o0 [w0 [Hgen [Hfst _]]]]].
  rewrite Hgen in H. inversion H; subst. exact Hfst.
Qed.

(** The outcome of [run_debate_round] and the state it leaves. *)
Lemma run_debate_round_spec (o : DebateOrchestrator) (w : World) :
  exists outcome o' w',
    run_debate_round o w = (Ok (outcome, o'), w')
    /\ Forall2 evolves (agents o) (agents o')
    /\ max_rounds o' = max_rounds o /\ speakers_per_round o' = speakers_per_round o
    /\ current_topic o' = current_topic o /\ orch_name o' = orch_name o
    /\ match outcome with
       | Ended summary =>
           debate_active o' = false
           /\ chat_history o' = chat_history o
           /\ sum_chat_history summary = chat_history o
           /\ sum_total_messages summary = length (chat_history o)
           /\ sum_rounds summary = round_count o'
           /\ (round_count o' = round_count o
               \/ (round_count o' = (round_count o + 1)%Z
                   /\ (round_count o < max_rounds o)%Z
                   /\ speakers_per_round o = 0%nat))
       | Played result =>
           (round_count o < max_rounds o)%Z
           /\ debate_active o = true /\ debate_active o' = true
           /\ round_count o' = (round_count o + 1)%Z
           /\ res_round result = (round_count o + 1)%Z
           /\ (1 <= length (res_responses result) <= speakers_per_round o)%nat
           /\ NoDup (map fst (res_responses result))
           /\ Forall (fun i => (i < length (agents o))%nat) (map fst (res_responses result))
           /\ res_speakers result = speaker_names o (map fst (res_responses result))
           /\ ranked snd (res_intent_scores result)
           /\ exists comment,
                chat_history o'
                = (chat_history o
                   ++ flat_map (transcript_entry
                                  (with_round_count o (round_count o + 1)%Z))
                               (res_responses result)
                   ++ comment)%list
                /\ (comment = []
                    \/ exists text,
                         comment = [ {| speaker := orch_name o; content := text;
                                        round := (round_count o + 1)%Z;
                                        msg_philosophy := None |} ])
       end.
Proof using uniform_between random_sample_subset random_sample_length
            random_sample_distinct random_choices_member.
  destruct (run_debate_round_trace o w) as [go [o1 [w1 [Hgo [Hfalse Htrue]]]]].
  pose proof (should_continue_debate_frame _ _ _ _ _ Hgo)
    as [Fh [Fr [Fm [Fd [Fs [Ft [Fn _]]]]]]].
  pose proof (should_continue_debate_evolves _ _ _ _ _ Hgo) as E1.
  destruct go.
  2:{ specialize (Hfalse eq_refl).
      destruct (conclude_ok o1 w1) as [summary [o' [w' Hc]]].
      exists (Ended summary), o', w'. rewrite Hfalse. split; [exact Hc|].
      apply conclude_inv in Hc. destruct Hc as [s [Hs Hend]]. inversion Hs; subst s.
      pose proof (end_debate_evolves _ _ _ _ _ Hend) as E2.
      apply end_debate_spec in Hend.
      destruct Hend as [_ [Eh [Er [Em [Ed [Es [Et [En [_ [Sr [_ [St [Sh _]]]]]]]]]]]]].
      split; [eapply Forall2_evolves_trans; eassumption|].
      repeat (split; [congruence|]). left. congruence. }
  clear Hfalse. specialize (Htrue eq_refl). cbv zeta in Htrue.
  destruct (should_continue_debate_true _ _ _ _ Hgo) as [Hround [Hactive _]].
  set (o2 := with_round_count o1 (round_count o1 + 1)%Z) in *.
  set (o3 := with_agents o2 (map cool_down (agents o2))) in *.
  destruct Htrue
    as [scores [w2 [selected [sorted [w3 [Hcollect [Hfst [Hsc [Hsel [Hnil Hplay]]]]]]]]]].
  assert (E3 : Forall2 evolves (agents o) (agents o3)).
  { eapply Forall2_evolves_trans; [exact E1|].
    unfold o3, o2. cbn [with_agents with_round_count agents].
    apply Forall2_evolves_map. apply evolves_cool_down. }
  assert (Hnd : NoDup (map fst scores)) by (rewrite Hfst; apply eligible_from_distinct).
  destruct (select_speakers_count o3 scores w2 w3 selected sorted Hnd Hsel)
    as [Hdistinct [Hcount Hincl]].
  assert (Hspr : speakers_per_round o3 = speakers_per_round o) by exact Fs.
  assert (Hlen3 : length (agents o3) = length (agents o))
    by (apply (Forall2_evolves_cast _ _ E3)).
  assert (Hvalid : forall i, In i selected -> (i < length (agents o3))%nat).
  { intros i Hi. apply Hincl in Hi. rewrite Hfst in Hi.
    apply eligible_from_bounds in Hi. unfold o3. cbn [with_agents agents].
    rewrite length_map. lia. }
  destruct selected as [|s0 selected'].
  { specialize (Hnil eq_refl).
    destruct (conclude_ok o3 w3) as [summary [o' [w' Hc]]].
    exists (Ended summary), o', w'. rewrite Hnil. split; [exact Hc|].
    apply conclude_inv in Hc. destruct Hc as [s [Hs Hend]]. inversion Hs; subst s.
    pose proof (end_debate_evolves _ _ _ _ _ Hend) as E4.
    apply end_debate_spec in Hend.
    destruct Hend as [_ [Eh [Er [Em [Ed [Es [Et [En [_ [Sr [_ [St [Sh _]]]]]]]]]]]]].
    split; [eapply Forall2_evolves_trans; eassumption|].
    split; [rewrite Em; exact Fm|]. split; [rewrite Es; exact Fs|].
    split; [rewrite Et; exact Ft|]. split; [rewrite En; exact Fn|].
    split; [exact Ed|]. split; [rewrite Eh; exact Fh|].
    split; [rewrite Sh; exact Fh|]. split; [rewrite St, <- Fh; reflexivity|].
    split; [congruence|].
    right. split; [rewrite Er; unfold o3, o2; cbn; rewrite Fr; reflexivity|].
    split; [exact Hround|].
    cbn [length] in Hcount. rewrite Hspr in Hcount.
    destruct scores as [|c rest]; [contradiction|]. cbn [length] in Hcount. lia. }
  destruct (Hplay ltac:(discriminate))
    as [responses [o4 [w4 [o6 [w5 [flag [o7 [w6 [Hgen [Hint [Hflag Hrun]]]]]]]]]]].
  clear Hplay Hnil.
  set (selected := s0 :: selected') in *.
  pose proof (generate_agent_responses_evolves _ _ _ _ _ _ Hgen)
    as [E4 [Gh [Gr [Gm [Gd [Gs [Gt Gn]]]]]]].
  pose proof (generate_agent_responses_fst _ _ _ _ _ _ Hgen) as Hrfst.
  rewrite filter_all in Hrfst
    by (intros i Hi; apply Nat.ltb_lt; apply Hvalid; exact Hi).
  set (o5 := update_memory_and_reflection o4 responses) in *.
  pose proof (update_memory_and_reflection_spec o4 responses) as U. cbv zeta in U.
  fold o5 in U. destruct U as [Uh [_ [Ur [Ut [Um [Ud [Us Un]]]]]]].
  pose proof (update_memory_and_reflection_evolves o4 responses) as E5. fold o5 in E5.
  assert (Hagents5 : agents o5 <> []).
  { intro Hn5. pose proof (Forall2_length E5) as L5. rewrite Hn5 in L5.
    pose proof (Forall2_length E4) as L4.
    assert (Hin : In s0 selected) by (left; reflexivity).
    apply Hvalid in Hin. cbn [length] in L5. lia. }
  destruct (maybe_intervene_spec o5 w4 Hagents5)
    as [o6' [w5' [Hint' [Ia [Ir [Im [Id [Is [It [In6 Ih]]]]]]]]]].
  rewrite Hint in Hint'. inversion Hint'; subst o6' w5'. clear Hint'.
  pose proof (should_continue_debate_frame _ _ _ _ _ Hflag)
    as [Ch [Cr [Cm [Cd [Cs [Ct [Cn _]]]]]]].
  pose proof (should_continue_debate_evolves _ _ _ _ _ Hflag) as E7.
  assert (E6 : Forall2 evolves (agents o) (agents o6)).
  { rewrite Ia. eapply Forall2_evolves_trans; [exact E3|].
    eapply Forall2_evolves_trans; [exact E4|exact E5]. }
  assert (Hr6 : round_count o6 = (round_count o + 1)%Z).
  { rewrite Ir, Ur, Gr. unfold o3, o2. cbn. rewrite Fr. reflexivity. }
  eexists. exists o7, w6. split; [exact Hrun|].
  split; [eapply Forall2_evolves_trans; eassumption|].
  split; [rewrite Cm, Im, Um, Gm; exact Fm|].
  split; [rewrite Cs, Is, Us, Gs; exact Fs|].
  split; [rewrite Ct, It, Ut, Gt; exact Ft|].
  split; [rewrite Cn, In6, Un, Gn; exact Fn|].
  cbn [res_round res_responses res_speakers res_intent_scores].
  split; [exact Hround|]. split; [exact Hactive|].
  split; [rewrite Cd, Id, Ud, Gd; unfold o3, o2; cbn; rewrite Fd; exact Hactive|].
  split; [rewrite Cr; exact Hr6|]. split; [exact Hr6|].
  assert (Hlen : length responses = length selected)
    by (rewrite <- Hrfst; symmetry; apply length_map).
  split.
  { rewrite Hlen, Hcount, Hspr. unfold selected in *. cbn [length] in *. lia. }
  split; [rewrite Hrfst; exact Hdistinct|].
  split.
  { rewrite Hrfst. apply Forall_forall. intros i Hi. rewrite <- Hlen3.
    apply Hvalid. exact Hi. }
  split.
  { rewrite Hrfst. apply speaker_names_ext.
    apply (Forall2_evolves_cast _ _ E6). }
  split; [exact (select_speakers_ranked _ _ _ _ _ _ Hsel)|].
  assert (Hentry : forall r, transcript_entry o4 r
                             = transcript_entry (with_round_count o (round_count o + 1)%Z) r).
  { intro r. symmetry. apply transcript_entry_ext.
    - cbn [with_round_count round_count]. rewrite Gr. unfold o3, o2. cbn.
      rewrite Fr. reflexivity.
    - cbn [with_round_count agents]. intro i. symmetry.
      apply (Forall2_evolves_cast _ _ (Forall2_evolves_trans _ _ _ E3 E4)).
    - cbn [with_round_count agents]. intro i. symmetry.
      apply (Forall2_evolves_cast _ _ (Forall2_evolves_trans _ _ _ E3 E4)). }
  assert (Hh5 : chat_history o5
                = (chat_history o
                   ++ flat_map (transcript_entry
                                  (with_round_count o (round_count o + 1)%Z))
                               responses)%list).
  { rewrite Uh, Gh. unfold o3, o2. cbn [with_agents with_round_count chat_history].
    rewrite Fh. f_equal. apply flat_map_ext. exact Hentry. }
  destruct Ih as [Ih|[text Ih]].
  - exists []. rewrite app_nil_r, Ch, Ih. split; [exact Hh5|left; reflexivity].
  - exists [ {| speaker := orch_name o; content := text;
                round := (round_count o + 1)%Z; msg_philosophy := None |} ].
    split; [|right; exists text; reflexivity].
    rewrite Ch, Ih, Hh5, <- app_assoc.
    replace (orch_name o5) with (orch_name o)
      by (rewrite Un, Gn; symmetry; exact Fn).
    replace (round_count o5) with (round_count o + 1)%Z
      by (rewrite <- Hr6, Ir; reflexivity).
    reflexivity.
Qed.

(** *** The two outcomes of a round *)

(** X13. Whether [run_debate_round] plays a round is decided by the
    continuation check at its start.  If the check says no, the round ends
    the debate from the state the check left.  If it says yes and at least
    one speaker per round is allowed, the round is played: the exits for an
    empty score list and for an empty selection are never taken.  With zero
    speakers per round the debate is ended instead, after the round counter
    has gone up. *)
Theorem round_is_played_when_the_check_passes (o : DebateOrchestrator) (w : World) :
  exists go o1 w1,
    should_continue_debate o w = (Ok (go, o1), w1)
    /\ (go = false ->
        exists summary o' w',
          run_debate_round o w = (Ok (Ended summary, o'), w')
          /\ end_debate o1 w1 = (Ok (summary, o'), w'))
    /\ (go = true -> (1 <= speakers_per_round o)%nat ->
        exists result o' w', run_debate_round o w = (Ok (Played result, o'), w'))
    /\ (go = true -> speakers_per_round o = 0%nat ->
        exists summary o' w',
          run_debate_round o w = (Ok (Ended summary, o'), w')
          /\ sum_rounds summary = (round_count o + 1)%Z).
Proof using uniform_between random_sample_subset random_sample_length
            random_sample_distinct random_choices_member.
  destruct (run_debate_round_trace o w) as [go [o1 [w1 [Hgo [Hfalse Htrue]]]]].
  exists go, o1, w1. split; [exact Hgo|].
  pose proof (should_continue_debate_frame _ _ _ _ _ Hgo)
    as [_ [Fr [_ [_ [Fs _]]]]].
  split.
  { intro E. rewrite (Hfalse E).
    destruct (conclude_ok o1 w1) as [summary [o' [w' Hc]]].
    exists summary, o', w'. split; [exact Hc|].
    apply conclude_inv in Hc. destruct Hc as [s [Hs Hend]]. inversion Hs; subst s.
    exact Hend. }
  assert (Hcases : go = true ->
    exists scores selected sorted w2 w3 o3,
      select_speakers o3 scores w2 = (Ok (selected, sorted), w3)
      /\ scores <> []
      /\ length selected = Nat.min (speakers_per_round o) (length scores)
      /\ round_count o3 = (round_count o + 1)%Z
      /\ (selected = [] -> run_debate_round o w = conclude o3 w3)
      /\ (selected <> [] ->
          exists result o' w', run_debate_round o w = (Ok (Played result, o'), w'))).
  { intro E. specialize (Htrue E). cbv zeta in Htrue.
    destruct Htrue
      as [scores [w2 [selected [sorted [w3 [_ [Hfst [Hsc [Hsel [Hnil Hplay]]]]]]]]]].
    assert (Hnd : NoDup (map fst scores)) by (rewrite Hfst; apply eligible_from_distinct).
    destruct (select_speakers_count _ _ _ _ _ _ Hnd Hsel) as [_ [Hcount _]].
    exists scores, selected, sorted, w2, w3.
    eexists. split; [exact Hsel|]. split; [exact Hsc|].
    split; [rewrite Hcount; cbn [with_agents with_round_count speakers_per_round];
            rewrite Fs; reflexivity|].
    split; [cbn [with_agents with_round_count round_count]; rewrite Fr; reflexivity|].
    split; [exact Hnil|].
    intro Hne. destruct (Hplay Hne)
      as [responses [o4 [w4 [o6 [w5 [flag [o7 [w6 [_ [_ [_ Hrun]]]]]]]]]]].
    eexists. exists o7, w6. exact Hrun. }
  split.
  - intros E Hspr.
    destruct (Hcases E)
      as [scores [selected [sorted [w2 [w3 [o3 [_ [Hsc [Hcount [_ [_ Hplay]]]]]]]]]]].
    apply Hplay. intro Hnil. subst selected. cbn [length] in Hcount.
    destruct scores; [contradiction|]. cbn [length] in Hcount. lia.
  - intros E Hspr.
    destruct (Hcases E)
      as [scores [selected [sorted [w2 [w3 [o3 [_ [_ [Hcount [Hr [Hnil _]]]]]]]]]]].
    rewrite Hspr in Hcount. cbn in Hcount.
    destruct selected; [|discriminate Hcount].
    rewrite (Hnil eq_refl).
    destruct (conclude_ok o3 w3) as [summary [o' [w' Hc]]].
    exists summary, o', w'. split; [exact Hc|].
    apply conclude_inv in Hc. destruct Hc as [s [Hs Hend]]. inversion Hs; subst s.
    apply end_debate_spec in Hend.
    destruct Hend as [_ [_ [_ [_ [_ [_ [_ [_ [_ [Sr _]]]]]]]]]]. congruence.
Qed.

(** *** The continuation check between two rounds *)

(** C9. Evaluating the continuation check mutates the scheduler: while
    rounds remain and the debate is active, [should_continue_debate] runs
    [collect_intent_to_speak] and leaves every cooling-down participant with
    its cooldown decremented.  The check is evaluated by the driver loop
    before every round, again at the start of [run_debate_round], and once
    more for the [continue] flag of the round result, whose evaluation
    yields the state the round returns; and a round whose check at the start
    passes is played whenever a speaker is allowed, so these evaluations do
    take place.  So a cooldown goes down by more than 1 between two scoring
    phases: a participant with cooldown 2 (the value set after speaking) or
    less when the driver tests the loop condition has cooldown 0 at the
    scoring phase of the round that follows and is in its score list. *)
Theorem continuation_check_consumes_cooldown (o : DebateOrchestrator) (w : World) :
  (forall go o' w',
      should_continue_debate o w = (Ok (go, o'), w') ->
      (round_count o < max_rounds o)%Z -> debate_active o = true ->
      o' = with_agents o (map cool_down (agents o))
      /\ (exists scores, collect_intent_to_speak o w = (Ok (scores, o'), w'))
      /\ forall i a, nth_error (agents o) i = Some a -> (0 < cooldown a)%Z ->
           nth_error (agents o') i = Some (with_cooldown a (cooldown a - 1)))
  /\ (forall o1 w1,
        should_continue_debate o w = (Ok (true, o1), w1) ->
        (1 <= speakers_per_round o)%nat ->
        exists r o' w', run_debate_round o w = (Ok (Played r, o'), w'))
  /\ (forall r o' w',
        run_debate_round o w = (Ok (Played r, o'), w') ->
        exists o1 w1 before_flag w4,
          should_continue_debate o w = (Ok (true, o1), w1)
          /\ agents o1 = map cool_down (agents o)
          /\ should_continue_debate before_flag w4 = (Ok (res_continue r, o'), w')
          /\ ((round_count before_flag < max_rounds before_flag)%Z ->
              debate_active before_flag = true ->
              agents o' = map cool_down (agents before_flag)))
  /\ (forall fuel count limit o1 w1 r o2 w2,
        should_continue_debate o w = (Ok (true, o1), w1) ->
        (count < limit)%Z ->
        run_debate_round o1 w1 = (Ok (Played r, o2), w2) ->
        debate_loop (S fuel) count limit o w =
        if res_continue r then debate_loop fuel (count + 1)%Z limit o2 w2
        else (Ok o2, w2))
  /\ (forall go o1 w1 r o2 w2 i a,
        should_continue_debate o w = (Ok (go, o1), w1) ->
        run_debate_round o1 w1 = (Ok (Played r, o2), w2) ->
        nth_error (agents o) i = Some a ->
        (0 <= cooldown a <= 2)%Z ->
        In i (map fst (res_intent_scores r))).
Proof using uniform_between random_sample_subset random_sample_length
            random_sample_distinct random_choices_member.
  split; [|split; [|split; [|split]]].
  - intros go o' w' H Hround Hactive.
    destruct (should_continue_debate_inv _ _ _ _ _ H)
      as [[_ [_ [_ [Hmax|Hina]]]]|[_ [_ Ho']]]; [lia|congruence|].
    split; [exact Ho'|]. split.
    + destruct (collect_intent_spec o w) as [scores [w1 [Hc _]]].
      exists scores. rewrite Hc. subst o'. f_equal.
      unfold should_continue_debate in H.
      apply Z.leb_gt in Hround. rewrite Hround, Hactive in H. cbn [negb] in H.
      rewrite (bind_ok _ _ _ _ _ Hc) in H. inversion H; subst. reflexivity.
    + intros i a Hi Hpos. subst o'. cbn [with_agents agents].
      rewrite nth_error_map, Hi. cbn [option_map].
      rewrite (cool_down_positive a Hpos). reflexivity.
  - intros o1 w1 Hcheck Hspr.
    destruct (run_debate_round_trace o w) as [go [o1' [w1' [Hgo [_ Htrue]]]]].
    rewrite Hcheck in Hgo. inversion Hgo; subst go o1' w1'. clear Hgo.
    specialize (Htrue eq_refl). cbv zeta in Htrue.
    destruct Htrue
      as [scores [w2 [selected [sorted [w3 [_ [Hfst [Hsc [Hsel [_ Hplay]]]]]]]]]].
    assert (Hnd : NoDup (map fst scores)) by (rewrite Hfst; apply eligible_from_distinct).
    destruct (select_speakers_count _ _ _ _ _ _ Hnd Hsel) as [_ [Hcount _]].
    cbn [with_agents with_round_count speakers_per_round] in Hcount.
    pose proof (should_continue_debate_frame _ _ _ _ _ Hcheck)
      as [_ [_ [_ [_ [Fs _]]]]].
    rewrite Fs in Hcount.
    assert (Hne : selected <> []).
    { intro Hnil. subst selected. cbn [length] in Hcount.
      destruct scores; [contradiction|]. cbn [length] in Hcount. lia. }
    destruct (Hplay Hne)
      as [responses [o4 [w4 [o6 [w5 [flag [o7 [w6 [_ [_ [_ Hrun]]]]]]]]]]].
    eexists. exists o7, w6. exact Hrun.
  - intros r o' w' H.
    destruct (run_debate_round_played _ _ _ _ _ H)
      as [o1 [w1 [scores [w2 [selected [w3 [before_flag [w4 [Hgo [_ [_ Hflag]]]]]]]]]]].
    exists o1, w1, before_flag, w4. split; [exact Hgo|]. split.
    + destruct (should_continue_debate_inv _ _ _ _ _ Hgo)
        as [[Hfalse _]|[_ [_ Ho1]]]; [discriminate|].
      subst o1. reflexivity.
    + split; [exact Hflag|]. intros Hround Hactive.
      destruct (should_continue_debate_inv _ _ _ _ _ Hflag)
        as [[_ [_ [_ [Hmax|Hina]]]]|[_ [_ Ho']]]; [lia|congruence|].
      subst o'. reflexivity.
  - intros fuel count limit o1 w1 r o2 w2 Hgo Hcount Hround.
    cbn [debate_loop]. rewrite (bind_ok _ _ _ _ _ Hgo).
    apply Z.ltb_lt in Hcount. rewrite Hcount. cbn [andb].
    rewrite (bind_ok _ _ _ _ _ Hround). destruct (res_continue r); reflexivity.
  - intros go o1 w1 r o2 w2 i a Hcheck Hround Hi Hcool.
    destruct (run_debate_round_played _ _ _ _ _ Hround)
      as [o1' [w1' [scores [w2' [selected [w3 [bf [w4 [Hgo [Hcollect [Hsel _]]]]]]]]]]].
    destruct (should_continue_debate_inv _ _ _ _ _ Hgo)
      as [[Hfalse _]|[Hr1 [Ha1 Ho1']]]; [discriminate|].
    assert (Ho1 : agents o1 = map cool_down (agents o)).
    { destruct (should_continue_debate_inv _ _ _ _ _ Hcheck)
        as [[_ [Heq [_ [Hmax|Hina]]]]|[_ [_ Heq]]]; subst o1.
      - lia.
      - congruence.
      - reflexivity. }
    destruct (collect_intent_spec (with_round_count o1' (round_count o1' + 1)%Z) w1')
      as [scores' [w2'' [Hc' Hfst]]].
    rewrite Hc' in Hcollect. inversion Hcollect; subst scores' w2''.
    apply (Permutation_in _ (Permutation_sym
             (Permutation_map fst (select_speakers_sorted _ _ _ _ _ _ Hsel)))).
    rewrite Hfst. apply eligible_from_In. split; [lia|].
    rewrite Nat.sub_0_r. cbn [with_round_count agents].
    subst o1'. cbn [with_agents agents]. rewrite Ho1.
    exists (cool_down (cool_down a)).
    split; [|apply cool_down_twice; exact Hcool].
    rewrite !nth_error_map, Hi. reflexivity.
Qed.

(** X14. What [run_debate_round] leaves behind.  A round that ends the
    debate closes it and leaves the transcript as it was.  A played round
    raises the round counter by one and reports that number; it has between
    one and [speakers_per_round] responses, from distinct agents of the
    roster, whose names it lists in the same order; its score list is sorted
    by score, highest first; and the transcript grows by exactly these
    responses, in order and stamped with the new round number, followed by
    at most one comment of the moderator. *)
Theorem round_bookkeeping (o : DebateOrchestrator) (w : World) :
  exists outcome o' w',
    run_debate_round o w = (Ok (outcome, o'), w')
    /\ length (agents o') = length (agents o)
    /\ max_rounds o' = max_rounds o /\ speakers_per_round o' = speakers_per_round o
    /\ current_topic o' = current_topic o
    /\ match outcome with
       | Ended summary =>
           debate_active o' = false
           /\ chat_history o' = chat_history o
           /\ sum_chat_history summary = chat_history o
           /\ sum_total_messages summary = length (chat_history o)
           /\ sum_rounds summary = round_count o'
       | Played result =>
           (round_count o < max_rounds o)%Z
           /\ debate_active o = true /\ debate_active o' = true
           /\ round_count o' = (round_count o + 1)%Z
           /\ res_round result = (round_count o + 1)%Z
           /\ (1 <= length (res_responses result) <= speakers_per_round o)%nat
           /\ NoDup (map fst (res_responses result))
           /\ Forall (fun i => (i < length (agents o))%nat)
                     (map fst (res_responses result))
           /\ res_speakers result = speaker_names o (map fst (res_responses result))
           /\ ranked snd (res_intent_scores result)
           /\ exists comment,
                chat_history o'
                = (chat_history o
                   ++ flat_map (transcript_entry
                                  (with_round_count o (round_count o + 1)%Z))
                               (res_responses result)
                   ++ comment)%list
                /\ (comment = []
                    \/ exists text,
                         comment = [ {| speaker := orch_name o; content := text;
                                        round := (round_count o + 1)%Z;
                                        msg_philosophy := None |} ])
       end.
Proof using uniform_between random_sample_subset random_sample_length
            random_sample_distinct random_choices_member.
  destruct (run_debate_round_spec o w)
    as [outcome [o' [w' [Hrun [Hev [Hm [Hs [Ht [_ Hout]]]]]]]]].
  exists outcome, o', w'. split; [exact Hrun|].
  split; [apply (Forall2_evolves_cast _ _ Hev)|].
  split; [exact Hm|]. split; [exact Hs|]. split; [exact Ht|].
  destruct outcome as [summary|result]; [|exact Hout].
  destruct Hout as [H1 [H2 [H3 [H4 [H5 _]]]]]. repeat split; assumption.
Qed.

(** *** [end_debate] *)

Lemma reflected_memory (a a' : PhilosopherAgent) :
  a' = _apply_belief_decay a \/ a' = _check_belief_drift (_apply_belief_decay a) ->
  memory a' = map (decay_entry (memory_decay_rate a)) (memory a).
Proof.
  intros [-> | ->]; [reflexivity|]. rewrite check_belief_drift_memory. reflexivity.
Qed.

Lemma should_continue_debate_closed (o : DebateOrchestrator) (w : World) :
  debate_active o = false -> should_continue_debate o w = (Ok (false, o), w).
Proof.
  intro H. unfold should_continue_debate. rewrite H.
  destruct (max_rounds o <=? round_count o)%Z; reflexivity.
Qed.

(** X15. [end_debate] closes the debate and keeps transcript and round
    counter; its summary reports them, lists the participants in roster
    order and holds one reflection per participant name.  Every call makes
    each agent reflect, and so ages every memory entry of every agent by
    one, removing none.  Once closed the debate stays closed: the
    continuation check answers no without touching anything, and a further
    [run_debate_round] plays nothing but ends the debate again, ageing every
    memory once more. *)
Theorem end_debate_closes_and_ages (o : DebateOrchestrator) (w : World) :
  exists summary o' w',
    end_debate o w = (Ok (summary, o'), w')
    /\ debate_active o' = false
    /\ chat_history o' = chat_history o /\ round_count o' = round_count o
    /\ sum_rounds summary = round_count o
    /\ sum_total_messages summary = length (chat_history o)
    /\ sum_chat_history summary = chat_history o
    /\ sum_participants summary = map (fun a => (name a, philosophy a)) (agents o)
    /\ NoDup (Py.keys (sum_reflections summary))
    /\ (forall nm, In nm (Py.keys (sum_reflections summary))
                   <-> In nm (map name (agents o)))
    /\ map (fun a => map decay_rounds (memory a)) (agents o')
       = map (fun a => map (fun m => (decay_rounds m + 1)%Z) (memory a)) (agents o)
    /\ should_continue_debate o' w' = (Ok (false, o'), w')
    /\ exists summary2 o2 w2,
         run_debate_round o' w' = (Ok (Ended summary2, o2), w2)
         /\ chat_history o2 = chat_history o
         /\ map (fun a => map decay_rounds (memory a)) (agents o2)
            = map (fun a => map (fun m => (decay_rounds m + 1 + 1)%Z) (memory a))
                  (agents o).
Proof.
  assert (Hages : forall l l',
    Forall2 (fun a a' => a' = _apply_belief_decay a
                         \/ a' = _check_belief_drift (_apply_belief_decay a)) l l' ->
    map (fun a => map decay_rounds (memory a)) l'
    = map (fun a => map (fun m => (decay_rounds m + 1)%Z) (memory a)) l).
  { induction 1 as [|a a' l l' Ha _ IH]; [reflexivity|].
    cbn [map]. rewrite IH, (reflected_memory _ _ Ha), map_map. reflexivity. }
  destruct (end_debate_ok o w) as [summary [o' [w' Hend]]].
  exists summary, o', w'. split; [exact Hend|].
  apply end_debate_spec in Hend.
  destruct Hend as [Hall [Eh [Er [_ [Ed [_ [_ [_ [_ [Sr [Sp [St [Sh [Snd Skeys]]]]]]]]]]]]]].
  repeat (split; [assumption|]).
  split; [apply Hages; exact Hall|].
  pose proof (should_continue_debate_closed o' w' Ed) as Hclosed.
  split; [exact Hclosed|].
  destruct (end_debate_ok o' w') as [summary2 [o2 [w2 Hend2]]].
  exists summary2, o2, w2. split.
  - unfold run_debate_round. rewrite (bind_ok _ _ _ _ _ Hclosed). cbn [negb].
    unfold conclude. rewrite (bind_ok _ _ _ _ _ Hend2). reflexivity.
  - apply end_debate_spec in Hend2. destruct Hend2 as [Hall2 [Eh2 _]].
    split; [congruence|].
    rewrite (Hages _ _ Hall2).
    assert (G : forall l l',
      Forall2 (fun a a' => a' = _apply_belief_decay a
                           \/ a' = _check_belief_drift (_apply_belief_decay a)) l l' ->
      map (fun a => map (fun m => (decay_rounds m + 1)%Z) (memory a)) l'
      = map (fun a => map (fun m => (decay_rounds m + 1 + 1)%Z) (memory a)) l).
    { induction 1 as [|a a' l l' Ha _ IH]; [reflexivity|].
      cbn [map]. rewrite IH, (reflected_memory _ _ Ha), map_map. reflexivity. }
    apply G. exact Hall.
Qed.

(** *** When nobody is available *)

Lemma eligible_from_none (l : list PhilosopherAgent) :
  Forall (fun a => cooldown a <> 0%Z) l -> forall i, eligible_from i l = [].
Proof.
  induction 1 as [|a l Ha _ IH]; intro i; [reflexivity|].
  cbn [eligible_from]. apply Z.eqb_neq in Ha. rewrite Ha. apply IH.
Qed.

Lemma nobody_available (o : DebateOrchestrator) (w : World) :
  Forall (fun a => cooldown a <> 0%Z) (agents o) ->
  exists o' w', should_continue_debate o w = (Ok (false, o'), w').
Proof.
  intro H. unfold should_continue_debate.
  destruct (max_rounds o <=? round_count o)%Z; [exists o, w; reflexivity|].
  destruct (debate_active o); cbn [negb]; [|exists o, w; reflexivity].
  destruct (collect_intent_spec o w) as [scores [w' [Hc Hfst]]].
  rewrite (bind_ok _ _ _ _ _ Hc). rewrite (eligible_from_none _ H) in Hfst.
  apply map_eq_nil in Hfst. subst scores. unfold ret. cbn. eexists. eexists. reflexivity.
Qed.

Lemma fold_hears_cooldown (o : DebateOrchestrator) (j : nat)
    (responses : list (nat * string)) :
  forall a, cooldown (fold_left (hears o j) responses a) = cooldown a.
Proof.
  induction responses as [|r rest IH]; intro a; [reflexivity|].
  cbn [fold_left]. rewrite IH. unfold hears.
  destruct (nth_error (agents o) (fst r)); [|reflexivity].
  destruct (Nat.eqb (fst r) j); [reflexivity|]. apply update_memory_philosophy.
Qed.

(** X16. The continuation check does not wait for anybody: when every
    participant is cooling down it answers no, although a later check would
    find them available again.  So a round that is played while everybody
    is available, by a roster no larger than [speakers_per_round], is the
    last one: everybody speaks, everybody is cooling down afterwards (with
    cooldown 1 or 2), and the round result carries [continue = False]. *)
Theorem debate_stops_when_everybody_cools_down (o : DebateOrchestrator) (w : World) :
  (Forall (fun a => cooldown a <> 0%Z) (agents o) ->
   exists o' w', should_continue_debate o w = (Ok (false, o'), w'))
  /\ (Forall (fun a => cooldown a = 0%Z) (agents o) ->
      (length (agents o) <= speakers_per_round o)%nat ->
      exists outcome o' w',
        run_debate_round o w = (Ok (outcome, o'), w')
        /\ match outcome with
           | Ended _ => True
           | Played result =>
               res_continue result = false
               /\ length (res_responses result) = length (agents o)
               /\ Forall (fun a => (1 <= cooldown a <= 2)%Z) (agents o')
           end).
Proof using uniform_between random_sample_subset random_sample_length
            random_sample_distinct random_choices_member.
  split; [apply nobody_available|].
  intros Hidle Hsmall.
  destruct (run_debate_round_trace o w) as [go [o1 [w1 [Hgo [Hfalse Htrue]]]]].
  destruct go.
  2:{ rewrite (Hfalse eq_refl).
      destruct (conclude_ok o1 w1) as [summary [o' [w' Hc]]].
      exists (Ended summary), o', w'. split; [exact Hc|exact I]. }
  clear Hfalse. specialize (Htrue eq_refl). cbv zeta in Htrue.
  destruct (should_continue_debate_true _ _ _ _ Hgo) as [_ [_ [Ho1 _]]].
  rewrite (map_cool_down_idle _ Hidle) in Ho1.
  assert (Ho1' : o1 = o) by (rewrite Ho1; destruct o; reflexivity).
  clear Ho1. subst o1.
  set (o2 := with_round_count o (round_count o + 1)%Z) in *.
  destruct Htrue
    as [scores [w2 [selected [sorted [w3 [Hcollect [Hfst [Hsc [Hsel [Hnil Hplay]]]]]]]]]].
  change (agents o2) with (agents o) in *.
  rewrite (map_cool_down_idle _ Hidle) in *.
  rewrite (eligible_from_idle _ Hidle) in Hfst.
  set (o3 := with_agents o2 (agents o)) in *.
  assert (Hnd : NoDup (map fst scores)) by (rewrite Hfst; apply seq_NoDup).
  destruct (select_speakers_count o3 scores w2 w3 selected sorted Hnd Hsel)
    as [Hdistinct [Hcount Hincl]].
  assert (Hlen : length scores = length (agents o)).
  { rewrite <- (length_map fst scores), Hfst. apply length_seq. }
  change (speakers_per_round o3) with (speakers_per_round o) in Hcount.
  rewrite Hlen, Nat.min_r in Hcount by exact Hsmall.
  assert (Hall : forall j, (j < length (agents o))%nat -> In j selected).
  { intros j Hj.
    apply (NoDup_length_incl Hdistinct (l' := map fst scores));
      [rewrite length_map; lia|exact Hincl|].
    rewrite Hfst. apply in_seq. lia. }
  destruct selected as [|s0 selected'].
  { rewrite (Hnil eq_refl).
    destruct (conclude_ok o3 w3) as [summary [o' [w' Hc]]].
    exists (Ended summary), o', w'. split; [exact Hc|exact I]. }
  destruct (Hplay ltac:(discriminate))
    as [responses [o4 [w4 [o6 [w5 [flag [o7 [w6 [Hgen [Hint [Hflag Hrun]]]]]]]]]]].
  set (selected := s0 :: selected') in *.
  eexists. exists o7, w6. split; [exact Hrun|].
  cbn [res_continue res_responses].
  pose proof (generate_agent_responses_fst _ _ _ _ _ _ Hgen) as Hrfst.
  change (agents o3) with (agents o) in Hrfst.
  rewrite filter_all in Hrfst.
  2:{ intros i Hi. apply Nat.ltb_lt. apply Hincl in Hi. rewrite Hfst in Hi.
      apply in_seq in Hi. lia. }
  pose proof (generate_agent_responses_evolves _ _ _ _ _ _ Hgen) as [E4 _].
  pose proof (update_memory_and_reflection_spec o4 responses) as U. cbv zeta in U.
  set (o5 := update_memory_and_reflection o4 responses) in *.
  destruct U as [_ [Ua _]].
  pose proof (update_memory_and_reflection_evolves o4 responses) as E5. fold o5 in E5.
  pose proof (Forall2_length E4) as L4. change (agents o3) with (agents o) in L4.
  pose proof (Forall2_length E5) as L5.
  assert (Hcool5 : Forall (fun a => cooldown a = 2%Z) (agents o5)).
  { apply Forall_forall. intros a Ha. apply In_nth_error in Ha. destruct Ha as [j Hj].
    rewrite Ua in Hj.
    destruct (nth_error (agents o4) j) as [b|] eqn:Eb; [|discriminate Hj].
    cbn [option_map] in Hj. inversion Hj; subst a. rewrite fold_hears_cooldown.
    assert (Hjlt : (j < length (agents o))%nat).
    { rewrite L4. apply nth_error_Some. congruence. }
    replace (existsb (Nat.eqb j) (map fst responses)) with true; [reflexivity|].
    symmetry. apply existsb_exists. exists j. split; [|apply Nat.eqb_refl].
    rewrite Hrfst. apply Hall. exact Hjlt. }
  assert (Hagents5 : agents o5 <> []).
  { intro Hn5. rewrite Hn5 in L5. cbn [length] in L5.
    assert (Hin : In s0 selected) by (left; reflexivity).
    apply Hincl in Hin. rewrite Hfst in Hin. apply in_seq in Hin. lia. }
  destruct (maybe_intervene_spec o5 w4 Hagents5)
    as [o6' [w5' [Hint' [Ia _]]]].
  rewrite Hint in Hint'. inversion Hint'; subst o6' w5'. clear Hint'.
  assert (Hbusy : Forall (fun a => cooldown a <> 0%Z) (agents o6)).
  { rewrite Ia. eapply Forall_impl; [|exact Hcool5]. intros a Ha. rewrite Ha. discriminate. }
  destruct (nobody_available o6 w5 Hbusy) as [o7' [w6' Hno]].
  assert (Hf : flag = false) by (rewrite Hflag in Hno; congruence).
  subst flag. clear Hno.
  split; [reflexivity|].
  split; [rewrite <- (length_map fst responses), Hrfst; exact Hcount|].
  destruct (should_continue_debate_inv _ _ _ _ _ Hflag) as [[_ [-> _]]|[_ [_ ->]]].
  - rewrite Ia. eapply Forall_impl; [|exact Hcool5]. intros a Ha. rewrite Ha. lia.
  - cbn [with_agents agents]. rewrite Ia. apply Forall_map.
    eapply Forall_impl; [|exact Hcool5]. intros a Ha.
    rewrite cool_down_positive by (rewrite Ha; lia).
    cbn [with_cooldown cooldown]. rewrite Ha. lia.
Qed.

(** *** The driver loops *)

Lemma follows_refl (o : DebateOrchestrator) : follows o o.
Proof.
  unfold follows. split; [apply Forall2_evolves_refl|].
  repeat (split; [reflexivity || lia|]).
  exists []. rewrite app_nil_r. split; [reflexivity|]. cbn. lia.
Qed.

Lemma follows_trans (o1 o2 o3 : DebateOrchestrator) :
  follows o1 o2 -> follows o2 o3 -> follows o1 o3.
Proof.
  intros [E1 [M1 [S1 [T1 [N1 [L1 [U1 [said1 [H1 B1]]]]]]]]]
         [E2 [M2 [S2 [T2 [N2 [L2 [U2 [said2 [H2 B2]]]]]]]]].
  unfold follows. split; [eapply Forall2_evolves_trans; eassumption|].
  split; [congruence|]. split; [congruence|]. split; [congruence|].
  split; [congruence|]. split; [lia|]. split; [rewrite M1 in U2; lia|].
  exists (said1 ++ said2)%list. split; [rewrite H2, H1, app_assoc; reflexivity|].
  rewrite length_app. rewrite S1 in B2.
  replace (Z.to_nat (round_count o3 - round_count o1))
    with (Z.to_nat (round_count o2 - round_count o1)
          + Z.to_nat (round_count o3 - round_count o2))%nat by lia.
  rewrite Nat.mul_add_distr_l. lia.
Qed.

Lemma should_continue_debate_follows (o : DebateOrchestrator) (w w1 : World)
    (go : bool) (o1 : DebateOrchestrator) :
  should_continue_debate o w = (Ok (go, o1), w1) -> follows o o1.
Proof.
  intro H. pose proof (should_continue_debate_evolves _ _ _ _ _ H) as E.
  destruct (should_continue_debate_frame _ _ _ _ _ H)
    as [Fh [Fr [Fm [Fd [Fs [Ft [Fn _]]]]]]].
  unfold follows. split; [exact E|]. repeat (split; [congruence || lia|]).
  exists []. rewrite app_nil_r. split; [exact Fh|]. cbn. lia.
Qed.

Lemma end_debate_follows (o : DebateOrchestrator) (w w' : World)
    (summary : Summary) (o' : DebateOrchestrator) :
  end_debate o w = (Ok (summary, o'), w') -> follows o o'.
Proof.
  intro H. pose proof (end_debate_evolves _ _ _ _ _ H) as E.
  apply end_debate_spec in H.
  destruct H as [_ [Eh [Er [Em [_ [Es [Et [En _]]]]]]]].
  unfold follows. split; [exact E|]. repeat (split; [congruence || lia|]).
  exists []. rewrite app_nil_r. split; [exact Eh|]. cbn. lia.
Qed.

Lemma length_transcript_entries (o : DebateOrchestrator) (responses : list (nat * string)) :
  (length (flat_map (transcript_entry o) responses) <= length responses)%nat.
Proof.
  induction responses as [|r rest IH]; [cbn; lia|].
  cbn [flat_map length]. rewrite length_app. unfold transcript_entry at 1.
  destruct (nth_error (agents o) (fst r)); cbn [length]; lia.
Qed.

Lemma run_debate_round_follows (o : DebateOrchestrator) (w : World) :
  speakers_per_round o <> 0%nat ->
  exists outcome o' w',
    run_debate_round o w = (Ok (outcome, o'), w') /\ follows o o'.
Proof using uniform_between random_sample_subset random_sample_length
            random_sample_distinct random_choices_member.
  intro Hspr.
  destruct (run_debate_round_spec o w)
    as [outcome [o' [w' [Hrun [Hev [Hm [Hs [Ht [Hn Hout]]]]]]]]].
  exists outcome, o', w'. split; [exact Hrun|].
  unfold follows. split; [exact Hev|].
  split; [exact Hm|]. split; [exact Hs|]. split; [exact Ht|]. split; [exact Hn|].
  destruct outcome as [summary|result].
  - destruct Hout as [_ [Hh [_ [_ [_ [Hr|[_ [_ Hzero]]]]]]]]; [|contradiction].
    split; [lia|]. split; [lia|].
    exists []. rewrite app_nil_r. split; [exact Hh|]. cbn. lia.
  - destruct Hout as [Hlt [_ [_ [Hr [_ [Hcount [_ [_ [_ [_ [comment [Hh Hc]]]]]]]]]]]].
    split; [lia|]. split; [lia|].
    eexists. split; [exact Hh|]. rewrite length_app.
    pose proof (length_transcript_entries
                  (with_round_count o (round_count o + 1)%Z) (res_responses result)).
    assert (length comment <= 1)%nat
      by (destruct Hc as [->|[text ->]]; cbn; lia).
    replace (Z.to_nat (round_count o' - round_count o)) with 1%nat by lia.
    lia.
Qed.

Lemma debate_loop_follows (fuel : nat) :
  forall (count limit : Z) (o : DebateOrchestrator) (w : World),
    speakers_per_round o <> 0%nat ->
    exists o' w', debate_loop fuel count limit o w = (Ok o', w') /\ follows o o'.
Proof using uniform_between random_sample_subset random_sample_length
            random_sample_distinct random_choices_member.
  induction fuel as [|fuel IH]; intros count limit o w Hspr.
  - cbn [debate_loop].
    destruct (should_continue_debate_spec o w) as [go [o1 [w1 [Hgo _]]]].
    rewrite (bind_ok _ _ _ _ _ Hgo).
    pose proof (should_continue_debate_follows _ _ _ _ _ Hgo) as F1.
    exists o1, w1. split; [|exact F1].
    destruct (go && (count <? limit)%Z)%bool; reflexivity.
  - cbn [debate_loop].
    destruct (should_continue_debate_spec o w) as [go [o1 [w1 [Hgo _]]]].
    rewrite (bind_ok _ _ _ _ _ Hgo).
    pose proof (should_continue_debate_follows _ _ _ _ _ Hgo) as F1.
    destruct (go && (count <? limit)%Z)%bool; [|exists o1, w1; split; [reflexivity|exact F1]].
    assert (Hspr1 : speakers_per_round o1 <> 0%nat).
    { destruct F1 as [_ [_ [S1 _]]]. rewrite S1. exact Hspr. }
    destruct (run_debate_round_follows o1 w1 Hspr1) as [outcome [o2 [w2 [Hrun F2]]]].
    rewrite (bind_ok _ _ _ _ _ Hrun).
    assert (Hspr2 : speakers_per_round o2 <> 0%nat).
    { destruct F2 as [_ [_ [S2 _]]]. rewrite S2. exact Hspr1. }
    assert (F12 : follows o o2) by (eapply follows_trans; eassumption).
    destruct outcome as [summary|result].
    + destruct (IH (count + 1)%Z limit o2 w2 Hspr2) as [o' [w' [Hloop F3]]].
      exists o', w'. split; [exact Hloop|]. eapply follows_trans; eassumption.
    + destruct (res_continue result).
      * destruct (IH (count + 1)%Z limit o2 w2 Hspr2) as [o' [w' [Hloop F3]]].
        exists o', w'. split; [exact Hloop|]. eapply follows_trans; eassumption.
      * exists o2, w2. split; [reflexivity|exact F12].
Qed.

Lemma test_loop_follows (fuel : nat) :
  forall (count : Z) (o : DebateOrchestrator) (w : World),
    speakers_per_round o <> 0%nat ->
    exists o' w', test_loop fuel count o w = (Ok o', w') /\ follows o o'.
Proof using uniform_between random_sample_subset random_sample_length
            random_sample_distinct random_choices_member.
  induction fuel as [|fuel IH]; intros count o w Hspr.
  - cbn [test_loop].
    destruct (should_continue_debate_spec o w) as [go [o1 [w1 [Hgo _]]]].
    rewrite (bind_ok _ _ _ _ _ Hgo).
    pose proof (should_continue_debate_follows _ _ _ _ _ Hgo) as F1.
    exists o1, w1. split; [|exact F1].
    destruct (go && (count <? max_rounds o1)%Z)%bool; reflexivity.
  - cbn [test_loop].
    destruct (should_continue_debate_spec o w) as [go [o1 [w1 [Hgo _]]]].
    rewrite (bind_ok _ _ _ _ _ Hgo).
    pose proof (should_continue_debate_follows _ _ _ _ _ Hgo) as F1.
    destruct (go && (count <? max_rounds o1)%Z)%bool;
      [|exists o1, w1; split; [reflexivity|exact F1]].
    assert (Hspr1 : speakers_per_round o1 <> 0%nat).
    { destruct F1 as [_ [_ [S1 _]]]. rewrite S1. exact Hspr. }
    destruct (run_debate_round_follows o1 w1 Hspr1) as [outcome [o2 [w2 [Hrun F2]]]].
    rewrite (bind_ok _ _ _ _ _ Hrun).
    assert (Hspr2 : speakers_per_round o2 <> 0%nat).
    { destruct F2 as [_ [_ [S2 _]]]. rewrite S2. exact Hspr1. }
    destruct (IH (count + 1)%Z o2 w2 Hspr2) as [o' [w' [Hloop F3]]].
    exists o', w'. split; [exact Hloop|].
    eapply follows_trans; [exact F1|]. eapply follows_trans; eassumption.
Qed.

(** The reflections of [end_debate] are keyed by the names of the roster,
    in roster order, when these are distinct. *)
Lemma reflect_all_keys (history : list Message) (transcript : string)
    (roster : list PhilosopherAgent) :
  forall (reflections : list (string * string)) (w w' : World) reflections' roster',
    reflect_all history transcript roster reflections w
      = (Ok (reflections', roster'), w') ->
    NoDup (Py.keys reflections ++ map name roster) ->
    Py.keys reflections' = (Py.keys reflections ++ map name roster)%list.
Proof.
  induction roster as [|a rest IH]; intros reflections w w' reflections' roster' H Hnd.
  - cbn in H. inversion H; subst. cbn. rewrite app_nil_r. reflexivity.
  - cbn [reflect_all] in H.
    pose proof (reflect_spec a history transcript w) as Hr. cbv zeta in Hr.
    destruct Hr as [text [a' [w1 [Hrefl _]]]].
    rewrite (bind_ok _ _ _ _ _ Hrefl) in H.
    apply bind_inv in H. destruct H as [[refl1 rest'] [w2 [Hrec H]]].
    inversion H; subst.
    assert (Hkeys : Py.keys (dict_set (name a) text reflections)
                    = (Py.keys reflections ++ [name a])%list).
    { rewrite dict_set_keys.
      destruct (Py.mem (name a) (Py.keys reflections)) eqn:E; [|reflexivity].
      exfalso. apply mem_In in E. cbn [map] in Hnd.
      apply NoDup_remove_2 in Hnd. apply Hnd. apply in_or_app. left. exact E. }
    apply IH in Hrec.
    + rewrite Hrec, Hkeys, <- app_assoc. reflexivity.
    + rewrite Hkeys, <- app_assoc. exact Hnd.
Qed.

Lemma end_debate_keys (o : DebateOrchestrator) (w w' : World)
    (summary : Summary) (o' : DebateOrchestrator) :
  end_debate o w = (Ok (summary, o'), w') ->
  NoDup (map name (agents o)) ->
  Py.keys (sum_reflections summary) = map name (agents o).
Proof.
  intros H Hnd. unfold end_debate in H. cbv zeta in H.
  apply bind_inv in H. destruct H as [[reflections roster] [w1 [Hall H]]].
  inversion H; subst. cbn [sum_reflections].
  apply reflect_all_keys in Hall; [exact Hall|exact Hnd].
Qed.

Lemma Forall2_evolves_names (l l' : list PhilosopherAgent) :
  Forall2 evolves l l' ->
  map (fun a => (name a, philosophy a)) l' = map (fun a => (name a, philosophy a)) l
  /\ map name l' = map name l
  /\ map belief_drift_threshold l' = map belief_drift_threshold l.
Proof.
  induction 1 as [|a b l l' Hab _ [IH1 [IH2 IH3]]]; [repeat split|].
  cbn [map]. apply evolves_identity in Hab.
  destruct Hab as [H1 [H2 [_ [_ [_ [H6 _]]]]]].
  rewrite IH1, IH2, IH3, H1, H2, H6. repeat split.
Qed.

(** What one whole debate leaves, for a driver that opens the debate, runs
    its loop and ends the debate. *)
Lemma whole_debate_spec (o0 : DebateOrchestrator) (topic : string)
    (loop : DebateOrchestrator -> M DebateOrchestrator) (w : World) :
  speakers_per_round o0 <> 0%nat ->
  NoDup (map name (agents o0)) ->
  (forall o w, speakers_per_round o <> 0%nat ->
               exists o' w', loop o w = (Ok o', w') /\ follows o o') ->
  exists summary o' w',
    bind (loop (snd (start_debate o0 topic))) end_debate w = (Ok (summary, o'), w')
    /\ (0 <= sum_rounds summary <= Z.max 0 (max_rounds o0))%Z
    /\ (1 <= sum_total_messages summary
        <= 1 + (speakers_per_round o0 + 1) * Z.to_nat (sum_rounds summary))%nat
    /\ sum_total_messages summary = length (sum_chat_history summary)
    /\ hd_error (sum_chat_history summary)
       = Some {| speaker := orch_name o0; content := fst (start_debate o0 topic);
                 round := 0%Z; msg_philosophy := None |}
    /\ sum_topic summary = Some topic
    /\ sum_participants summary = map (fun a => (name a, philosophy a)) (agents o0)
    /\ Py.keys (sum_reflections summary) = map name (agents o0)
    /\ debate_active o' = false
    /\ round_count o' = sum_rounds summary
    /\ chat_history o' = sum_chat_history summary
    /\ Forall2 evolves (agents o0) (agents o').
Proof.
  intros Hspr Hnd Hloop.
  set (o1 := snd (start_debate o0 topic)).
  assert (Hspr1 : speakers_per_round o1 <> 0%nat) by exact Hspr.
  destruct (Hloop o1 w Hspr1) as [o2 [w2 [Hl F]]].
  destruct (end_debate_ok o2 w2) as [summary [o' [w' Hend]]].
  exists summary, o', w'. split; [rewrite (bind_ok _ _ _ _ _ Hl); exact Hend|].
  pose proof (end_debate_evolves _ _ _ _ _ Hend) as E3.
  pose proof (end_debate_keys _ _ _ _ _ Hend) as Hkeys.
  apply end_debate_spec in Hend.
  destruct Hend as [_ [Eh [Er [_ [Ed [_ [_ [_ [St [Sr [Sp [Sm [Sh _]]]]]]]]]]]]].
  destruct F as [E2 [M2 [S2 [T2 [N2 [L2 [U2 [said [H2 B2]]]]]]]]].
  assert (E1 : Forall2 evolves (agents o0) (agents o1)).
  { unfold o1, start_debate. cbn [snd with_history agents].
    apply Forall2_evolves_map. intro a. apply evolves_start_debate. apply evolves_refl. }
  pose proof (Forall2_evolves_names _ _ (Forall2_evolves_trans _ _ _ E1 E2))
    as [Hpart [Hnames _]].
  change (round_count o1) with 0%Z in *. change (max_rounds o1) with (max_rounds o0) in *.
  change (speakers_per_round o1) with (speakers_per_round o0) in *.
  rewrite Z.sub_0_r in B2.
  split; [rewrite Sr; lia|].
  split.
  { rewrite Sm, Sr, H2, length_app.
    change (length (chat_history o1)) with 1%nat. lia. }
  split; [rewrite Sm, Sh; reflexivity|].
  split; [rewrite Sh, H2; reflexivity|].
  split; [rewrite St, T2; reflexivity|].
  split; [rewrite Sp; exact Hpart|].
  split; [rewrite Hkeys; [exact Hnames|rewrite Hnames; exact Hnd]|].
  split; [exact Ed|]. split; [congruence|]. split; [congruence|].
  eapply Forall2_evolves_trans; [exact E1|].
  eapply Forall2_evolves_trans; [exact E2|exact E3].
Qed.

(** X17. A debate run by [run_debate] always comes to its summary, and the
    summary stays within bounds: the rounds counted are between 0 and
    [max_rounds], the transcript starts with the moderator's opening message
    and holds at most three more messages per round, and the five
    philosophers are listed as participants, each with one reflection, in
    roster order. *)
Theorem run_debate_stays_within_bounds (topic : string) (limit : Z) (w : World) :
  exists summary o' w',
    run_debate topic limit w = (Ok (summary, o'), w')
    /\ (0 <= sum_rounds summary <= Z.max 0 limit)%Z
    /\ (1 <= sum_total_messages summary <= 1 + 3 * Z.to_nat (sum_rounds summary))%nat
    /\ sum_total_messages summary = length (sum_chat_history summary)
    /\ option_map speaker (hd_error (sum_chat_history summary)) = Some "Moderator"
    /\ sum_topic summary = Some topic
    /\ sum_participants summary
       = [ ("Kant", "deontology"); ("Mill", "consequentialism");
           ("Confucian_Sage", "confucian"); ("Existentialist", "existentialist");
           ("Santideva", "buddhist") ]
    /\ Py.keys (sum_reflections summary)
       = ["Kant"; "Mill"; "Confucian_Sage"; "Existentialist"; "Santideva"]
    /\ debate_active o' = false.
Proof using uniform_between random_sample_subset random_sample_length
            random_sample_distinct random_choices_member.
  set (o0 := {| orch_name := "Moderator"; agents := create_philosophers;
                chat_history := []; current_topic := None; round_count := 0%Z;
                max_rounds := limit; debate_active := false;
                speakers_per_round := 2%nat |}).
  destruct (whole_debate_spec o0 topic
              (debate_loop (Z.to_nat limit) 0%Z limit) w)
    as [summary [o' [w' [Hrun [Hr [Hm [Hl [Hh [Ht [Hp [Hk [Hd _]]]]]]]]]]]].
  - cbn. discriminate.
  - cbn. repeat constructor; cbn; intuition discriminate.
  - intros o w0 Hspr. apply debate_loop_follows. exact Hspr.
  - exists summary, o', w'. split; [exact Hrun|].
    split; [exact Hr|]. split; [exact Hm|]. split; [exact Hl|].
    split; [rewrite Hh; reflexivity|]. split; [exact Ht|].
    split; [exact Hp|]. split; [exact Hk|exact Hd].
Qed.

Lemma run_debate_ok (topic : string) (limit : Z) (w : World) :
  exists summary o' w', run_debate topic limit w = (Ok (summary, o'), w').
Proof using uniform_between.
  unfold run_debate. cbv zeta.
  destruct (debate_loop_ok uniform_between (Z.to_nat limit) 0%Z limit
              (snd (start_debate
                      {| orch_name := "Moderator"; agents := create_philosophers;
                         chat_history := []; current_topic := None;
                         round_count := 0%Z; max_rounds := limit;
                         debate_active := false; speakers_per_round := 2%nat |}
                      topic)) w) as [o1 [w1 Hloop]].
  rewrite (bind_ok _ _ _ _ _ Hloop). apply end_debate_ok.
Qed.

(** X18. The only way [run_debate] fails is a missing API key: without
    the environment variable, or with an empty one, it raises [ValueError]
    before anything else happens (no random number is drawn, the language
    model is not called); with a key it returns the summary of the debate,
    whatever the language model does. *)
Theorem run_debate_fails_only_without_a_key
    (api_key : option string) (topic : string) (limit : Z) (w : World) :
  (api_key = None \/ api_key = Some "" ->
   run_debate_with_key api_key topic limit w = (Raise ValueError, w))
  /\ (forall key, api_key = Some key -> key <> "" ->
      run_debate_with_key api_key topic limit w = run_debate topic limit w
      /\ exists summary o' w',
           run_debate_with_key api_key topic limit w = (Ok (summary, o'), w')).
Proof using uniform_between.
  split.
  - intros [-> | ->]; reflexivity.
  - intros key -> Hkey.
    destruct (run_debate_ok topic limit w)
      as [summary [o' [w' Hrun]]].
    assert (E : run_debate_with_key (Some key) topic limit w = run_debate topic limit w).
    { unfold run_debate_with_key, try_except, setup_llm_config.
      destruct key as [|c key]; [contradiction|]. cbn [Py.is_empty].
      rewrite Hrun. reflexivity. }
    split; [exact E|]. exists summary, o', w'. rewrite E. exact Hrun.
Qed.

(** *** Invariants of a round *)

Lemma Forall2_evolves_keeps (P : PhilosopherAgent -> Prop) (l l' : list PhilosopherAgent) :
  (forall a b, evolves a b -> P a -> P b) ->
  Forall2 evolves l l' -> Forall P l -> Forall P l'.
Proof.
  intros HP H. induction H as [|a b l l' Hab _ IH]; intro Hl; [constructor|].
  inversion Hl; subst. constructor; [eapply HP; eassumption|apply IH; assumption].
Qed.

(** X19. A round never changes who takes part: the roster keeps its
    length and order, and every agent keeps its name, philosophy, base
    system message, goals, reactivity threshold, drift threshold and decay
    rate.  What a round can change of an agent is its cooldown, its memory,
    its system message and whether it has a [chat_history] attribute. *)
Theorem round_keeps_the_identity_of_agents (o : DebateOrchestrator) (w : World) :
  exists outcome o' w',
    run_debate_round o w = (Ok (outcome, o'), w')
    /\ Forall2 (fun a a' =>
                  name a' = name a /\ philosophy a' = philosophy a
                  /\ initial_system_message a' = initial_system_message a
                  /\ goals a' = goals a
                  /\ reactivity_threshold a' = reactivity_threshold a
                  /\ belief_drift_threshold a' = belief_drift_threshold a
                  /\ memory_decay_rate a' = memory_decay_rate a)
               (agents o) (agents o').
Proof using uniform_between random_sample_subset random_sample_length
            random_sample_distinct random_choices_member.
  destruct (run_debate_round_spec o w) as [outcome [o' [w' [Hrun [Hev _]]]]].
  exists outcome, o', w'. split; [exact Hrun|].
  eapply Forall2_impl; [|exact Hev]. intros a b Hab. apply evolves_identity. exact Hab.
Qed.

Lemma check_belief_drift_cooldown (a : PhilosopherAgent) :
  cooldown (_check_belief_drift a) = cooldown a
  /\ has_chat_history (_check_belief_drift a) = has_chat_history a.
Proof.
  unfold _check_belief_drift. destruct (memory a) as [|m0 l0]; [split; reflexivity|].
  clear m0 l0. generalize (philosophy_scores a). intro l. revert a.
  induction l as [|e l IH]; intro a; [split; reflexivity|].
  cbn [fold_left].
  destruct (IH (if drifts a e then _modify_system_prompt a (fst e) (snd e) else a))
    as [I1 I2].
  rewrite I1, I2. destruct (drifts a e); split; reflexivity.
Qed.

Lemma evolves_cooldown (a b : PhilosopherAgent) :
  evolves a b -> (0 <= cooldown a <= 2)%Z -> (0 <= cooldown b <= 2)%Z.
Proof.
  induction 1 as [|b _ IH|b _ IH|b _ IH|b _ IH|b message sp _ IH|b _ IH|b _ IH];
    intro Ha; try specialize (IH Ha).
  - exact Ha.
  - cbn. lia.
  - unfold reduce_cooldown. destruct (0 <? cooldown b)%Z eqn:E; [|exact IH].
    apply Z.ltb_lt in E. cbn [with_cooldown cooldown]. lia.
  - exact IH.
  - cbn. lia.
  - rewrite (proj2 (proj2 (update_memory_philosophy b message _ sp))). exact IH.
  - exact IH.
  - rewrite (proj1 (check_belief_drift_cooldown b)). exact IH.
Qed.

(** X20. Cooldowns stay between 0 and 2: if every agent's cooldown is in
    that range before a round, so it is after the round, whether the round
    was played or ended the debate. *)
Theorem cooldown_stays_between_0_and_2 (o : DebateOrchestrator) (w : World) :
  Forall (fun a => (0 <= cooldown a <= 2)%Z) (agents o) ->
  exists outcome o' w',
    run_debate_round o w = (Ok (outcome, o'), w')
    /\ Forall (fun a => (0 <= cooldown a <= 2)%Z) (agents o').
Proof using uniform_between random_sample_subset random_sample_length
            random_sample_distinct random_choices_member.
  intro H. destruct (run_debate_round_spec o w) as [outcome [o' [w' [Hrun [Hev _]]]]].
  exists outcome, o', w'. split; [exact Hrun|].
  exact (Forall2_evolves_keeps _ _ _ evolves_cooldown Hev H).
Qed.

Lemma update_memory_store_ok (a : PhilosopherAgent) (message : string)
    (importance_score : Q) (speaker_phil : option string) :
  importance_score <= 1 -> store_ok (memory a) ->
  store_ok (memory (update_memory a message importance_score speaker_phil)).
Proof.
  intros Himp [Hall Hcap]. rewrite update_memory_unfold. cbv zeta.
  set (candidates := record_candidates a message importance_score speaker_phil).
  assert (Hcand : Forall entry_ok candidates).
  { apply cleaned_entry_ok. apply Forall_app. split.
    - eapply Forall_impl; [|exact Hall].
      intros m (H1 & H2 & H3 & H4 & H5). repeat split; assumption.
    - constructor; [|constructor].
      cbn [recorded_entry importance opinion_weight decay_rounds].
      pose proof (opinion_weight_clamped a message speaker_phil) as [Hlo Hhi].
      repeat split; try assumption. lia. }
  destruct (Nat.ltb 15 (length candidates)) eqn:E.
  - split; [|rewrite length_firstn; lia].
    apply Forall_forall. intros m Hm. rewrite Forall_forall in Hcand. apply Hcand.
    apply (Permutation_in _ (sorted_desc_perm memory_rank candidates)).
    rewrite <- (firstn_skipn 15 (sorted_desc memory_rank candidates)).
    apply in_or_app. left. exact Hm.
  - apply Nat.ltb_ge in E. split; assumption.
Qed.

Lemma decay_store_ok (a : PhilosopherAgent) :
  0 <= memory_decay_rate a -> store_ok (memory a) ->
  store_ok (memory (_apply_belief_decay a)).
Proof.
  intros Hrate [Hall Hcap]. unfold _apply_belief_decay. cbn [with_memory memory]. split.
  - apply Forall_map. eapply Forall_impl; [|exact Hall].
    intros m Hm. apply decay_entry_ok; assumption.
  - rewrite length_map. exact Hcap.
Qed.

Lemma evolves_store_ok (a b : PhilosopherAgent) :
  evolves a b ->
  store_ok (memory a) /\ 0 <= memory_decay_rate a ->
  store_ok (memory b) /\ 0 <= memory_decay_rate b.
Proof.
  intros Hab [Hs Hr].
  split; [|rewrite (proj2 (proj2 (proj2 (proj2 (proj2 (proj2
                      (evolves_identity _ _ Hab))))))); exact Hr].
  induction Hab as [|b Hab IH|b Hab IH|b Hab IH|b Hab IH|b message sp Hab IH|b Hab IH|b Hab IH].
  - exact Hs.
  - exact IH.
  - unfold reduce_cooldown. destruct (0 <? cooldown b)%Z; exact IH.
  - exact IH.
  - exact IH.
  - apply update_memory_store_ok; [|exact IH].
    apply message_importance_range.
  - apply decay_store_ok; [|exact IH].
    rewrite (proj2 (proj2 (proj2 (proj2 (proj2 (proj2
               (evolves_identity _ _ Hab))))))). exact Hr.
  - rewrite check_belief_drift_memory. exact IH.
Qed.

(** X21. The bounds on the memory hold throughout a debate: if before a
    round every agent has at most 15 entries, each with importance in (0,1],
    opinion weight in [-1,1] and a non-negative age, and no decay rate is
    negative, the same is true after the round, whether it was played or
    ended the debate with its reflections. *)
Theorem round_keeps_the_memory_bounds (o : DebateOrchestrator) (w : World) :
  Forall (fun a => store_ok (memory a) /\ 0 <= memory_decay_rate a) (agents o) ->
  exists outcome o' w',
    run_debate_round o w = (Ok (outcome, o'), w')
    /\ Forall (fun a => store_ok (memory a) /\ 0 <= memory_decay_rate a) (agents o').
Proof using uniform_between random_sample_subset random_sample_length
            random_sample_distinct random_choices_member.
  intro H. destruct (run_debate_round_spec o w) as [outcome [o' [w' [Hrun [Hev _]]]]].
  exists outcome, o', w'. split; [exact Hrun|].
  exact (Forall2_evolves_keeps _ _ _ evolves_store_ok Hev H).
Qed.

Lemma check_belief_drift_message (a : PhilosopherAgent) :
  system_message (_check_belief_drift a) = system_message a
  \/ exists p s,
       system_message (_check_belief_drift a)
       = initial_system_message a ++ modification_prompt a p s.
Proof.
  unfold _check_belief_drift. destruct (memory a) as [|m0 l0]; [left; reflexivity|].
  rewrite (drift_fold_filter a (philosophy_scores a) a eq_refl eq_refl).
  rewrite (modify_fold_message a _ a eq_refl eq_refl).
  destruct (rev (filter (drifts a) (philosophy_scores a))) as [|e l];
    [left; reflexivity|].
  right. exists (fst e), (snd e). reflexivity.
Qed.

Lemma modification_prompt_philosophy (a b : PhilosopherAgent) (p : string) (s : Q) :
  philosophy b = philosophy a -> modification_prompt b p s = modification_prompt a p s.
Proof. intro H. unfold modification_prompt. rewrite H. reflexivity. Qed.

Lemma evolves_system_message (a b : PhilosopherAgent) :
  evolves a b ->
  (system_message a = initial_system_message a
   \/ exists p s, system_message a = initial_system_message a ++ modification_prompt a p s) ->
  system_message b = initial_system_message b
  \/ exists p s, system_message b = initial_system_message b ++ modification_prompt b p s.
Proof.
  intros Hab Ha.
  induction Hab as [|b Hab IH|b Hab IH|b Hab IH|b Hab IH|b message sp Hab IH|b Hab IH|b Hab IH].
  - exact Ha.
  - exact IH.
  - unfold reduce_cooldown. destruct (0 <? cooldown b)%Z; exact IH.
  - exact IH.
  - exact IH.
  - unfold update_memory. cbv zeta. destruct (Nat.ltb 15 _); exact IH.
  - exact IH.
  - assert (Hid : initial_system_message (_check_belief_drift b) = initial_system_message b
                  /\ philosophy (_check_belief_drift b) = philosophy b).
    { pose proof (evolves_identity b (_check_belief_drift b)
                    (evolves_drift b b (evolves_refl b))) as H. tauto. }
    destruct Hid as [Hi Hp].
    destruct (check_belief_drift_message b) as [E|[p [s E]]].
    + rewrite E, Hi. destruct IH as [IH|[p [s IH]]]; [left; exact IH|].
      right. exists p, s. rewrite IH.
      rewrite (modification_prompt_philosophy b _ p s Hp). reflexivity.
    + right. exists p, s. rewrite E, Hi.
      rewrite (modification_prompt_philosophy b _ p s Hp). reflexivity.
Qed.

(** X22. An agent's system message is always its base text, or its base
    text followed by exactly one belief-evolution note: if that holds of
    every agent before a round, it holds after the round, also when the
    round ended the debate and the reflections modified system messages. *)
Theorem system_message_is_base_plus_at_most_one_note
    (o : DebateOrchestrator) (w : World) :
  Forall (fun a =>
            system_message a = initial_system_message a
            \/ exists p s,
                 system_message a
                 = initial_system_message a ++ modification_prompt a p s)
         (agents o) ->
  exists outcome o' w',
    run_debate_round o w = (Ok (outcome, o'), w')
    /\ Forall (fun a =>
                 system_message a = initial_system_message a
                 \/ exists p s,
                      system_message a
                      = initial_system_message a ++ modification_prompt a p s)
              (agents o').
Proof using uniform_between random_sample_subset random_sample_length
            random_sample_distinct random_choices_member.
  intro H. destruct (run_debate_round_spec o w) as [outcome [o' [w' [Hrun [Hev _]]]]].
  exists outcome, o', w'. split; [exact Hrun|].
  exact (Forall2_evolves_keeps _ _ _ evolves_system_message Hev H).
Qed.

(** *** The test driver *)

(** X23. [run_test_debate] raises [ValueError] without an API key and
    otherwise always comes to its summary: at most 6 rounds, a transcript of
    the opening message and at most three messages per round, the three
    test philosophers as participants with one reflection each, and every
    agent still with the drift threshold 0.5 set by
    [create_test_philosophers]. *)
Theorem run_test_debate_stays_within_bounds (api_key : option string) (w : World) :
  (api_key = None \/ api_key = Some "" ->
   run_test_debate api_key w = (Raise ValueError, w))
  /\ (forall key, api_key = Some key -> key <> "" ->
      exists summary o' w',
        run_test_debate api_key w = (Ok (summary, o'), w')
        /\ (0 <= sum_rounds summary <= 6)%Z
        /\ (1 <= sum_total_messages summary
            <= 1 + 3 * Z.to_nat (sum_rounds summary))%nat
        /\ sum_participants summary
           = [ ("Kant", "deontology"); ("Mill", "consequentialism");
               ("Confucian_Sage", "confucian") ]
        /\ Py.keys (sum_reflections summary) = ["Kant"; "Mill"; "Confucian_Sage"]
        /\ map belief_drift_threshold (agents o') = [0.5; 0.5; 0.5]
        /\ debate_active o' = false).
Proof using uniform_between random_sample_subset random_sample_length
            random_sample_distinct random_choices_member.
  split.
  - intros [-> | ->]; reflexivity.
  - intros key -> Hkey.
    set (o0 := {| orch_name := "Moderator"; agents := create_test_philosophers;
                  chat_history := []; current_topic := None; round_count := 0%Z;
                  max_rounds := 6%Z; debate_active := false;
                  speakers_per_round := 2%nat |}).
    destruct (whole_debate_spec o0
                "How should we balance individual rights with collective welfare during a crisis?"
                (test_loop 6 0%Z) w)
      as [summary [o' [w' [Hrun [Hr [Hm [_ [_ [_ [Hp [Hk [Hd [_ [_ Hev]]]]]]]]]]]]]].
    + cbn. discriminate.
    + cbn. repeat constructor; cbn; intuition discriminate.
    + intros o w0 Hspr. apply test_loop_follows. exact Hspr.
    + exists summary, o', w'. split.
      * unfold run_test_debate, setup_test_llm_config.
        destruct key as [|c key]; [contradiction|]. cbn [Py.is_empty]. exact Hrun.
      * split; [exact Hr|]. split; [exact Hm|]. split; [exact Hp|].
        split; [exact Hk|]. split; [|exact Hd].
        rewrite (proj2 (proj2 (Forall2_evolves_names _ _ Hev))). reflexivity.
Qed.

(** *** [reflect] and the moderator's interventions *)

(** X24. [reflect] decays the memory first and then calls the language
    model once, with a prompt built from the decayed agent.  When the call
    fails, the drift check is skipped: the agent ends as the decayed agent,
    its system message untouched.  When the call returns, the drift check
    runs on the decayed memory.  Either way the memory afterwards is the
    decayed memory and the cooldown is unchanged. *)
Theorem reflect_checks_drift_after_decay_and_reply
    (a : PhilosopherAgent) (history : list Message) (transcript : string) (w : World) :
  let decayed := _apply_belief_decay a in
  let prompt :=
    generate_memory_influenced_prompt decayed history
      (reflection_prompt decayed transcript) in
  exists text a',
    reflect a history transcript w = (Ok (text, a'), snd (generate_reply decayed prompt w))
    /\ memory a' = memory decayed
    /\ cooldown a' = cooldown a
    /\ match fst (generate_reply decayed prompt w) with
       | Raise _ =>
           a' = decayed /\ system_message a' = system_message a
           /\ text = fallback_reflection a
       | Ok response =>
           a' = _check_belief_drift decayed
           /\ text = name a ++ " reflects: " ++ reflection_text response
       end.
Proof.
  cbv zeta. unfold reflect, try_except, bind, ret. cbv zeta.
  destruct (generate_reply (_apply_belief_decay a) _ w) as [[response|e] w1];
    cbn [fst snd].
  - do 2 eexists. split; [reflexivity|].
    split; [apply check_belief_drift_memory|].
    split; [rewrite (proj1 (check_belief_drift_cooldown _)); reflexivity|].
    split; [reflexivity|].
    pose proof (evolves_identity _ _ (evolves_drift _ _ (evolves_refl (_apply_belief_decay a))))
      as [Hn _].
    rewrite Hn. reflexivity.
  - do 2 eexists. split; [reflexivity|]. repeat split; reflexivity.
Qed.

(** X25. [generate_moderator_intervention] fails with [IndexError] on an
    empty roster, before any random number is drawn.  On a non-empty roster
    it always draws twice, first an agent and then one of six sentences, and
    returns that sentence; the first sentence names the philosophy of the
    agent drawn, the last one the round and the topic. *)
Theorem moderator_intervention_needs_a_roster (o : DebateOrchestrator) (w : World) :
  (agents o = [] -> generate_moderator_intervention o w = (Raise IndexError, w))
  /\ (agents o <> [] ->
      exists text a,
        generate_moderator_intervention o w
        = (Ok text, snd (randbelow 6 (snd (randbelow (length (agents o)) w))))
        /\ In a (agents o)
        /\ In text
             [ "Let's hear from a different philosophical perspective. How might " ++
                 philosophy a ++ " approach this?";
               "Can someone provide a concrete example to illustrate this point?";
               "I notice we have some disagreement here. Can we identify the core issue?";
               "How might we find common ground between these positions?";
               "What are the practical implications of this philosophical stance?";
               "We're " ++ Py.str_int (round_count o) ++
                 " rounds into our discussion of '" ++
                 topic_text (current_topic o) ++ "'. What new insights have emerged?" ]).
Proof.
  split.
  - intro H. unfold generate_moderator_intervention, choice, bind. rewrite H. reflexivity.
  - intro H. unfold generate_moderator_intervention, choice, bind, lift, ret.
    destruct (agents o) as [|d l] eqn:E; [contradiction|].
    destruct (randbelow (length (d :: l)) w) as [i w1]. cbn [snd].
    cbn [length]. destruct (randbelow 6 w1) as [j w2]. cbn [snd].
    eexists. exists (nth i (d :: l) d). split; [reflexivity|]. split.
    + destruct (Nat.lt_ge_cases i (length (d :: l))) as [Hi|Hi].
      * apply nth_In. exact Hi.
      * rewrite nth_overflow by exact Hi. left. reflexivity.
    + destruct j as [|[|[|[|[|[|j]]]]]]; cbn [nth In];
        first [ left; reflexivity
              | right; left; reflexivity
              | right; right; left; reflexivity
              | right; right; right; left; reflexivity
              | right; right; right; right; left; reflexivity
              | right; right; right; right; right; left; reflexivity
              | destruct j; left; reflexivity ].
Qed.

End Rounds.

End Properties.

(* ================================================================== *)
(** ** Worked examples *)

(** *** The script respects what is assumed of the [random] module *)

Lemma script_uniform_between (a b : Q) (w : Script.Calls) :
  a <= b -> a <= fst (Script.uniform a b w) /\ fst (Script.uniform a b w) <= b.
Proof. intro H. unfold Script.uniform. cbn [fst]. split; lra. Qed.

Lemma script_sample_subset (population : list nat) (k : nat) (w : Script.Calls) :
  (k <= length population)%nat -> incl (fst (Script.sample population k w)) population.
Proof.
  intros _ x Hx. unfold Script.sample in Hx. cbn [fst] in Hx.
  rewrite <- (firstn_skipn k population). apply in_or_app. left. exact Hx.
Qed.

Lemma script_choices_member (population : list nat) (weights : list Q) (w : Script.Calls) :
  population <> [] -> In (fst (Script.choices population weights w)) population.
Proof.
  intro H. destruct population as [|p rest]; [contradiction|]. left. reflexivity.
Qed.

(** *** Reactivity *)

(** Scoring Kant on the opened debate gives a score in [0,1]. *)
Lemma kant_reactivity_in_unit_interval :
  exists score : Q,
    fst (compute_reactivity (outside := Script.down) Script.kant
           (chat_history Script.opened) 0%nat) = Ok score
    /\ 0 <= score /\ score <= 1.
Proof.
  destruct (compute_reactivity_in_unit_interval (outside := Script.down)
              script_uniform_between Script.kant (chat_history Script.opened) 0%nat)
    as [[score [Heq Hrange]] _].
  exists score. rewrite Heq. split; [reflexivity|exact Hrange].
Defined.


(** The existentialist of the roster never gets the keyword bonus, even for
    a sentence made of the trigger keywords of existentialism. *)
Lemma existentialist_ignores_freedom :
  Py.any_in (Py.get philosophy_keywords (Py.lower (philosophy Script.existentialist)) [])
            (Py.lower "Freedom, authenticity and choice give existence its meaning.")
  = false.
Proof.
  pose proof (proj2 (proj2 (proj2 (existentialist_trigger_keywords_never_fire
                                     (outside := Script.down))))) as H.
  assert (Htag : Py.lower (philosophy Script.existentialist) = "existentialist")
    by (vm_compute; reflexivity).
  exact (proj1 (H Script.existentialist Htag 0
                  (mkMessage "Mill"
                     "Freedom, authenticity and choice give existence its meaning."
                     1 None) [])).
Defined.

(** *** The memory store *)

(** Kant's store is full: 15 entries of rank 1.3.  A statement of rank 1.6
    is recorded, which makes sixteen candidates: the newcomer comes first,
    the last of the old entries is dropped and 15 entries stay, within the
    bounds. *)
Lemma full_store_keeps_the_top_15 :
  let said := "Duty follows from the categorical imperative." in
  let recorded := update_memory Script.kant_with_full_store said 1 (Some "confucian") in
  length (record_candidates Script.kant_with_full_store said 1 (Some "confucian"))
    = 16%nat
  /\ length (memory recorded) = 15%nat
  /\ map mem_content (memory recorded) = said :: repeat "Duty binds us all." 14
  /\ store_ok (memory recorded)
  /\ store_ok (memory (_apply_belief_decay Script.kant_with_full_store)).
Proof.
  cbv zeta.
  set (said := "Duty follows from the categorical imperative.").
  assert (Hsize : length (record_candidates Script.kant_with_full_store said 1
                            (Some "confucian")) = 16%nat)
    by (vm_compute; reflexivity).
  assert (Hentries :
            forallb (fun m =>
                       Py.Qltb 0 (importance m) && Qle_bool (importance m) 1
                       && Qle_bool (-1) (opinion_weight m)
                       && Qle_bool (opinion_weight m) 1
                       && (0 <=? decay_rounds m)%Z)%bool
                    (memory Script.kant_with_full_store) = true)
    by (vm_compute; reflexivity).
  assert (Hok : store_ok (memory Script.kant_with_full_store)).
  { split.
    - apply Forall_forall. intros m Hm.
      apply (proj1 (forallb_forall _ _) Hentries) in Hm.
      repeat (apply andb_true_iff in Hm; destruct Hm as [Hm ?]).
      unfold entry_ok.
      split; [apply Qltb_true; exact Hm|].
      split; [apply Qle_bool_iff; assumption|].
      split; [apply Qle_bool_iff; assumption|].
      split; [apply Qle_bool_iff; assumption|apply Z.leb_le; assumption].
    - apply Nat.leb_le. vm_compute. reflexivity. }
  assert (Hrate : 0 <= memory_decay_rate Script.kant_with_full_store)
    by (vm_compute; discriminate).
  assert (Himp : 1 <= 1) by (vm_compute; discriminate).
  pose proof (memory_store_invariant Script.kant_with_full_store said 1
                (Some "confucian")) as H.
  cbv zeta in H. destruct H as [_ [Hover [_ [_ [_ H]]]]].
  assert (Hbig : (15 < length (record_candidates Script.kant_with_full_store said 1
                                 (Some "confucian")))%nat)
    by (rewrite Hsize; lia).
  destruct (Hover Hbig) as [Htop [Hfifteen _]].
  destruct (H Hok Hrate Himp) as [H1 [H2 _]].
  split; [exact Hsize|]. split; [exact Hfifteen|].
  split; [|split; assumption].
  rewrite Htop. vm_compute. reflexivity.
Defined.

(** C1 fails on the code: a decay step leaves an entry whose importance has
    fallen to 0.1995 in the store, also at the end of [reflect], the only
    caller of the step; and a round makes no decay step: the entries recorded
    in the first round still have age 0 after the second round. *)
Lemma decay_neither_evicts_nor_runs_each_round :
  (exists m, In m (memory (_apply_belief_decay Script.kant_with_faded_memory))
             /\ importance m <= 0.2)
  /\ (exists text a w,
        reflect (outside := Script.up) Script.kant_with_faded_memory [] "" 0%nat
          = (Ok (text, a), w)
        /\ exists m, In m (memory a) /\ importance m <= 0.2)
  /\ option_map res_round (Script.played (Script.play Script.opened 0%nat)) = Some 1%Z
  /\ option_map res_round (Script.played (Script.play Script.after_round_1 100%nat))
     = Some 2%Z
  /\ Script.ages Script.after_round_1 = [[0]; [0]; [0; 0]]%Z
  /\ Script.ages Script.after_round_2 = [[0; 0]; [0; 0]; [0; 0; 0; 0]]%Z.
Proof.
  split; [|split; [|split; [|split; [|split]]]].
  - eexists. split; [left; reflexivity|]. vm_compute. discriminate.
  - do 3 eexists. split; [vm_compute; reflexivity|].
    eexists. split; [left; reflexivity|]. vm_compute. discriminate.
  - vm_compute. reflexivity.
  - vm_compute. reflexivity.
  - vm_compute. reflexivity.
  - vm_compute. reflexivity.
Qed.

(** *** Drift *)

(** C2 fails on the code: two origin personas exceed Kant's threshold and
    both are applied in turn, yet the system message ends up as the base
    text followed by the second modifier alone, not by both. *)
Lemma second_drift_replaces_the_first :
  map fst (applied_modifiers Script.kant_persuaded) = ["consequentialism"; "buddhist"]
  /\ system_message (_check_belief_drift Script.kant_persuaded)
     = initial_system_message Script.kant_persuaded
       ++ modification_prompt Script.kant_persuaded "buddhist" 0.9
  /\ system_message (_check_belief_drift Script.kant_persuaded)
     <> initial_system_message Script.kant_persuaded
        ++ modification_prompt Script.kant_persuaded "consequentialism" 1
        ++ modification_prompt Script.kant_persuaded "buddhist" 0.9.
Proof.
  split; [|split].
  - vm_compute. reflexivity.
  - vm_compute. reflexivity.
  - intro H.
    apply (f_equal String.length) in H. vm_compute in H. discriminate H.
Qed.

(** *** Selection *)

(** Three candidates, two speakers a round: the selection of the code is the
    selection of the specification. *)
Lemma selection_on_three_candidates :
  select_speakers (outside := Script.down) Script.panel
    [(0%nat, 1); (1%nat, 1); (2%nat, 0.775)] 0%nat
  = (Ok ([0%nat; 1%nat], [(0%nat, 1); (1%nat, 1); (2%nat, 0.775)]), 2%nat)
  /\ spec_select (outside := Script.down)
       [(0%nat, 1); (1%nat, 1); (2%nat, 0.775)] 2 0%nat
     = (Ok [0%nat; 1%nat], 2%nat).
Proof.
  pose proof (select_speakers_refines_spec (outside := Script.down)
                script_choices_member Script.panel
                [(0%nat, 1); (1%nat, 1); (2%nat, 0.775)] 0%nat) as H.
  cbv zeta in H. destruct H as [H _].
  assert (Hspec : spec_select (outside := Script.down)
                    [(0%nat, 1); (1%nat, 1); (2%nat, 0.775)] 2 0%nat
                  = (Ok [0%nat; 1%nat], 2%nat)) by (vm_compute; reflexivity).
  split; [|exact Hspec].
  rewrite H. change (speakers_per_round Script.panel) with 2%nat.
  rewrite Hspec. vm_compute. reflexivity.
Defined.

(** Kant, cooling down after a turn, is passed over by the scoring phase. *)
Lemma cooling_kant_is_passed_over :
  exists scores o' w',
    collect_intent_to_speak (outside := Script.down)
      (with_agents Script.opened [set_cooldown Script.kant 2; Script.mill]) 0%nat
    = (Ok (scores, o'), w')
    /\ ~ In 0%nat (map fst scores)
    /\ option_map cooldown (nth_error (agents o') 0) = Some 1%Z.
Proof.
  destruct (cooling_down_participant_is_skipped (outside := Script.down)
              script_sample_subset script_choices_member
              (with_agents Script.opened [set_cooldown Script.kant 2; Script.mill])
              0%nat 0%nat (set_cooldown Script.kant 2) eq_refl eq_refl)
    as [scores [o' [w' [H1 [H2 [_ [H3 _]]]]]]].
  exists scores, o', w'. split; [exact H1|]. split; [exact H2|].
  rewrite H3. reflexivity.
Defined.

(** *** Failure of the language model *)


(** *** Cooldown across rounds *)

(** Kant and Mill speak in the first round and get cooldown 2; the
    continuation checks bring it to 0 before the next scoring phase, so both
    are scored, and speak, again in the second round. *)
Lemma speakers_of_round_1_speak_again_in_round_2 :
  option_map res_speakers (Script.played (Script.play Script.opened 0%nat))
    = Some ["Kant"; "Mill"]
  /\ map cooldown (agents Script.after_round_1) = [1; 1; 0]%Z
  /\ option_map (fun r => map fst (res_intent_scores r))
       (Script.played (Script.play Script.after_round_1 100%nat))
     = Some [0%nat; 1%nat; 2%nat]
  /\ option_map res_speakers (Script.played (Script.play Script.after_round_1 100%nat))
     = Some ["Kant"; "Mill"].
Proof.
  repeat split; vm_compute; reflexivity.
Qed.

(* ================================================================== *)
(** ** Further worked examples *)

(** *** The script and the further assumptions on [random.sample] *)

Lemma script_sample_length (population : list nat) (k : nat) (w : Script.Calls) :
  (k <= length population)%nat -> length (fst (Script.sample population k w)) = k.
Proof. intro H. unfold Script.sample. cbn [fst]. apply firstn_length_le. exact H. Qed.

Lemma script_sample_distinct (population : list nat) (k : nat) (w : Script.Calls) :
  (k <= length population)%nat -> NoDup population ->
  NoDup (fst (Script.sample population k w)).
Proof.
  intros _ H. unfold Script.sample. cbn [fst].
  rewrite <- (firstn_skipn k population) in H. apply NoDup_app_remove_r in H. exact H.
Qed.

(** *** The memory store *)

(** Kant's store is full of strong memories; a weaker statement is
    forgotten at once. *)
Lemma full_store_forgets_a_weak_statement :
  memory (update_memory Script.kant_with_full_store "Nothing matters." 0.5 None)
  = sorted_desc memory_rank (memory Script.kant_with_full_store).
Proof.
  assert (Hall : forallb (fun m =>
                   Py.Qltb 0.2 (importance m)
                   && Qle_bool (memory_rank (recorded_entry Script.kant_with_full_store
                                               "Nothing matters." 0.5 None))
                               (memory_rank m))%bool
                   (memory Script.kant_with_full_store) = true)
    by (vm_compute; reflexivity).
  apply full_store_drops_weakest_newcomer.
  - vm_compute. reflexivity.
  - intros m Hm. apply (proj1 (forallb_forall _ _) Hall) in Hm.
    apply andb_true_iff in Hm. destruct Hm as [H1 H2].
    split; [apply Qltb_true; exact H1|apply Qle_bool_iff; exact H2].
  - vm_compute. reflexivity.
Defined.

(** Both memories of the persuaded Kant have faded after seven
    reflections. *)
Lemma kant_forgets_within_seven_reflections :
  Forall (fun m => importance m <= 0.2)
         (memory (Nat.iter 7 _apply_belief_decay Script.kant_persuaded)).
Proof.
  assert (Hall : forallb (fun m =>
                   Qle_bool 0 (importance m) && Qle_bool (importance m) 1
                   && (0 <=? decay_rounds m)%Z)%bool
                   (memory Script.kant_persuaded) = true)
    by (vm_compute; reflexivity).
  pose proof (memories_fade_within_seven_decay_steps Script.kant_persuaded) as H.
  cbv zeta in H. refine (proj1 (proj2 (H _ _))).
  - vm_compute. discriminate.
  - apply Forall_forall. intros m Hm. apply (proj1 (forallb_forall _ _) Hall) in Hm.
    apply andb_true_iff in Hm. destruct Hm as [Hm H3].
    apply andb_true_iff in Hm. destruct Hm as [H1 H2].
    split; [apply Qle_bool_iff; exact H1|].
    split; [apply Qle_bool_iff; exact H2|apply Z.leb_le; exact H3].
Defined.

(** *** Responding *)

(** Addressed by Mill, Kant wants to respond. *)
Lemma kant_responds_when_addressed :
  fst (should_respond (outside := Script.down) Script.kant Script.addressed_to_kant 0%nat)
  = Ok true.
Proof.
  refine (proj1 (proj2 (proj2 (should_respond_cases (outside := Script.down)
                                 script_uniform_between Script.kant
                                 Script.addressed_to_kant 0%nat))) _ _ _).
  - vm_compute. discriminate.
  - vm_compute. discriminate.
  - exists (mkMessage "Mill" "Kant, your duty is clear." 1 (Some "consequentialism")).
    split; [vm_compute; left; reflexivity|].
    split; [vm_compute; discriminate|].
    vm_compute. reflexivity.
Defined.

(** The statement Kant remembers from Mill is relevant when Mill repeats
    it: it has more than three distinct words. *)
Lemma relevant_memory_shares_four_words :
  exists m,
    In m (_get_relevant_memories Script.kant_persuaded
            [mkMessage "Mill" Script.praise_by_mill 1 (Some "consequentialism")])
    /\ (4 <= length (nodup string_dec (memory_tokens m)))%nat.
Proof.
  destruct (_get_relevant_memories Script.kant_persuaded
              [mkMessage "Mill" Script.praise_by_mill 1 (Some "consequentialism")])
    as [|m l] eqn:E.
  { exfalso.
    assert (Hne : _get_relevant_memories Script.kant_persuaded
                    [mkMessage "Mill" Script.praise_by_mill 1 (Some "consequentialism")]
                  <> []) by (vm_compute; discriminate).
    exact (Hne E). }
  exists m. split; [left; reflexivity|].
  assert (Hin : In m (_get_relevant_memories Script.kant_persuaded
                        [mkMessage "Mill" Script.praise_by_mill 1
                                   (Some "consequentialism")]))
    by (rewrite E; left; reflexivity).
  exact (proj1 (proj2 (relevance_needs_four_distinct_words _ _ _ Hin))).
Defined.

(** *** Selection and rounds *)

(** Of three candidates two distinct ones are selected. *)
Lemma two_distinct_speakers_of_three :
  exists selected sorted w',
    select_speakers (outside := Script.down) Script.panel
      [(0%nat, 1); (1%nat, 1); (2%nat, 0.775)] 0%nat = (Ok (selected, sorted), w')
    /\ NoDup selected /\ length selected = 2%nat.
Proof.
  assert (Hrun : select_speakers (outside := Script.down) Script.panel
                   [(0%nat, 1); (1%nat, 1); (2%nat, 0.775)] 0%nat
                 = (Ok ([0%nat; 1%nat], [(0%nat, 1); (1%nat, 1); (2%nat, 0.775)]), 2%nat))
    by (vm_compute; reflexivity).
  assert (Hnd : NoDup (map fst [(0%nat, 1); (1%nat, 1); (2%nat, 0.775)])).
  { cbn [map fst]. repeat constructor; cbn; lia. }
  destruct (select_speakers_picks_distinct_speakers (outside := Script.down)
              script_sample_subset script_sample_length script_sample_distinct
              script_choices_member Script.panel _ _ _ _ _ Hnd Hrun) as [H1 [H2 _]].
  do 3 eexists. split; [exact Hrun|]. split; [exact H1|exact H2].
Defined.

(** The opened debate passes the check, so its first round is played. *)
Lemma opened_debate_plays_its_first_round :
  exists go o1 w1,
    should_continue_debate (outside := Script.down) Script.opened 0%nat
    = (Ok (go, o1), w1)
    /\ (go = true ->
        exists result o' w',
          Script.play Script.opened 0%nat = (Ok (Played result, o'), w')).
Proof.
  destruct (round_is_played_when_the_check_passes (outside := Script.down)
              script_uniform_between script_sample_subset script_sample_length
              script_sample_distinct script_choices_member Script.opened 0%nat)
    as [go [o1 [w1 [H1 [_ [H2 _]]]]]].
  exists go, o1, w1. split; [exact H1|]. intro E. apply (H2 E).
  vm_compute. lia.
Defined.

(** The first round of the opened debate is round 1, with at most two
    responses. *)
Lemma first_round_bookkeeping :
  exists result o' w',
    Script.play Script.opened 0%nat = (Ok (Played result, o'), w')
    /\ res_round result = 1%Z
    /\ (length (res_responses result) <= 2)%nat
    /\ length (agents o') = 3%nat.
Proof.
  destruct (round_bookkeeping (outside := Script.down)
              script_uniform_between script_sample_subset script_sample_length
              script_sample_distinct script_choices_member Script.opened 0%nat)
    as [outcome [o' [w' [Hrun [Hlen [_ [_ [_ Hout]]]]]]]].
  assert (Hplayed : exists r, outcome = Played r).
  { assert (Hp : Script.played (Script.play Script.opened 0%nat) <> None)
      by (vm_compute; discriminate).
    destruct outcome as [s|r]; [|exists r; reflexivity].
    exfalso. apply Hp. unfold Script.played, Script.play. rewrite Hrun. reflexivity. }
  destruct Hplayed as [r ->].
  destruct Hout as [_ [_ [_ [_ [Hr [Hn _]]]]]].
  exists r, o', w'. split; [exact Hrun|]. split; [exact Hr|].
  split; [exact (proj2 Hn)|exact Hlen].
Defined.

(** Kant and Mill alone: both speak in the first round, and the round
    reports that the debate is not to continue. *)
Lemma duo_debate_stops_after_one_round :
  exists outcome o' w',
    run_debate_round (outside := Script.down) Script.duo 0%nat = (Ok (outcome, o'), w')
    /\ match outcome with
       | Ended _ => True
       | Played result =>
           res_continue result = false /\ length (res_responses result) = 2%nat
       end.
Proof.
  destruct (proj2 (debate_stops_when_everybody_cools_down (outside := Script.down)
                     script_uniform_between script_sample_subset script_sample_length
                     script_sample_distinct script_choices_member Script.duo 0%nat))
    as [outcome [o' [w' [Hrun Hout]]]].
  - vm_compute. repeat constructor.
  - vm_compute. lia.
  - exists outcome, o', w'. split; [exact Hrun|].
    destruct outcome as [s|r]; [exact I|]. destruct Hout as [H1 [H2 _]].
    split; [exact H1|exact H2].
Defined.

(** *** Whole debates *)

(** A scripted debate of at most eight rounds, with the language model
    down. *)
Lemma scripted_debate_stays_within_bounds :
  exists summary o' w',
    run_debate (outside := Script.down) "Is it ever morally permissible to lie?" 8 0%nat
    = (Ok (summary, o'), w')
    /\ (0 <= sum_rounds summary <= 8)%Z
    /\ (sum_total_messages summary <= 1 + 3 * Z.to_nat (sum_rounds summary))%nat
    /\ Py.keys (sum_reflections summary)
       = ["Kant"; "Mill"; "Confucian_Sage"; "Existentialist"; "Santideva"].
Proof.
  destruct (run_debate_stays_within_bounds (outside := Script.down)
              script_uniform_between script_sample_subset script_sample_length
              script_sample_distinct script_choices_member
              "Is it ever morally permissible to lie?" 8 0%nat)
    as [summary [o' [w' [Hrun [Hr [Hm [_ [_ [_ [_ [Hk _]]]]]]]]]]].
  exists summary, o', w'. split; [exact Hrun|]. split; [exact Hr|].
  split; [exact (proj2 Hm)|exact Hk].
Defined.

(** With a key in the environment the debate returns its summary. *)
Lemma keyed_debate_returns_its_summary :
  exists summary o' w',
    run_debate_with_key (outside := Script.down) (Some "sk-test")
      "Is it ever morally permissible to lie?" 8 0%nat
    = (Ok (summary, o'), w').
Proof.
  refine (proj2 (proj2 (run_debate_fails_only_without_a_key (outside := Script.down)
                          script_uniform_between (Some "sk-test")
                          "Is it ever morally permissible to lie?" 8 0%nat)
                   "sk-test" eq_refl _)).
  discriminate.
Defined.

(** The scripted test debate. *)
Lemma scripted_test_debate_stays_within_bounds :
  exists summary o' w',
    run_test_debate (outside := Script.down) (Some "sk-test") 0%nat
    = (Ok (summary, o'), w')
    /\ (0 <= sum_rounds summary <= 6)%Z
    /\ map belief_drift_threshold (agents o') = [0.5; 0.5; 0.5].
Proof.
  destruct (proj2 (run_test_debate_stays_within_bounds (outside := Script.down)
                     script_uniform_between script_sample_subset script_sample_length
                     script_sample_distinct script_choices_member
                     (Some "sk-test") 0%nat) "sk-test" eq_refl)
    as [summary [o' [w' [Hrun [Hr [_ [_ [_ [Ht _]]]]]]]]].
  - discriminate.
  - exists summary, o', w'. split; [exact Hrun|]. split; [exact Hr|exact Ht].
Defined.

(** *** Invariants of a round *)

(** The first round of the opened debate leaves Kant, Mill and the
    Existentialist who they were. *)
Lemma first_round_keeps_identities :
  exists outcome o' w',
    Script.play Script.opened 0%nat = (Ok (outcome, o'), w')
    /\ map name (agents o') = ["Kant"; "Mill"; "Existentialist"].
Proof.
  destruct (round_keeps_the_identity_of_agents (outside := Script.down)
              script_uniform_between script_sample_subset script_sample_length
              script_sample_distinct script_choices_member Script.opened 0%nat)
    as [outcome [o' [w' [Hrun Hall]]]].
  exists outcome, o', w'. split; [exact Hrun|].
  assert (Hnames : map name (agents o') = map name (agents Script.opened)).
  { clear Hrun. induction Hall as [|a b l l' Hab _ IH]; [reflexivity|].
    cbn [map]. rewrite IH, (proj1 Hab). reflexivity. }
  rewrite Hnames. vm_compute. reflexivity.
Defined.

(** After the first round the cooldowns are 1, 1 and 0; they stay within
    0..2 in the second round. *)
Lemma cooldowns_in_the_second_round :
  exists outcome o' w',
    Script.play Script.after_round_1 100%nat = (Ok (outcome, o'), w')
    /\ Forall (fun a => (0 <= cooldown a <= 2)%Z) (agents o').
Proof.
  assert (Hall : forallb (fun a => (0 <=? cooldown a)%Z && (cooldown a <=? 2)%Z)%bool
                         (agents Script.after_round_1) = true)
    by (vm_compute; reflexivity).
  apply (cooldown_stays_between_0_and_2 (outside := Script.down)
           script_uniform_between script_sample_subset script_sample_length
           script_sample_distinct script_choices_member Script.after_round_1 100%nat).
  apply Forall_forall. intros a Ha. apply (proj1 (forallb_forall _ _) Hall) in Ha.
  apply andb_true_iff in Ha. destruct Ha as [H1 H2].
  apply Z.leb_le in H1. apply Z.leb_le in H2. lia.
Defined.

(** The memories recorded in the first round respect the bounds, and so do
    the memories after the second round. *)
Lemma memory_bounds_in_the_second_round :
  exists outcome o' w',
    Script.play Script.after_round_1 100%nat = (Ok (outcome, o'), w')
    /\ Forall (fun a => store_ok (memory a) /\ 0 <= memory_decay_rate a) (agents o').
Proof.
  assert (Hall : forallb (fun a =>
                   forallb (fun m =>
                      Py.Qltb 0 (importance m) && Qle_bool (importance m) 1
                      && Qle_bool (-1) (opinion_weight m)
                      && Qle_bool (opinion_weight m) 1
                      && (0 <=? decay_rounds m)%Z) (memory a)
                   && (length (memory a) <=? 15)%nat
                   && Qle_bool 0 (memory_decay_rate a))%bool
                   (agents Script.after_round_1) = true)
    by (vm_compute; reflexivity).
  apply (round_keeps_the_memory_bounds (outside := Script.down)
           script_uniform_between script_sample_subset script_sample_length
           script_sample_distinct script_choices_member Script.after_round_1 100%nat).
  apply Forall_forall. intros a Ha. apply (proj1 (forallb_forall _ _) Hall) in Ha.
  apply andb_true_iff in Ha. destruct Ha as [Ha Hrate].
  apply andb_true_iff in Ha. destruct Ha as [Hentries Hlen].
  split; [|apply Qle_bool_iff; exact Hrate].
  split; [|apply Nat.leb_le; exact Hlen].
  apply Forall_forall. intros m Hm. apply (proj1 (forallb_forall _ _) Hentries) in Hm.
  repeat (apply andb_true_iff in Hm; destruct Hm as [Hm ?]).
  unfold entry_ok.
  split; [apply Qltb_true; exact Hm|].
  split; [apply Qle_bool_iff; assumption|].
  split; [apply Qle_bool_iff; assumption|].
  split; [apply Qle_bool_iff; assumption|apply Z.leb_le; assumption].
Defined.

(** Nobody's system message has been modified after the first round, and
    after the second round each is the base text with at most one note. *)
Lemma system_messages_in_the_second_round :
  exists outcome o' w',
    Script.play Script.after_round_1 100%nat = (Ok (outcome, o'), w')
    /\ Forall (fun a =>
                 system_message a = initial_system_message a
                 \/ exists p s,
                      system_message a
                      = initial_system_message a ++ modification_prompt a p s)
              (agents o').
Proof.
  assert (Hall : forallb (fun a => String.eqb (system_message a)
                                              (initial_system_message a))
                         (agents Script.after_round_1) = true)
    by (vm_compute; reflexivity).
  apply (system_message_is_base_plus_at_most_one_note (outside := Script.down)
           script_uniform_between script_sample_subset script_sample_length
           script_sample_distinct script_choices_member Script.after_round_1 100%nat).
  apply Forall_forall. intros a Ha. apply (proj1 (forallb_forall _ _) Hall) in Ha.
  left. apply String.eqb_eq. exact Ha.
Defined.

(** *** The continuation check between two rounds *)

(** Kant speaks in the first round and gets cooldown 2.  The check made for
    the [continue] flag of that round leaves him with 1 and the driver's
    check before the second round with 0; the second round passes its own
    check, is played, and Kant is in its score list. *)
Lemma kant_is_scored_again_after_speaking :
  option_map res_speakers (Script.played (Script.play Script.opened 0%nat))
    = Some ["Kant"; "Mill"]
  /\ map cooldown (agents Script.after_round_1) = [1; 1; 0]%Z
  /\ exists o1 w1 r o2 w2,
       should_continue_debate (outside := Script.down) Script.after_round_1 100%nat
       = (Ok (true, o1), w1)
       /\ map cooldown (agents o1) = [0; 0; 0]%Z
       /\ run_debate_round (outside := Script.down) o1 w1 = (Ok (Played r, o2), w2)
       /\ In 0%nat (map fst (res_intent_scores r)).
Proof.
  split; [vm_compute; reflexivity|]. split; [vm_compute; reflexivity|].
  pose proof (continuation_check_consumes_cooldown (outside := Script.down)
                script_uniform_between script_sample_subset script_sample_length
                script_sample_distinct script_choices_member
                Script.after_round_1 100%nat) as [_ [_ [_ [_ Hscored]]]].
  do 5 eexists.
  split; [vm_compute; reflexivity|].
  split; [vm_compute; reflexivity|].
  split; [vm_compute; reflexivity|].
  eapply Hscored.
  - vm_compute. reflexivity.
  - vm_compute. reflexivity.
  - vm_compute. reflexivity.
  - vm_compute. split; discriminate.
Defined.
